(** * SMTR Rio bus service: a shallow embedding of [SppoService]

    The development follows [src/services/sppoService.js] and
    [src/services/cacheService.js].

    Conventions of the embedding.
    - A JavaScript number is a [number]: [NaN], a signed infinity, or a
      finite value carried by a rational.  Finite arithmetic is exact (the
      rounding of binary64 is not modelled); every finite double is a
      rational, so every double is represented, and the value read from a
      decimal text stands for the double nearest to it.  The filter of
      the active vehicles, which tells a speed from 0, is stated for
      speeds in the range of binary64 ([inRange64]).
    - The sines, cosines, roots and arctangents of [calcularDistancia]
      are taken over the real numbers ([real], [distance]).
    - A JavaScript string is a [string] whose characters are code units
      below 256.
    - The ISO-8601 text produced by [Date.prototype.toISOString] is kept
      as the time value (milliseconds since the epoch) it denotes. *)

From Stdlib Require Import ZArith QArith Qround Qabs Reals String Ascii List Bool.
From Stdlib Require Import Qreals Permutation Lia Lqa Lra.
From stdpp Require Import base strings gmap.

Local Open Scope string_scope.
Local Open Scope Z_scope.

(* ===================================================================== *)
(** ** JavaScript numbers *)
(* ===================================================================== *)

Inductive number : Type :=
| NaN
| Infinity (negative : bool)
| Fin (q : Q).

(** ToBoolean on a number: [NaN], [+0] and [-0] are falsy. *)
Definition numberTruthy (x : number) : bool :=
  match x with
  | NaN => false
  | Infinity _ => true
  | Fin q => negb (Qeq_bool q 0)
  end.

(** [x || 0] on numbers. *)
Definition orZero (x : number) : number :=
  if numberTruthy x then x else Fin 0.

(** [x > 0]; a comparison with [NaN] is false. *)
Definition numberGtZero (x : number) : bool :=
  match x with
  | NaN => false
  | Infinity neg => negb neg
  | Fin q => negb (Qle_bool q 0)
  end.

(* ===================================================================== *)
(** ** Strings: trimming, case, numeric prefixes *)
(* ===================================================================== *)

Definition code (c : ascii) : N := N_of_ascii c.

(** White space and line terminators of ECMAScript below code unit 256:
    TAB, LF, VT, FF, CR, SP and NBSP. *)
Definition isWhiteSpace (c : ascii) : bool :=
  (((9 <=? code c) && (code c <=? 13)) || (code c =? 32) || (code c =? 160))%N.

Definition isDigit (c : ascii) : bool :=
  ((48 <=? code c) && (code c <=? 57))%N.

Definition digitVal (c : ascii) : Z := Z.of_N (code c) - 48.

Fixpoint trimStart (s : string) : string :=
  match s with
  | String c s' => if isWhiteSpace c then trimStart s' else s
  | EmptyString => EmptyString
  end.

Definition stringRev (s : string) : string :=
  string_of_list_ascii (rev (list_ascii_of_string s)).

Definition trimEnd (s : string) : string := stringRev (trimStart (stringRev s)).

(** [String.prototype.trim]. *)
Definition trim (s : string) : string := trimEnd (trimStart s).

(** Lower-casing of one code unit below 256: A-Z, and the Latin-1 capitals
    U+00C0..U+00DE other than the multiplication sign U+00D7. *)
Definition lowerChar (c : ascii) : ascii :=
  let n := code c in
  if (((65 <=? n) && (n <=? 90)) ||
      ((192 <=? n) && (n <=? 222) && negb (n =? 215)))%N
  then ascii_of_N (n + 32) else c.

(** [String.prototype.toLowerCase]. *)
Fixpoint toLowerCase (s : string) : string :=
  match s with
  | String c s' => String (lowerChar c) (toLowerCase s')
  | EmptyString => EmptyString
  end.

(** [String.prototype.includes]: [needle] occurs in [s]. *)
Fixpoint includes (s needle : string) : bool :=
  String.prefix needle s ||
  match s with
  | String _ s' => includes s' needle
  | EmptyString => false
  end.

(** [s.replace(',', '.')]: only the first comma is replaced. *)
Fixpoint replaceFirstComma (s : string) : string :=
  match s with
  | String c s' =>
      if Ascii.eqb c "," then String "." s' else String c (replaceFirstComma s')
  | EmptyString => EmptyString
  end.

(** Longest prefix of decimal digits, with the rest of the string. *)
Fixpoint spanDigits (s : string) : list Z * string :=
  match s with
  | String c s' =>
      if isDigit c
      then let (ds, r) := spanDigits s' in (digitVal c :: ds, r)
      else ([], s)
  | EmptyString => ([], EmptyString)
  end.

Definition digitsValue (ds : list Z) : Z :=
  fold_left (fun acc d => 10 * acc + d) ds 0.

Definition readSign (s : string) : bool * string :=
  match s with
  | String c r =>
      if Ascii.eqb c "-" then (true, r)
      else if Ascii.eqb c "+" then (false, r)
      else (false, s)
  | EmptyString => (false, s)
  end.

(** Digits of radix [r] (2 to 36): [0-9], [a-z], [A-Z]. *)
Definition radixDigit (r : Z) (c : ascii) : option Z :=
  let n := Z.of_N (code c) in
  let v := (if (48 <=? n) && (n <=? 57) then n - 48
            else if (97 <=? n) && (n <=? 122) then n - 87
            else if (65 <=? n) && (n <=? 90) then n - 55
            else r)%Z in
  if (v <? r)%Z then Some v else None.

Fixpoint spanRadix (r : Z) (s : string) : list Z * string :=
  match s with
  | String c s' =>
      match radixDigit r c with
      | Some v => let (ds, rest) := spanRadix r s' in (v :: ds, rest)
      | None => ([], s)
      end
  | EmptyString => ([], EmptyString)
  end.

Definition radixValue (r : Z) (ds : list Z) : Z :=
  fold_left (fun acc d => r * acc + d) ds 0.

(** Optional ExponentPart: [e] or [E], an optional sign, at least one
    digit.  Anything else is left in the remainder. *)
Definition readExponent (s : string) : Z * string :=
  match s with
  | String c r =>
      if Ascii.eqb c "e" || Ascii.eqb c "E" then
        let (neg, r') := readSign r in
        match spanDigits r' with
        | ([], _) => (0, s)
        | (ds, r'') => (if neg then - digitsValue ds else digitsValue ds, r'')
        end
      else (0, s)
  | EmptyString => (0, s)
  end.

(** Value of the unsigned literal [ip.fp e ex]. *)
Definition decimalValue (ip fp : list Z) (ex : Z) : Q :=
  ((inject_Z (digitsValue ip)
    + inject_Z (digitsValue fp) / inject_Z (10 ^ Z.of_nat (length fp)))
   * Qpower 10 ex)%Q.

Definition applySign (neg : bool) (q : Q) : Q := if neg then Qopp q else q.

Definition dropPrefix (n : nat) (s : string) : string :=
  String.substring n (String.length s - n) s.

(** Longest prefix of [r] that is a StrUnsignedDecimalLiteral, read under
    the sign [neg], with its value and the rest of the string. *)
Definition scanUnsignedLiteral (neg : bool) (r : string)
  : option (number * string) :=
  if String.prefix "Infinity" r then Some (Infinity neg, dropPrefix 8 r)
  else
    let (ip, r1) := spanDigits r in
    let (fp, r2) :=
      match r1 with
      | String c r' => if Ascii.eqb c "." then spanDigits r' else ([], r1)
      | EmptyString => ([], r1)
      end in
    match ip, fp with
    | [], [] => None
    | _, _ =>
        let (ex, r3) := readExponent r2 in
        Some (Fin (Qred (applySign neg (decimalValue ip fp ex))), r3)
    end.

(** Longest prefix of [s] that is a StrDecimalLiteral. *)
Definition scanDecimalLiteral (s : string) : option (number * string) :=
  let (neg, r) := readSign s in
  scanUnsignedLiteral neg r.

(** [parseFloat] on a string: leading white space is skipped and the
    longest prefix that is a StrDecimalLiteral is read; [NaN] when there
    is none. *)
Definition parseFloatString (s : string) : number :=
  match scanDecimalLiteral (trimStart s) with
  | Some (x, _) => x
  | None => NaN
  end.

Definition isEmpty (s : string) : bool :=
  match s with EmptyString => true | _ => false end.

(** Non-decimal integer literal [0x..], [0o..], [0b..] (either case). *)
Definition scanPrefixedInteger (s : string) : option (Z * string) :=
  match s with
  | String z (String p r) =>
      if Ascii.eqb z "0" then
        let n := code p in
        if ((n =? 120) || (n =? 88))%N then Some (16, r)
        else if ((n =? 111) || (n =? 79))%N then Some (8, r)
        else if ((n =? 98) || (n =? 66))%N then Some (2, r)
        else None
      else None
  | _ => None
  end.

(** ToNumber on a string (StringToNumber): the whole trimmed string must
    be a numeric literal; the empty string is [0]. *)
Definition stringToNumber (s : string) : number :=
  let t := trim s in
  if isEmpty t then Fin 0
  else
    match scanPrefixedInteger t with
    | Some (r, body) =>
        match spanRadix r body with
        | (d :: ds, EmptyString) => Fin (inject_Z (radixValue r (d :: ds)))
        | _ => NaN
        end
    | None =>
        match scanDecimalLiteral t with
        | Some (x, EmptyString) => x
        | _ => NaN
        end
    end.

(** [parseInt(s)] with no radix: leading white space and a sign are
    skipped, a [0x] prefix selects radix 16, and the longest prefix of
    digits is read; [NaN] when it is empty. *)
Definition parseIntString (s : string) : number :=
  let (neg, r) := readSign (trimStart s) in
  let (radix, body) :=
    match scanPrefixedInteger r with
    | Some (16, b) => (16, b)
    | _ => (10, r)
    end in
  match spanRadix radix body with
  | ([], _) => NaN
  | (ds, _) =>
      Fin (inject_Z (if neg then - radixValue radix ds else radixValue radix ds))
  end.

(* ===================================================================== *)
(** ** Printing numbers *)
(* ===================================================================== *)

Definition digitChar (d : Z) : ascii := ascii_of_N (Z.to_N (d + 48)).

Fixpoint digitsOfAux (fuel : nat) (n : Z) (acc : string) : string :=
  match fuel with
  | O => acc
  | S f =>
      let acc' := String (digitChar (n mod 10)) acc in
      if n / 10 =? 0 then acc' else digitsOfAux f (n / 10) acc'
  end.

(** Decimal digits of a non-negative integer, most significant first. *)
Definition digitsOf (n : Z) : string :=
  digitsOfAux (S (Z.to_nat (Z.log2 n))) n "".

Fixpoint zeros (n : nat) : string :=
  match n with
  | O => ""
  | S n' => String "0" (zeros n')
  end.

(** Multiply by ten until the value is an integer. *)
Fixpoint scaleUp (fuel : nat) (q : Q) (e : Z) : option (Z * Z) :=
  let r := Qred q in
  if Z.pos (Qden r) =? 1 then Some (Qnum r, e)
  else
    match fuel with
    | O => None
    | S f => scaleUp f (q * 10)%Q (e - 1)
    end.

Fixpoint stripZeros (fuel : nat) (s e : Z) : Z * Z :=
  match fuel with
  | O => (s, e)
  | S f => if s mod 10 =? 0 then stripZeros f (s / 10) (e + 1) else (s, e)
  end.

(** [q = s * 10^e] with [s] not a multiple of ten, for [q > 0] with a
    finite decimal expansion. *)
Definition decimalForm (q : Q) : option (Z * Z) :=
  match scaleUp (Pos.size_nat (Qden q)) q 0 with
  | Some (m, e) => Some (stripZeros (S (Z.to_nat (Z.log2 m))) m e)
  | None => None
  end.

(** Number::toString (radix 10) of a positive value [s * 10^e]. *)
Definition printDecimal (s e : Z) : string :=
  let ds := digitsOf s in
  let k := Z.of_nat (String.length ds) in
  let n := k + e in
  if (k <=? n) && (n <=? 21) then ds +:+ zeros (Z.to_nat (n - k))
  else if (0 <? n) && (n <=? 21) then
    String.substring 0 (Z.to_nat n) ds +:+ "." +:+ dropPrefix (Z.to_nat n) ds
  else if (-6 <? n) && (n <=? 0) then "0." +:+ zeros (Z.to_nat (- n)) +:+ ds
  else
    let ex := (if n - 1 <? 0 then "-" else "+") +:+ digitsOf (Z.abs (n - 1)) in
    if k =? 1 then ds +:+ "e" +:+ ex
    else String.substring 0 1 ds +:+ "." +:+ dropPrefix 1 ds +:+ "e" +:+ ex.

(** A rational with no finite decimal expansion is not a double; its
    expansion is cut after 21 fractional digits before it is printed. *)
Definition printPositive (q : Q) : string :=
  match decimalForm q with
  | Some (s, e) => printDecimal s e
  | None =>
      match decimalForm (inject_Z (Qfloor (q * inject_Z (10 ^ 21))) / inject_Z (10 ^ 21))%Q with
      | Some (s, e) => printDecimal s e
      | None => "0"
      end
  end.

(** ToString on a number. *)
Definition numberToString (x : number) : string :=
  match x with
  | NaN => "NaN"
  | Infinity neg => if neg then "-Infinity" else "Infinity"
  | Fin q =>
      if Qeq_bool q 0 then "0"
      else if Qle_bool q 0 then "-" +:+ printPositive (Qopp q)
      else printPositive q
  end.

(** [x.toFixed(4)]: the nearest multiple of [10^-4], the larger one on a
    tie, printed with four fractional digits. *)
Definition toFixed4 (x : number) : string :=
  match x with
  | Fin q =>
      if Qle_bool (inject_Z (10 ^ 21)) (Qabs q) then numberToString x
      else
        let n := Qfloor (Qabs q * 10000 + (1 # 2))%Q in
        let m := digitsOf n in
        let m' := zeros (5 - String.length m) +:+ m in
        let cut := (String.length m' - 4)%nat in
        (if Qle_bool 0 q then "" else "-")
        +:+ String.substring 0 cut m' +:+ "." +:+ dropPrefix cut m'
  | _ => numberToString x
  end.

(** [x.toFixed(f)]: the nearest multiple of [10^-f], the larger one on a
    tie, printed with [f] fractional digits. *)
Definition toFixed (f : nat) (x : number) : string :=
  match x with
  | Fin q =>
      if Qle_bool (inject_Z (10 ^ 21)) (Qabs q) then numberToString x
      else
        let n := Qfloor (Qabs q * inject_Z (10 ^ Z.of_nat f) + (1 # 2))%Q in
        let m := digitsOf n in
        let sign := if Qle_bool 0 q then "" else "-" in
        match f with
        | O => sign +:+ m
        | S _ =>
            let m' := zeros (S f - String.length m) +:+ m in
            let cut := (String.length m' - f)%nat in
            sign +:+ String.substring 0 cut m' +:+ "." +:+ dropPrefix cut m'
        end
  | _ => numberToString x
  end.

(* ===================================================================== *)
(** ** Values, exceptions, dates *)
(* ===================================================================== *)

(** Scalar JSON values as the upstream feed carries them in its records,
    and [undefined] for an absent property. *)
Inductive value : Type :=
| VUndefined
| VNull
| VBool (b : bool)
| VNumber (x : number)
| VString (s : string).

(** ToString. *)
Definition valueToString (v : value) : string :=
  match v with
  | VUndefined => "undefined"
  | VNull => "null"
  | VBool b => if b then "true" else "false"
  | VNumber x => numberToString x
  | VString s => s
  end.

(** ToNumber. *)
Definition toNumber (v : value) : number :=
  match v with
  | VUndefined => NaN
  | VNull => Fin 0
  | VBool b => if b then Fin 1 else Fin 0
  | VNumber x => x
  | VString s => stringToNumber s
  end.

(** ToBoolean. *)
Definition truthy (v : value) : bool :=
  match v with
  | VUndefined | VNull => false
  | VBool b => b
  | VNumber x => numberTruthy x
  | VString s => negb (isEmpty s)
  end.

(** [parseFloat(v)] reads the numeric prefix of [ToString(v)].  A number
    prints to a literal that reads back as the same number; [undefined],
    [null] and the booleans print to text without a numeric prefix. *)
Definition parseFloat (v : value) : number :=
  match v with
  | VNumber x => x
  | VString s => parseFloatString s
  | _ => NaN
  end.

(** [parseInt(v)] reads the integer prefix of [ToString(v)]. *)
Definition parseInt (v : value) : number :=
  parseIntString (valueToString v).

(** Exceptions and the results of code that may throw. *)
Inductive exn : Type :=
| TypeError
| RangeError
| Error (message : string).

Inductive result (A : Type) : Type :=
| Ok (a : A)
| Throw (e : exn).

Arguments Ok {A} a.
Arguments Throw {A} e.

Definition bind {A B : Type} (r : result A) (k : A -> result B) : result B :=
  match r with
  | Ok a => k a
  | Throw e => Throw e
  end.

Notation "x <- r ;; k" := (bind r (fun x => k))
  (at level 100, r at next level, right associativity).

(** A Date object is its time value; [None] is Invalid Date. *)
Definition Date : Type := option Z.

Definition maxTimeValue : Z := 8640000000000000.

Definition Qtruncate (q : Q) : Z := Z.quot (Qnum q) (Z.pos (Qden q)).

(** [new Date(x)] for a number [x]: TimeClip. *)
Definition newDate (x : number) : Date :=
  match x with
  | Fin q =>
      if Qle_bool (Qabs q) (inject_Z maxTimeValue) then Some (Qtruncate q)
      else None
  | _ => None
  end.

(** The text [toISOString] returns, kept as the instant it denotes. *)
Inductive isoString : Type := Iso (timeValue : Z).

(** [d.toISOString()] throws a RangeError on Invalid Date. *)
Definition toISOString (d : Date) : result isoString :=
  match d with
  | Some t => Ok (Iso t)
  | None => Throw RangeError
  end.

(** [new Date(text)] for a text produced by [toISOString]: parsing gives
    the time value back. *)
Definition newDateOfIso (s : isoString) : Date :=
  match s with Iso t => Some t end.

(** [a - b] on two Date objects: the difference of the time values. *)
Definition dateDiff (a b : Date) : number :=
  match a, b with
  | Some x, Some y => Fin (inject_Z (x - y))
  | _, _ => NaN
  end.

(** [x / d] for a finite divisor [d > 0], and [x <= bound] for a finite
    bound. *)
Definition divideBy (x : number) (d : Q) : number :=
  match x with
  | Fin q => Fin (q / d)
  | other => other
  end.

Definition numberLe (x : number) (bound : Q) : bool :=
  match x with
  | NaN => false
  | Infinity neg => neg
  | Fin q => Qle_bool q bound
  end.

(* ===================================================================== *)
(** ** Records of the feed and of the service *)
(* ===================================================================== *)

(** One record of the upstream array.  [outros] holds the properties that
    are only passed through; none of them is named like a modelled field
    nor [dataHora]. *)
Module Raw.
Record Bus : Type := mk {
  ordem : value;
  linha : value;
  latitude : value;
  longitude : value;
  datahora : value;
  velocidade : value;
  outros : list (string * value)
}.
End Raw.

(** The object [normalizeBusData] builds: the record without [datahora],
    with [latitude], [longitude], [dataHora] and [velocidade] replaced. *)
Record NormalizedBus : Type := mkNormalized {
  ordem : value;
  linha : value;
  outros : list (string * value);
  latitude : number;
  longitude : number;
  dataHora : isoString;
  velocidade : number
}.

(** What the service holds per vehicle: a normalized object, or the
    upstream record itself when normalization gave up. *)
Inductive Bus : Type :=
| Normalized (n : NormalizedBus)
| Original (r : Raw.Bus).

(** Property reads on a held vehicle. *)
Definition busLinha (b : Bus) : value :=
  match b with
  | Normalized n => linha n
  | Original r => Raw.linha r
  end.

Definition busLatitude (b : Bus) : value :=
  match b with
  | Normalized n => VNumber (latitude n)
  | Original r => Raw.latitude r
  end.

Definition busLongitude (b : Bus) : value :=
  match b with
  | Normalized n => VNumber (longitude n)
  | Original r => Raw.longitude r
  end.

Definition busVelocidade (b : Bus) : value :=
  match b with
  | Normalized n => VNumber (velocidade n)
  | Original r => Raw.velocidade r
  end.

(** [new Date(bus.dataHora)]; an upstream record has no [dataHora], and
    [new Date(undefined)] is Invalid Date. *)
Definition busDate (b : Bus) : Date :=
  match b with
  | Normalized n => newDateOfIso (dataHora n)
  | Original _ => None
  end.

(* ===================================================================== *)
(** ** normalizeBusData *)
(* ===================================================================== *)

(** [v?.replace(',', '.')]: [undefined] for [undefined] and [null], the
    replaced text for a string, a TypeError for a number or a boolean
    (they have no [replace]). *)
Definition replaceComma (v : value) : result value :=
  match v with
  | VUndefined | VNull => Ok VUndefined
  | VString s => Ok (VString (replaceFirstComma s))
  | VBool _ | VNumber _ => Throw TypeError
  end.

(** [parseFloat(v?.replace(',', '.')) || 0]. *)
Definition parseCoordinate (v : value) : result number :=
  s <- replaceComma v ;;
  Ok (orZero (parseFloat s)).

(** [bus] is an element of the upstream array, [None] for JSON [null],
    whose destructuring throws.  The final [match] is the [try]/[catch]:
    on any exception the element is handed back as it was. *)
Definition normalizeBusData (bus : option Raw.Bus) : option Bus :=
  let body :=
    r <- match bus with
         | Some r => Ok r
         | None => Throw TypeError
         end ;;
    lat <- parseCoordinate (Raw.latitude r) ;;
    lon <- parseCoordinate (Raw.longitude r) ;;
    iso <- toISOString (newDate (parseInt (Raw.datahora r))) ;;
    Ok (Some (Normalized {|
      ordem := Raw.ordem r;
      linha := Raw.linha r;
      outros := Raw.outros r;
      latitude := lat;
      longitude := lon;
      dataHora := iso;
      velocidade := orZero (parseFloat (Raw.velocidade r))
    |})) in
  match body with
  | Ok normalized => normalized
  | Throw _ => option_map Original bus
  end.

(* ===================================================================== *)
(** ** The expiry cache behind cacheService (the node-cache package) *)
(* ===================================================================== *)

Module NodeCache.

(** A stored value with the instant (ms) at which it expires. *)
Record entry (A : Type) : Type := mkEntry {
  payload : A;
  expires : Z
}.
Arguments mkEntry {A} payload expires.
Arguments payload {A} e.
Arguments expires {A} e.

(** [cacheConfig.maxKeys]. *)
Definition maxKeys : nat := 1000.

Section Store.
Context {A : Type}.

(** An entry is expired once its instant lies before the clock. *)
Definition live (now : Z) (e : entry A) : bool := now <=? expires e.

(** [get]: an expired entry is removed and reported as absent. *)
Definition get (now : Z) (key : string) (s : gmap string (entry A))
  : option A * gmap string (entry A) :=
  match s !! key with
  | Some e => if live now e then (Some (payload e), s) else (None, delete key s)
  | None => (None, s)
  end.

(** [set]: refused with an exception once [maxKeys] keys are held. *)
Definition set (now : Z) (key : string) (data : A) (ttl : Z)
    (s : gmap string (entry A)) : result (gmap string (entry A)) :=
  if (maxKeys <=? size s)%nat then Throw (Error "ECACHEFULL")
  else Ok (<[key := mkEntry data (now + ttl * 1000)]> s).

Definition del (key : string) (s : gmap string (entry A))
  : gmap string (entry A) := delete key s.

(** The periodic sweep ([checkperiod]) drops the expired entries. *)
Definition checkData (now : Z) (s : gmap string (entry A))
  : gmap string (entry A) := filter (fun kv => live now kv.2 = true) s.

(** What a [get] would answer, without the removal. *)
Definition peek (now : Z) (key : string) (s : gmap string (entry A))
  : option A := (get now key s).1.
End Store.

End NodeCache.

(* ===================================================================== *)
(** ** Distances *)
(* ===================================================================== *)

Local Open Scope R_scope.

(** A distance in kilometres as [calcularDistancia] returns it. *)
Inductive distance : Type :=
| DNaN
| DInfinity
| DKm (km : R).

(** Results of [Math.sin], [Math.cos], [Math.sqrt] and [Math.atan2] and
    their sums and products: a real number, or [None] for [NaN] (none of
    them is infinite on the arguments it receives here). *)
Definition real : Type := option R.

Definition lift2 (f : R -> R -> R) (x y : real) : real :=
  match x, y with
  | Some a, Some b => Some (f a b)
  | _, _ => None
  end.

Definition mathSin (x : number) : real :=
  match x with
  | Fin q => Some (sin (Q2R q))
  | _ => None
  end.

Definition mathCos (x : number) : real :=
  match x with
  | Fin q => Some (cos (Q2R q))
  | _ => None
  end.

(** [Math.sqrt]: [NaN] below zero. *)
Definition mathSqrt (x : real) : real :=
  match x with
  | Some a => if Rlt_dec a 0 then None else Some (sqrt a)
  | None => None
  end.

(** [Math.atan2(y, x)] on real arguments: the angle of the point
    [(x, y)], in [(-PI, PI]], and [0] at the origin. *)
Definition atan2 (y x : R) : R :=
  if Rlt_dec 0 x then atan (y / x)
  else if Rlt_dec x 0 then
    if Rle_dec 0 y then atan (y / x) + PI else atan (y / x) - PI
  else if Rlt_dec 0 y then PI / 2
  else if Rlt_dec y 0 then - (PI / 2)
  else 0.

Definition mathAtan2 : real -> real -> real := lift2 atan2.

(** Arithmetic of finite and non-finite numbers, as far as the distance
    uses it. *)
Definition numberSub (x y : number) : number :=
  match x, y with
  | NaN, _ | _, NaN => NaN
  | Infinity a, Infinity b => if Bool.eqb a b then NaN else Infinity a
  | Infinity a, Fin _ => Infinity a
  | Fin _, Infinity b => Infinity (negb b)
  | Fin p, Fin q => Fin (p - q)%Q
  end.

Definition numberAbs (x : number) : number :=
  match x with
  | NaN => NaN
  | Infinity _ => Infinity false
  | Fin q => Fin (Qabs q)
  end.

(** [x > bound] for a finite bound. *)
Definition numberGt (x : number) (bound : Q) : bool :=
  match x with
  | NaN => false
  | Infinity neg => negb neg
  | Fin q => negb (Qle_bool q bound)
  end.

(** [x * c] for a finite constant [c > 0]. *)
Definition numberScale (x : number) (c : Q) : number :=
  match x with
  | Fin q => Fin (q * c)%Q
  | other => other
  end.

(** The constant written out in the source for PI / 180. *)
Definition deg2rad : Q := 0.017453292519943295%Q.

(** The differences, the comparison with 0.1 and the formula are taken
    in exact arithmetic, where the code computes in binary64: at the very
    edge of the box, and of a radius, the two can decide differently. *)
Definition calcularDistancia (lat1 lon1 lat2 lon2 : number) : distance :=
  let maxLatDiff := 0.1%Q in
  let maxLonDiff := 0.1%Q in
  if numberGt (numberAbs (numberSub lat2 lat1)) maxLatDiff
     || numberGt (numberAbs (numberSub lon2 lon1)) maxLonDiff
  then DInfinity
  else
    let R := 6371 in
    let dLat := numberScale (numberSub lat2 lat1) deg2rad in
    let dLon := numberScale (numberSub lon2 lon1) deg2rad in
    let a :=
      lift2 Rplus
        (lift2 Rmult (mathSin (divideBy dLat 2)) (mathSin (divideBy dLat 2)))
        (lift2 Rmult
           (lift2 Rmult
              (lift2 Rmult (mathCos (numberScale lat1 deg2rad))
                           (mathCos (numberScale lat2 deg2rad)))
              (mathSin (divideBy dLon 2)))
           (mathSin (divideBy dLon 2))) in
    match lift2 Rmult (Some (R * 2))
            (mathAtan2 (mathSqrt a) (mathSqrt (lift2 Rminus (Some 1) a))) with
    | Some km => DKm km
    | None => DNaN
    end.

(** [distancia <= raioKm]. *)
Definition distanceLe (d : distance) (raioKm : number) : bool :=
  match d, raioKm with
  | DNaN, _ | _, NaN => false
  | _, Infinity neg => negb neg
  | DInfinity, Fin _ => false
  | DKm km, Fin q => if Rle_dec km (Q2R q) then true else false
  end.

Local Close Scope R_scope.

(* ===================================================================== *)
(** ** The service: state, clock and upstream feed *)
(* ===================================================================== *)

(** The JavaScript [Map] of the line index: keys in insertion order. *)
Definition LineIndex : Type := list (string * list Bus).

(** The three caches of cacheService and the fields of SppoService.
    [upstreamCalls] is a ghost counter of the requests sent to the feed. *)
Record State : Type := mkState {
  generalCache : gmap string (NodeCache.entry (list Bus));
  lineCache : gmap string (NodeCache.entry (list Bus));
  positionCache : gmap string (NodeCache.entry (list Bus));
  lastFetchTime : option Z;
  lineIndex : LineIndex;
  lastIndexUpdate : option Z;
  upstreamCalls : nat
}.

Definition initialState : State :=
  mkState ∅ ∅ ∅ None [] None 0.

(** What the request to the feed gives: a failure (no answer, timeout,
    error status), a body that is not an array, or an array of records
    ([None] is a [null] element). *)
Inductive Response : Type :=
| RequestFailed
| NotAnArray
| Payload (data : list (option Raw.Bus)).

(** The surroundings of one call: the clock on entry, the clock once the
    feed has answered, and the answer. *)
Record Env : Type := mkEnv {
  now : Z;
  agora : Z;
  response : Response
}.

(** Computations over the state that may throw; the state reached when an
    exception is thrown is kept. *)
Definition M (A : Type) : Type := State -> result A * State.

Definition ret {A : Type} (a : A) : M A := fun st => (Ok a, st).

Definition throw {A : Type} (e : exn) : M A := fun st => (Throw e, st).

Definition bindM {A B : Type} (m : M A) (k : A -> M B) : M B :=
  fun st =>
    match m st with
    | (Ok a, st') => k a st'
    | (Throw e, st') => (Throw e, st')
    end.

Notation "x <~ m ;; k" := (bindM m (fun x => k))
  (at level 100, m at next level, right associativity).
Notation "m ;;; k" := (bindM m (fun _ => k))
  (at level 100, right associativity).

Definition tryCatchM {A : Type} (body : M A) (handler : exn -> M A) : M A :=
  fun st =>
    match body st with
    | (Ok a, st') => (Ok a, st')
    | (Throw e, st') => handler e st'
    end.

Definition getState : M State := fun st => (Ok st, st).

Definition liftResult {A : Type} (r : result A) : M A := fun st => (r, st).

(* --------------------------------------------------------------------- *)
(** *** cacheService *)

Definition stdTTL : Z := 300.

Definition getGeneral (clock : Z) (key : string) : M (option (list Bus)) :=
  fun st =>
    let (data, c) := NodeCache.get clock key (generalCache st) in
    (Ok data,
     mkState c (lineCache st) (positionCache st) (lastFetchTime st)
             (lineIndex st) (lastIndexUpdate st) (upstreamCalls st)).

(** [setGeneral(key, data, ttl)]: a zero [ttl] falls back to the default
    of the cache. *)
Definition setGeneral (clock : Z) (key : string) (data : list Bus) (ttl : Z)
  : M unit :=
  fun st =>
    match NodeCache.set clock key data (if ttl =? 0 then stdTTL else ttl)
            (generalCache st) with
    | Ok c =>
        (Ok tt,
         mkState c (lineCache st) (positionCache st) (lastFetchTime st)
                 (lineIndex st) (lastIndexUpdate st) (upstreamCalls st))
    | Throw e => (Throw e, st)
    end.

Definition deleteGeneral (key : string) : M unit :=
  fun st =>
    (Ok tt,
     mkState (NodeCache.del key (generalCache st)) (lineCache st)
             (positionCache st) (lastFetchTime st) (lineIndex st)
             (lastIndexUpdate st) (upstreamCalls st)).

Definition getLine (clock : Z) (key : string) : M (option (list Bus)) :=
  fun st =>
    let (data, c) := NodeCache.get clock key (lineCache st) in
    (Ok data,
     mkState (generalCache st) c (positionCache st) (lastFetchTime st)
             (lineIndex st) (lastIndexUpdate st) (upstreamCalls st)).

Definition setLine (clock : Z) (key : string) (data : list Bus) (ttl : Z)
  : M unit :=
  fun st =>
    match NodeCache.set clock key data (if ttl =? 0 then 180 else ttl)
            (lineCache st) with
    | Ok c =>
        (Ok tt,
         mkState (generalCache st) c (positionCache st) (lastFetchTime st)
                 (lineIndex st) (lastIndexUpdate st) (upstreamCalls st))
    | Throw e => (Throw e, st)
    end.

Definition getPosition (clock : Z) (key : string) : M (option (list Bus)) :=
  fun st =>
    let (data, c) := NodeCache.get clock key (positionCache st) in
    (Ok data,
     mkState (generalCache st) (lineCache st) c (lastFetchTime st)
             (lineIndex st) (lastIndexUpdate st) (upstreamCalls st)).

Definition setPosition (clock : Z) (key : string) (data : list Bus) (ttl : Z)
  : M unit :=
  fun st =>
    match NodeCache.set clock key data (if ttl =? 0 then 120 else ttl)
            (positionCache st) with
    | Ok c =>
        (Ok tt,
         mkState (generalCache st) (lineCache st) c (lastFetchTime st)
                 (lineIndex st) (lastIndexUpdate st) (upstreamCalls st))
    | Throw e => (Throw e, st)
    end.

(** [clearAll]: flushes the three caches.  No route calls it. *)
Definition clearAll : M unit :=
  fun st =>
    (Ok tt,
     mkState ∅ ∅ ∅ (lastFetchTime st) (lineIndex st) (lastIndexUpdate st)
             (upstreamCalls st)).

(* --------------------------------------------------------------------- *)
(** *** SppoService *)

Definition cacheKey : string := "sppo_all_buses".
Definition staleKey : string := cacheKey +:+ "_stale".
Definition fetchInterval : Z := 300000.

(** [this.axiosInstance.get(this.apiUrl)]. *)
Definition axiosGet (env : Env) : M Response :=
  fun st =>
    let st' :=
      mkState (generalCache st) (lineCache st) (positionCache st)
              (lastFetchTime st) (lineIndex st) (lastIndexUpdate st)
              (S (upstreamCalls st)) in
    match response env with
    | RequestFailed => (Throw (Error "request failed"), st')
    | r => (Ok r, st')
    end.

(** The test on a vehicle "em rota": in motion, or heard of in the last
    five minutes. *)
Definition emRota (agora : Z) (bus : Bus) : bool :=
  let dataHoraBus := busDate bus in
  let diferencaMinutos := divideBy (dateDiff (Some agora) dataHoraBus) (1000 * 60) in
  let emMovimento := numberGtZero (parseFloat (busVelocidade bus)) in
  let dadosRecentes := numberLe diferencaMinutos 5 in
  emMovimento || dadosRecentes.

(** The loop of getAllBusData over the payload.  Reading [dataHora] of a
    [null] element throws. *)
Fixpoint collectActive (agora : Z) (data : list (option Raw.Bus))
    (activeBuses : list Bus) : result (list Bus) :=
  match data with
  | [] => Ok activeBuses
  | bus :: rest =>
      match normalizeBusData bus with
      | None => Throw TypeError
      | Some normalized =>
          collectActive agora rest
            (if emRota agora normalized then (activeBuses ++ [normalized])%list
             else activeBuses)
      end
  end.

(** The key of a vehicle in the line index. *)
Definition lineKey (bus : Bus) : string :=
  match busLinha bus with
  | VUndefined | VNull => "unknown"
  | v =>
      let linha := toLowerCase (trim (valueToString v)) in
      if isEmpty linha then "unknown" else linha
  end.

Definition indexHas (linha : string) (index : LineIndex) : bool :=
  existsb (fun kv => String.eqb kv.1 linha) index.

Fixpoint indexGet (linha : string) (index : LineIndex) : option (list Bus) :=
  match index with
  | [] => None
  | (k, buses) :: rest =>
      if String.eqb k linha then Some buses else indexGet linha rest
  end.

(** [index.set(linha, [])] for a key that is not in the map. *)
Definition indexSetEmpty (linha : string) (index : LineIndex) : LineIndex :=
  (index ++ [(linha, [])])%list.

(** [index.get(linha).push(bus)]. *)
Fixpoint indexPush (linha : string) (bus : Bus) (index : LineIndex)
  : LineIndex :=
  match index with
  | [] => []
  | (k, buses) :: rest =>
      if String.eqb k linha then (k, (buses ++ [bus])%list) :: rest
      else (k, buses) :: indexPush linha bus rest
  end.

(** One turn of the loop of updateLineIndex. *)
Definition indexAdd (index : LineIndex) (bus : Bus) : LineIndex :=
  let linha := lineKey bus in
  let index' :=
    if negb (indexHas linha index) then indexSetEmpty linha index else index in
  indexPush linha bus index'.

(** The index built from an empty map. *)
Definition buildIndex (buses : list Bus) : LineIndex :=
  fold_left indexAdd buses [].

Definition updateLineIndex (clock : Z) (buses : list Bus) : M unit :=
  fun st =>
    (Ok tt,
     mkState (generalCache st) (lineCache st) (positionCache st)
             (lastFetchTime st) (buildIndex buses) (Some clock)
             (upstreamCalls st)).

Definition setLastFetchTime (clock : Z) : M unit :=
  fun st =>
    (Ok tt,
     mkState (generalCache st) (lineCache st) (positionCache st)
             (Some clock) (lineIndex st) (lastIndexUpdate st)
             (upstreamCalls st)).

(** [this.lastFetchTime && (now - this.lastFetchTime) < this.fetchInterval]. *)
Definition withinFetchInterval (clock : Z) (st : State) : bool :=
  match lastFetchTime st with
  | Some t => negb (t =? 0) && (clock - t <? fetchInterval)
  | None => false
  end.

Definition getAllBusData (env : Env) : M (list Bus) :=
  tryCatchM
    (cachedData <~ getGeneral (now env) cacheKey ;;
     match cachedData with
     | Some data => ret data
     | None =>
         st <~ getState ;;
         staleData <~ (if withinFetchInterval (now env) st
                       then getGeneral (now env) staleKey
                       else ret None) ;;
         match staleData with
         | Some data => ret data
         | None =>
             r <~ axiosGet env ;;
             data <~ match r with
                     | Payload data => ret data
                     | _ => throw (Error "Dados inválidos recebidos da API")
                     end ;;
             activeBuses <~ liftResult (collectActive (agora env) data []) ;;
             setGeneral (agora env) cacheKey activeBuses 300 ;;;
             setGeneral (agora env) staleKey activeBuses 1800 ;;;
             setLastFetchTime (now env) ;;;
             updateLineIndex (agora env) activeBuses ;;;
             ret activeBuses
         end
     end)
    (fun _ =>
       staleData <~ getGeneral (agora env) staleKey ;;
       match staleData with
       | Some data => ret data
       | None => throw (Error "Falha ao obter dados de GPS dos ônibus")
       end).

Definition clearCaches : M unit :=
  deleteGeneral cacheKey ;;;
  deleteGeneral staleKey ;;;
  (fun st =>
     (Ok tt,
      mkState (generalCache st) (lineCache st) (positionCache st)
              (lastFetchTime st) [] (lastIndexUpdate st) (upstreamCalls st))).

(** The fallback of getBusByLine: the buckets of every key that contains
    the query or is contained in it, in the order of the index. *)
Definition matchPartial (linhaFormatada : string) (index : LineIndex)
    (filteredData : list Bus) : list Bus :=
  fold_left
    (fun acc kv =>
       if includes kv.1 linhaFormatada || includes linhaFormatada kv.1
       then (acc ++ kv.2)%list else acc)
    index filteredData.

(** The exact bucket, or else the fallback. *)
Definition lookupLine (linhaFormatada : string) (index : LineIndex)
  : list Bus :=
  if indexHas linhaFormatada index
  then default [] (indexGet linhaFormatada index)
  else matchPartial linhaFormatada index [].

Definition isNil {A : Type} (l : list A) : bool :=
  match l with [] => true | _ => false end.

Definition getBusByLine (env : Env) (linha : string) : M (list Bus) :=
  let cacheKey := "line_active_" +:+ linha in
  cachedData <~ getLine (now env) cacheKey ;;
  match cachedData with
  | Some data => ret data
  | None =>
      let linhaFormatada := toLowerCase (trim linha) in
      st <~ getState ;;
      found <~
        (if indexHas linhaFormatada (lineIndex st)
         then ret (default [] (indexGet linhaFormatada (lineIndex st)), now env)
         else
           let filteredData := matchPartial linhaFormatada (lineIndex st) [] in
           if isNil filteredData then
             getAllBusData env ;;;
             st' <~ getState ;;
             ret (lookupLine linhaFormatada (lineIndex st'), agora env)
           else ret (filteredData, now env)) ;;
      setLine found.2 cacheKey found.1 120 ;;;
      ret found.1
  end.

(** The test of getBusByPosition on one vehicle. *)
Definition dentroDoRaio (lat lon raioKm : number) (bus : Bus) : bool :=
  if negb (truthy (busLatitude bus)) || negb (truthy (busLongitude bus))
  then false
  else
    let distancia :=
      calcularDistancia lat lon (toNumber (busLatitude bus))
                        (toNumber (busLongitude bus)) in
    distanceLe distancia raioKm.

Definition noRaioEmRota (clock : Z) (lat lon raioKm : number) (bus : Bus)
  : bool :=
  if dentroDoRaio lat lon raioKm bus then emRota clock bus else false.

Definition positionKey (lat lon raioKm : number) : string :=
  "position_" +:+ toFixed4 lat +:+ "_" +:+ toFixed4 lon +:+ "_"
  +:+ numberToString raioKm.

Definition getBusByPosition (env : Env) (lat lon raioKm : number)
  : M (list Bus) :=
  let cacheKey := positionKey lat lon raioKm in
  cachedData <~ getPosition (now env) cacheKey ;;
  match cachedData with
  | Some data => ret data
  | None =>
      allData <~ getAllBusData env ;;
      let filteredData :=
        List.filter (noRaioEmRota (agora env) lat lon raioKm) allData in
      setPosition (agora env) cacheKey filteredData 120 ;;;
      ret filteredData
  end.

(* --------------------------------------------------------------------- *)
(** *** getStats *)

(** [x + y] on numbers. *)
Definition numberAdd (x y : number) : number :=
  match x, y with
  | NaN, _ | _, NaN => NaN
  | Infinity a, Infinity b => if Bool.eqb a b then Infinity a else NaN
  | Infinity a, Fin _ => Infinity a
  | Fin _, Infinity b => Infinity b
  | Fin p, Fin q => Fin (p + q)%Q
  end.

(** [a + b] on scalar values: the concatenation of the texts as soon as
    one side is a string, the sum of the numbers otherwise. *)
Definition valueAdd (a b : value) : value :=
  match a, b with
  | VString s, _ => VString (s +:+ valueToString b)
  | _, VString t => VString (valueToString a +:+ t)
  | _, _ => VNumber (numberAdd (toNumber a) (toNumber b))
  end.

(** [v || 0]. *)
Definition valueOrZero (v : value) : value :=
  if truthy v then v else VNumber (Fin 0).

(** [d.getTime()]: [NaN] on Invalid Date. *)
Definition getTime (d : Date) : number :=
  match d with
  | Some t => Fin (inject_Z t)
  | None => NaN
  end.

(** [Math.max] of two numbers, and of a list: [NaN] as soon as one
    argument is, and [-Infinity] for no argument. *)
Definition numberMax (x y : number) : number :=
  match x, y with
  | NaN, _ | _, NaN => NaN
  | Infinity false, _ | _, Infinity false => Infinity false
  | Infinity true, z | z, Infinity true => z
  | Fin p, Fin q => Fin (if Qle_bool p q then q else p)
  end.

Definition mathMax (xs : list number) : number :=
  fold_left numberMax xs (Infinity true).

(** What a property of [stats.byLine] holds: a count, or a text once a
    property inherited from [Object.prototype] has been read as a count
    (a function or an object, to which [+ 1] appends the text [1]). *)
Inductive tally : Type :=
| Count (n : nat)
| Text.

(** The properties every object inherits from [Object.prototype]. *)
Definition objectPrototypeNames : list string :=
  ["constructor"; "hasOwnProperty"; "isPrototypeOf"; "propertyIsEnumerable";
   "toLocaleString"; "toString"; "valueOf"; "__defineGetter__";
   "__defineSetter__"; "__lookupGetter__"; "__lookupSetter__"; "__proto__"].

Definition inherited (name : string) : bool :=
  existsb (String.eqb name) objectPrototypeNames.

(** [bus.linha || 'Desconhecida'], as the property key it is used for. *)
Definition statsLine (bus : Bus) : string :=
  let linha := busLinha bus in
  valueToString (if truthy linha then linha else VString "Desconhecida").

(** [stats.byLine[linha] = (stats.byLine[linha] || 0) + 1] on the own
    properties of [stats.byLine].  An assignment of a text to [__proto__]
    is ignored. *)
Definition countLine (byLine : gmap string tally) (bus : Bus)
  : gmap string tally :=
  let linha := statsLine bus in
  match byLine !! linha with
  | Some (Count n) => <[linha := Count (S n)]> byLine
  | Some Text => byLine
  | None =>
      if inherited linha then
        if String.eqb linha "__proto__" then byLine
        else <[linha := Text]> byLine
      else <[linha := Count 1]> byLine
  end.

(** [data.reduce((sum, bus) => sum + (bus.velocidade || 0), 0)]. *)
Definition totalSpeed (data : list Bus) : value :=
  fold_left (fun sum bus => valueAdd sum (valueOrZero (busVelocidade bus)))
            data (VNumber (Fin 0)).

(** The object getStats returns; [lastUpdate] is [None] for [null]. *)
Module Stats.
Record t : Type := mk {
  total : nat;
  byLine : gmap string tally;
  avgSpeed : number;
  lastUpdate : option isoString
}.
End Stats.

(** The [catch] of getStats throws again what it caught.  The spread of
    [Math.max(...timestamps)] is taken to fit the argument limit of the
    engine.  The sum and the quotient behind [avgSpeed] are exact here,
    where the code rounds each step to binary64: the two may differ in
    the digit [toFixed] rounds, and nothing is proved below of the value
    of [avgSpeed] on a list that is not empty. *)
Definition getStats (env : Env) : M Stats.t :=
  data <~ getAllBusData env ;;
  if isNil data then ret (Stats.mk (length data) ∅ (Fin 0) None)
  else
    let byLine := fold_left countLine data ∅ in
    let avgSpeed :=
      parseFloatString
        (toFixed 2 (divideBy (toNumber (totalSpeed data))
                             (inject_Z (Z.of_nat (length data))))) in
    let timestamps := map (fun bus => getTime (busDate bus)) data in
    lastUpdate <~ liftResult (toISOString (newDate (mathMax timestamps))) ;;
    ret (Stats.mk (length data) byLine avgSpeed (Some lastUpdate)).

(** The periodic sweeps of the three caches. *)
Definition sweep (clock : Z) (st : State) : State :=
  mkState (NodeCache.checkData clock (generalCache st))
          (NodeCache.checkData clock (lineCache st))
          (NodeCache.checkData clock (positionCache st))
          (lastFetchTime st) (lineIndex st) (lastIndexUpdate st)
          (upstreamCalls st).

(** What the routes can do to the service. *)
Inductive step : State -> State -> Prop :=
| step_all env st : step st (getAllBusData env st).2
| step_line env linha st : step st (getBusByLine env linha st).2
| step_position env lat lon raioKm st :
    step st (getBusByPosition env lat lon raioKm st).2
| step_clear st : step st (clearCaches st).2
| step_sweep clock st : step st (sweep clock st).

Inductive reachable : State -> Prop :=
| reachable_initial : reachable initialState
| reachable_step st st' : reachable st -> step st st' -> reachable st'.

(* --------------------------------------------------------------------- *)
(** *** The route of the query by line *)

(** [linhaSchema]: [Joi.string().min(1).max(20).required()] on the
    parameter of the route; the text is not trimmed. *)
Definition linhaSchema (linha : string) : bool :=
  ((1 <=? String.length linha) && (String.length linha <=? 20))%nat.

(* ===================================================================== *)
(** ** Reference notions the properties are stated against *)
(* ===================================================================== *)

(** *** Great-circle distance *)

Section GreatCircle.
Local Open Scope R_scope.

(** The haversine of the central angle between two points given in
    radians. *)
Definition haversine (phi1 lambda1 phi2 lambda2 : R) : R :=
  Rsqr (sin ((phi2 - phi1) / 2))
  + cos phi1 * cos phi2 * Rsqr (sin ((lambda2 - lambda1) / 2)).

Definition earthRadiusKm : R := 6371.

(** The angle the code takes for a coordinate: the degrees times the
    factor written in the source. *)
Definition radians (deg : Q) : R := Q2R deg * Q2R deg2rad.

(** The great-circle distance by the haversine formula,
    [2 R asin (sqrt h)]. *)
Definition haversineKm (lat1 lon1 lat2 lon2 : Q) : R :=
  2 * earthRadiusKm
  * asin (sqrt (haversine (radians lat1) (radians lon1)
                          (radians lat2) (radians lon2))).

End GreatCircle.

(** Neither [NaN] nor an infinity. *)
Definition finite (x : number) : Prop :=
  match x with Fin _ => True | _ => False end.

(** The distance of a held vehicle from a point, as getBusByPosition
    computes it. *)
Definition distanceTo (lat lon : number) (bus : Bus) : distance :=
  calcularDistancia lat lon (toNumber (busLatitude bus))
                    (toNumber (busLongitude bus)).

(** *** Decimal texts *)

(** The digits [ds] written out, and a comma-decimal coordinate
    [-ip,fp] as the feed writes it. *)
Definition digitString (ds : list Z) : string :=
  string_of_list_ascii (map digitChar ds).

Definition isDecimalDigit (d : Z) : Prop := 0 <= d <= 9.

Definition commaDecimal (neg : bool) (ip fp : list Z) : string :=
  (if neg then "-" else "") +:+ digitString ip +:+ "," +:+ digitString fp.

(** The number a dotted decimal [-ip.fp] denotes. *)
Definition dottedValue (neg : bool) (ip fp : list Z) : Q :=
  applySign neg (decimalValue ip fp 0).

(** The text does not go on with a digit. *)
Definition stopsDigits (s : string) : Prop :=
  match s with
  | String c _ => isDigit c = false /\ radixDigit 10 c = None
  | EmptyString => True
  end.

(** [x] is the finite number [q]. *)
Definition isNumber (x : number) (q : Q) : Prop :=
  exists p, x = Fin p /\ (p == q)%Q.

(** [lo <= x <= hi] for a finite [x]. *)
Definition inRange (lo hi : Q) (x : number) : Prop :=
  match x with
  | Fin q => (lo <= q /\ q <= hi)%Q
  | _ => False
  end.

(** *** Records and their normal form *)

(** A coordinate that is missing from the record. *)
Definition absent (v : value) : Prop := v = VUndefined \/ v = VNull.

(** A coordinate normalizeBusData can work on: a text, or nothing. *)
Definition textOrAbsent (v : value) : Prop :=
  absent v \/ exists s, v = VString s.

(** The number written in a source coordinate: the text read with its
    first comma as the decimal point; [NaN] when nothing can be read. *)
Definition sourceCoordinate (v : value) : number :=
  match v with
  | VString s => parseFloatString (replaceFirstComma s)
  | _ => NaN
  end.

(** The records normalizeBusData rewrites; it hands back any other. *)
Definition normalizable (r : Raw.Bus) : Prop :=
  textOrAbsent (Raw.latitude r) /\ textOrAbsent (Raw.longitude r)
  /\ newDate (parseInt (Raw.datahora r)) <> None.

(** The record as normalizeBusData returns it: never [null] for a
    record. *)
Definition normalizeRecord (r : Raw.Bus) : Bus :=
  default (Original r) (normalizeBusData (Some r)).

(** The speed and the instant the service reads off a held vehicle.  The
    instant is that of its [dataHora]: a record that normalizeBusData
    handed back as it was has none, whatever its [datahora] says. *)
Definition speedOf (bus : Bus) : number := parseFloat (busVelocidade bus).

Definition observedAt (bus : Bus) : option Z := busDate bus.

(** Active: in motion, or observed at most 300000 ms before [agora]. *)
Definition active (agora : Z) (bus : Bus) : bool :=
  numberGtZero (speedOf bus)
  || match observedAt bus with
     | Some t => agora - t <=? 300000
     | None => false
     end.




(** *** Snapshots and the feed *)

(** The general cache holds nothing but the two snapshots of the
    service. *)
Definition generalOwned (st : State) : Prop :=
  dom (generalCache st) ⊆ ({[cacheKey; staleKey]} : gset string).

(** The fresh and the stale snapshot a read at [clock] would find. *)
Definition freshAt (clock : Z) (st : State) : option (list Bus) :=
  NodeCache.peek clock cacheKey (generalCache st).

Definition staleAt (clock : Z) (st : State) : option (list Bus) :=
  NodeCache.peek clock staleKey (generalCache st).

(** What getAllBusData answers without asking the feed: the fresh
    snapshot, or the stale one inside the interval between fetches. *)
Definition cacheAnswer (env : Env) (st : State) : option (list Bus) :=
  match freshAt (now env) st with
  | Some data => Some data
  | None =>
      if withinFetchInterval (now env) st then staleAt (now env) st else None
  end.

(** What the feed gives when it is asked: the active vehicles of a
    payload that is an array without [null], and nothing otherwise. *)
Definition fetched (env : Env) : option (list Bus) :=
  match response env with
  | Payload data =>
      match collectActive (agora env) data [] with
      | Ok activeBuses => Some activeBuses
      | Throw _ => None
      end
  | _ => None
  end.

(** The exception getAllBusData ends with. *)
Definition failure : exn := Error "Falha ao obter dados de GPS dos ônibus".

(** The general cache once the cached answers have been looked for and
    none was found. *)
Definition generalAfterMiss (env : Env) (st : State)
  : gmap string (NodeCache.entry (list Bus)) :=
  let c1 := (NodeCache.get (now env) cacheKey (generalCache st)).2 in
  if withinFetchInterval (now env) st
  then (NodeCache.get (now env) staleKey c1).2
  else c1.

(** *** The line index *)

(** The vehicles of the index, bucket after bucket, and the vehicles of
    [buses] that belong under [key], in the order of [buses]. *)
Definition allBuses (index : LineIndex) : list Bus :=
  concat (map snd index).

Definition bucket (key : string) (buses : list Bus) : list Bus :=
  List.filter (fun bus => String.eqb (lineKey bus) key) buses.

(** The index is one that updateLineIndex built (or the empty one the
    service starts with). *)
Definition indexBuilt (st : State) : Prop :=
  exists buses, lineIndex st = buildIndex buses.

(** The state once getBusByLine has looked into the line cache. *)
Definition afterLineRead (env : Env) (linha : string) (st : State) : State :=
  (getLine (now env) ("line_active_" +:+ linha) st).2.

(** *** Queries by line *)

(** The key of a query in the line cache. *)
Definition lineCacheKey (linha : string) : string := "line_active_" +:+ linha.

(** The test of the fallback of getBusByLine on one key of the index. *)
Definition partialMatch (linhaFormatada linhaKey : string) : bool :=
  includes linhaKey linhaFormatada || includes linhaFormatada linhaKey.

(** The index answers the query: it has the key, or the fallback finds
    a vehicle. *)
Definition indexAnswers (linhaFormatada : string) (index : LineIndex) : Prop :=
  indexHas linhaFormatada index = true
  \/ matchPartial linhaFormatada index [] <> [].

(** The state with another line cache, and with another position cache. *)
Definition withLineCache (c : gmap string (NodeCache.entry (list Bus)))
    (st : State) : State :=
  mkState (generalCache st) c (positionCache st) (lastFetchTime st)
          (lineIndex st) (lastIndexUpdate st) (upstreamCalls st).

Definition withPositionCache (c : gmap string (NodeCache.entry (list Bus)))
    (st : State) : State :=
  mkState (generalCache st) (lineCache st) c (lastFetchTime st)
          (lineIndex st) (lastIndexUpdate st) (upstreamCalls st).

(** *** The invariant of the service *)

(** What holds of every state the service reaches. *)
Definition invariant (st : State) : Prop :=
  generalOwned st /\ indexBuilt st.

(** A computation that keeps the invariant, whether it returns or
    throws. *)
Definition preserves {A : Type} (m : M A) : Prop :=
  forall st, invariant st -> invariant (m st).2.

(** *** Statistics *)

(** The number of vehicles of [data] counted under the key [linha]. *)
Definition lineCount (linha : string) (data : list Bus) : nat :=
  length (List.filter (fun bus => String.eqb (statsLine bus) linha) data).

(** What the own properties of [stats.byLine] hold once the vehicles of
    [seen] have been counted. *)
Definition counted (byLine : gmap string tally) (seen : list Bus) : Prop :=
  (forall k, inherited k = false ->
     byLine !! k = if (lineCount k seen =? 0)%nat then None
                   else Some (Count (lineCount k seen)))
  /\ (forall k, inherited k = true ->
        byLine !! k = None \/ byLine !! k = Some Text).

(** A vehicle with a date, inside the range of time values. *)
Definition dated (bus : Bus) : Prop :=
  exists t, busDate bus = Some t /\ - maxTimeValue <= t <= maxTimeValue.


(** A computation that keeps a property of the state, whether it returns
    or throws. *)
Definition keeps {A : Type} (P : State -> Prop) (m : M A) : Prop :=
  forall st, P st -> P (m st).2.

(** The index answers the query, as a test. *)
Definition indexAnswersb (linhaFormatada : string) (index : LineIndex) : bool :=
  indexHas linhaFormatada index
  || negb (isNil (matchPartial linhaFormatada index [])).

(** What a query answers when its cache has room for the answer. *)
Definition lineAnswer (env : Env) (linha : string) (st : State)
  : result (list Bus) :=
  if indexAnswersb (toLowerCase (trim linha)) (lineIndex st)
  then Ok (lookupLine (toLowerCase (trim linha)) (lineIndex st))
  else
    match (getAllBusData env st).1 with
    | Ok _ =>
        Ok (lookupLine (toLowerCase (trim linha))
              (lineIndex (getAllBusData env st).2))
    | Throw e => Throw e
    end.

Definition positionAnswer (env : Env) (lat lon raioKm : number) (st : State)
  : result (list Bus) :=
  match (getAllBusData env st).1 with
  | Ok allData =>
      Ok (List.filter (noRaioEmRota (agora env) lat lon raioKm) allData)
  | Throw e => Throw e
  end.

(** The answer once the store has been tried in a cache of [n] keys. *)
Definition stored {A : Type} (n : nat) (answer : result A) : result A :=
  match answer with
  | Ok a => if (NodeCache.maxKeys <=? n)%nat then Throw (Error "ECACHEFULL")
            else Ok a
  | Throw e => Throw e
  end.



(** *** Sample data *)

Definition sampleRecord (lat lon datahora velocidade : string) : Raw.Bus :=
  Raw.mk (VString "A29045") (VString "371") (VString lat) (VString lon)
         (VString datahora) (VString velocidade) [].

Definition sampleBus : Raw.Bus :=
  sampleRecord "-22,9068" "-43,1729" "1700000000000" "0".


Definition sampleNumericLatitude : Raw.Bus :=
  Raw.mk (VString "A29045") (VString "371") (VNumber (Fin (-22.9068)))
         (VString "-43,1729") (VString "1700000000000") (VString "12") [].

Definition sampleFarNorth : Raw.Bus :=
  sampleRecord "95,5" "-43,1729" "1700000000000" "0".

(** A fetch at 1700000300000 ms whose payload holds a vehicle stopped for
    300001 ms, one stopped for four minutes and one that moves but was
    last heard of an hour before. *)
Definition stoppedLong : Raw.Bus :=
  sampleRecord "-22,9068" "-43,1729" "1699999999999" "0".

Definition stoppedFourMinutes : Raw.Bus :=
  sampleRecord "-22,9068" "-43,1729" "1700000060000" "0".

Definition movingHourAgo : Raw.Bus :=
  sampleRecord "-22,9068" "-43,1729" "1699996700000" "5".

Definition sampleRecords : list Raw.Bus :=
  [stoppedLong; stoppedFourMinutes; movingHourAgo].

Definition sampleEnv : Env :=
  mkEnv 1700000299000 1700000300000 (Payload (map Some sampleRecords)).

(** The state once the sample payload has been fetched, and once line 371
    has been asked for. *)
Definition stateAfterFetch : State :=
  (getAllBusData sampleEnv initialState).2.

Definition stateAfterLineQuery : State :=
  (getBusByLine sampleEnv "371" initialState).2.

(** A later call, when the feed does not answer. *)
Definition laterEnv : Env :=
  mkEnv 1700000310000 1700000311000 RequestFailed.

(** A later call, when the feed reports no vehicle. *)
Definition emptyFeedEnv : Env :=
  mkEnv 1700000310000 1700000311000 (Payload []).

(** Twenty minutes after the sample fetch, with the feed down. *)
Definition feedDownEnv : Env :=
  mkEnv 1700001500000 1700001500500 RequestFailed.


(** A fetch whose payload holds a moving vehicle that normalizeBusData
    hands back as it is. *)
Definition numericLatitudeEnv : Env :=
  mkEnv 1700000299000 1700000300000 (Payload [Some sampleNumericLatitude]).



(* ===================================================================== *)
(** * Properties *)
(* ===================================================================== *)

(** ** Worked examples *)

Example parseFloatString_examples :
  parseFloatString "-22.9068" = Fin (Qred (-22.9068))
  /\ parseFloatString "-22,9068" = Fin (-22)
  /\ parseFloatString "  .5e1xyz" = Fin 5
  /\ parseFloatString "12abc" = Fin 12
  /\ parseFloatString "1e" = Fin 1
  /\ parseFloatString "-Infinity" = Infinity true
  /\ parseFloatString "abc" = NaN
  /\ parseFloatString "." = NaN
  /\ parseFloatString "" = NaN.
Proof. vm_compute. repeat split. Qed.

Example parseIntString_examples :
  parseIntString "1700000000000" = Fin 1700000000000
  /\ parseIntString " -12.9" = Fin (-12)
  /\ parseIntString "0x1F" = Fin 31
  /\ parseIntString "0b11" = Fin 0
  /\ parseIntString "1e3" = Fin 1
  /\ parseIntString "abc" = NaN
  /\ parseIntString "0x" = NaN.
Proof. vm_compute. repeat split. Qed.

Example stringToNumber_examples :
  stringToNumber "" = Fin 0
  /\ stringToNumber " 12.5 " = Fin (Qred 12.5)
  /\ stringToNumber "-22,9068" = NaN
  /\ stringToNumber "0x1f" = Fin 31
  /\ stringToNumber "12px" = NaN
  /\ stringToNumber "-Infinity" = Infinity true.
Proof. vm_compute. repeat split. Qed.

Example numberToString_examples :
  map numberToString
    [Fin 0; Fin 5; Fin (-22.9068); Fin 0.000001; Fin 0.0000005; Fin 1e21;
     Fin 1.23e25; Fin 100; Fin (-0.001); NaN; Infinity true]
  = ["0"; "5"; "-22.9068"; "0.000001"; "5e-7"; "1e+21"; "1.23e+25"; "100";
     "-0.001"; "NaN"; "-Infinity"].
Proof. vm_compute. reflexivity. Qed.

(** A number printed and read again is the same number. *)
Example print_then_read_examples :
  parseFloatString (numberToString (Fin 12.5)) = Fin (Qred 12.5)
  /\ parseFloatString (numberToString (Fin (-22.9068))) = Fin (Qred (-22.9068))
  /\ parseFloatString (numberToString (Fin 5e-7)) = Fin (Qred 5e-7)
  /\ parseFloatString (numberToString (Fin 1.23e25)) = Fin (Qred 1.23e25)
  /\ parseFloatString (numberToString NaN) = NaN
  /\ parseFloatString (numberToString (Infinity true)) = Infinity true.
Proof. vm_compute. repeat split. Qed.

Example toFixed4_examples :
  map toFixed4 [Fin 0; Fin 5; Fin (-22.9068); Fin (-0.00001); Fin 1.00005;
                Fin (-43.17291); Fin 123.456789]
  = ["0.0000"; "5.0000"; "-22.9068"; "-0.0000"; "1.0001"; "-43.1729";
     "123.4568"].
Proof. vm_compute. reflexivity. Qed.

(** One degree apart is outside the box: the answer is +Infinity, not the
    157 km of the great circle. *)
Example calcularDistancia_one_degree :
  calcularDistancia (Fin 0) (Fin 0) (Fin 1) (Fin 1) = DInfinity
  /\ calcularDistancia (Fin 0) (Fin 0) (Infinity false) (Fin 0) = DInfinity
  /\ calcularDistancia NaN (Fin 0) (Fin 0) (Fin 0) = DNaN.
Proof. repeat split. Qed.

Example positionKey_example :
  positionKey (Fin (-22.9068)) (Fin (-43.1729)) (Fin 1)
  = "position_-22.9068_-43.1729_1".
Proof. vm_compute. reflexivity. Qed.

Example commaDecimal_example :
  commaDecimal true [2; 2] [9; 0; 6; 8] = "-22,9068"
  /\ Qeq (dottedValue true [2; 2] [9; 0; 6; 8]) (-22.9068)%Q
  /\ sourceCoordinate (VString "-22,9068") = Fin (Qred (-22.9068)).
Proof. vm_compute. repeat split. Qed.

Example trim_toLowerCase_examples :
  toLowerCase (trim "  SP485 ") = "sp485"
  /\ toLowerCase (trim " ") = ""
  /\ includes "sp485" "485" = true
  /\ includes "485" "sp485" = false
  /\ includes "371" "" = true.
Proof. vm_compute. repeat split. Qed.

Example normalizeBusData_sample :
  normalizeBusData (Some sampleBus)
  = Some (Normalized {|
      ordem := VString "A29045";
      linha := VString "371";
      outros := [];
      latitude := Fin (Qred (-22.9068));
      longitude := Fin (Qred (-43.1729));
      dataHora := Iso 1700000000000;
      velocidade := Fin 0
    |})
  /\ normalizeBusData None = None.
Proof. vm_compute. repeat split. Qed.

Example getBusByLine_sample :
  (getBusByLine sampleEnv "371" initialState).1
  = Ok [normalizeRecord stoppedFourMinutes; normalizeRecord movingHourAgo]
  /\ (getBusByLine sampleEnv "999" initialState).1 = Ok []
  /\ lineIndex stateAfterFetch
     = [("371", [normalizeRecord stoppedFourMinutes;
                 normalizeRecord movingHourAgo])]
  /\ upstreamCalls stateAfterFetch = 1%nat.
Proof. vm_compute. repeat split. Qed.

(** ** The distance *)

Section Haversine.
Local Open Scope R_scope.

Lemma sin_half_sqr (x : R) : Rsqr (sin (x / 2)) = (1 - cos x) / 2.
Proof.
  replace (cos x) with (cos (2 * (x / 2))) by (f_equal; field).
  rewrite cos_2a_sin. unfold Rsqr. field.
Qed.

Lemma haversine_range (phi1 lambda1 phi2 lambda2 : R) :
  0 <= haversine phi1 lambda1 phi2 lambda2 <= 1.
Proof.
  unfold haversine.
  rewrite (sin_half_sqr (phi2 - phi1)), cos_minus.
  pose proof (COS_bound (phi2 - phi1)) as Hm.
  pose proof (COS_bound (phi2 + phi1)) as Hp.
  rewrite cos_minus in Hm. rewrite cos_plus in Hp.
  pose proof (Rle_0_sqr (sin ((lambda2 - lambda1) / 2))) as V0.
  assert (V1 : Rsqr (sin ((lambda2 - lambda1) / 2)) <= 1).
  { rewrite sin_half_sqr. pose proof (COS_bound (lambda2 - lambda1)). lra. }
  set (V := Rsqr (sin ((lambda2 - lambda1) / 2))) in *.
  set (c1 := cos phi1) in *. set (c2 := cos phi2) in *.
  set (s1 := sin phi1) in *. set (s2 := sin phi2) in *.
  split; nra.
Qed.

Lemma atan2_sqrt_asin (a : R) :
  0 <= a <= 1 -> atan2 (sqrt a) (sqrt (1 - a)) = asin (sqrt a).
Proof.
  intros [H0 H1]. unfold atan2.
  destruct (Req_dec a 1) as [-> | Hne].
  - replace (1 - 1) with 0 by ring. rewrite sqrt_0, sqrt_1, asin_1.
    repeat destruct Rlt_dec; try lra. 
  - assert (Hpos : 0 < sqrt (1 - a)) by (apply sqrt_lt_R0; lra).
    destruct (Rlt_dec 0 (sqrt (1 - a))); [| lra].
    assert (Hlt : sqrt a < 1).
    { rewrite <- sqrt_1. apply sqrt_lt_1; lra. }
    pose proof (sqrt_pos a).
    rewrite asin_atan by lra.
    rewrite Rsqr_sqrt by lra. reflexivity.
Qed.

Lemma Q2R_half_angle (x y : Q) :
  Q2R (((y - x) * deg2rad) / 2) = (radians y - radians x) / 2.
Proof.
  unfold radians, Qdiv.
  rewrite Q2R_mult, Q2R_mult, Q2R_minus.
  rewrite Q2R_inv by discriminate.
  replace (Q2R 2) with 2 by (unfold Q2R; simpl; lra).
  lra.
Qed.

Lemma numberGt_Fin (q bound : Q) :
  numberGt (Fin q) bound = true <-> (bound < q)%Q.
Proof.
  simpl. rewrite negb_true_iff. split.
  - intros H. apply Qnot_le_lt. intros Hle.
    apply Qle_bool_iff in Hle. congruence.
  - intros H. destruct (Qle_bool q bound) eqn:E; [| reflexivity].
    apply Qle_bool_iff in E. exfalso. apply (Qlt_not_le _ _ H E).
Qed.

(** The test of the bounding box on finite coordinates. *)
Lemma box_test_finite (lat1 lon1 lat2 lon2 : Q) :
  numberGt (numberAbs (numberSub (Fin lat2) (Fin lat1))) 0.1
  || numberGt (numberAbs (numberSub (Fin lon2) (Fin lon1))) 0.1 = true
  <-> (0.1 < Qabs (lat2 - lat1) \/ 0.1 < Qabs (lon2 - lon1))%Q.
Proof.
  rewrite orb_true_iff. simpl numberSub. simpl numberAbs.
  rewrite !numberGt_Fin. reflexivity.
Qed.

(** Inside the box, on finite coordinates, the formula of the code,
    taken over the reals, is the haversine distance for the angles the
    code forms. *)
Lemma calcularDistancia_inside (lat1 lon1 lat2 lon2 : Q) :
  ~ (0.1 < Qabs (lat2 - lat1) \/ 0.1 < Qabs (lon2 - lon1))%Q ->
  calcularDistancia (Fin lat1) (Fin lon1) (Fin lat2) (Fin lon2)
  = DKm (haversineKm lat1 lon1 lat2 lon2).
Proof.
  intros Hin. unfold calcularDistancia.
  destruct (numberGt (numberAbs (numberSub (Fin lat2) (Fin lat1))) 0.1
            || numberGt (numberAbs (numberSub (Fin lon2) (Fin lon1))) 0.1)
    eqn:Hbox.
  { exfalso. apply Hin. apply box_test_finite. exact Hbox. }
  cbn [numberSub numberScale divideBy mathSin mathCos lift2].
  rewrite !Q2R_half_angle, !Q2R_mult.
  fold (radians lat1). fold (radians lat2).
  set (a := sin ((radians lat2 - radians lat1) / 2)
            * sin ((radians lat2 - radians lat1) / 2)
            + cos (radians lat1) * cos (radians lat2)
              * sin ((radians lon2 - radians lon1) / 2)
              * sin ((radians lon2 - radians lon1) / 2)).
  assert (Ha : a = haversine (radians lat1) (radians lon1)
                             (radians lat2) (radians lon2)).
  { unfold a, haversine, Rsqr. ring. }
  pose proof (haversine_range (radians lat1) (radians lon1)
                (radians lat2) (radians lon2)) as Hr.
  rewrite <- Ha in Hr.
  unfold mathSqrt.
  destruct (Rlt_dec a 0); [lra |].
  destruct (Rlt_dec (1 - a) 0); [lra |].
  cbn [mathAtan2 lift2].
  rewrite atan2_sqrt_asin by lra.
  unfold haversineKm, earthRadiusKm. rewrite <- Ha. f_equal. ring.
Qed.

(** Inside the box, a coordinate that is not finite gives [NaN]. *)
Lemma calcularDistancia_not_finite (lat1 lon1 lat2 lon2 : number) :
  ~ (finite lat1 /\ finite lon1 /\ finite lat2 /\ finite lon2) ->
  numberGt (numberAbs (numberSub lat2 lat1)) 0.1
  || numberGt (numberAbs (numberSub lon2 lon1)) 0.1 = false ->
  calcularDistancia lat1 lon1 lat2 lon2 = DNaN.
Proof.
  intros Hnf Hbox. unfold calcularDistancia. rewrite Hbox.
  apply orb_false_iff in Hbox as [Hlat Hlon].
  destruct lat1 as [| n1 | p1], lat2 as [| n2 | p2];
    try (destruct n1); try (destruct n2); try discriminate Hlat;
    try reflexivity;
    destruct lon1 as [| m1 | q1], lon2 as [| m2 | q2];
    try (destruct m1); try (destruct m2); try discriminate Hlon;
    try reflexivity;
    try (exfalso; apply Hnf; simpl; tauto);
    cbn [numberSub numberScale divideBy mathSin mathCos lift2 Bool.eqb];
    repeat match goal with
           | |- context [lift2 _ ?x None] => destruct x; cbn [lift2]
           end; reflexivity.
Qed.

Lemma haversine_sym (phi1 lambda1 phi2 lambda2 : R) :
  haversine phi1 lambda1 phi2 lambda2 = haversine phi2 lambda2 phi1 lambda1.
Proof.
  unfold haversine.
  replace ((phi1 - phi2) / 2) with (- ((phi2 - phi1) / 2)) by field.
  replace ((lambda1 - lambda2) / 2) with (- ((lambda2 - lambda1) / 2)) by field.
  rewrite !sin_neg, <- !Rsqr_neg. ring.
Qed.

Lemma box_test_sym (x y : number) (bound : Q) :
  numberGt (numberAbs (numberSub x y)) bound
  = numberGt (numberAbs (numberSub y x)) bound.
Proof.
  destruct x as [| a | p], y as [| b | q]; try reflexivity.
  - destruct a, b; reflexivity.
  - cbn [numberSub numberAbs numberGt]. rewrite (Qabs_Qminus p q). reflexivity.
Qed.

End Haversine.

(** C10. The distance is symmetric in its two points, on the +Infinity
    branch, on the haversine branch, and where it is NaN. *)
Theorem calcularDistancia_symmetric (lat1 lon1 lat2 lon2 : number) :
  calcularDistancia lat1 lon1 lat2 lon2
  = calcularDistancia lat2 lon2 lat1 lon1.
Proof.
  destruct (numberGt (numberAbs (numberSub lat2 lat1)) 0.1
            || numberGt (numberAbs (numberSub lon2 lon1)) 0.1) eqn:Hbox.
  - unfold calcularDistancia. rewrite Hbox.
    rewrite (box_test_sym lat1 lat2), (box_test_sym lon1 lon2), Hbox.
    reflexivity.
  - assert (Hbox' : numberGt (numberAbs (numberSub lat1 lat2)) 0.1
                    || numberGt (numberAbs (numberSub lon1 lon2)) 0.1 = false).
    { rewrite (box_test_sym lat1 lat2), (box_test_sym lon1 lon2). exact Hbox. }
    destruct lat1 as [| | p1], lon1 as [| | q1], lat2 as [| | p2],
             lon2 as [| | q2];
      try (transitivity DNaN;
           [| symmetry ];
           (apply calcularDistancia_not_finite; [simpl; tauto | assumption])).
    rewrite !calcularDistancia_inside.
    + unfold haversineKm. rewrite haversine_sym. reflexivity.
    + intros H. apply box_test_finite in H. congruence.
    + intros H. apply box_test_finite in H. congruence.
Qed.

(** ** Reading decimal texts *)

Ltac digit_cases d H :=
  let E := fresh "E" in
  assert (E : d = 0 \/ d = 1 \/ d = 2 \/ d = 3 \/ d = 4 \/ d = 5 \/ d = 6
              \/ d = 7 \/ d = 8 \/ d = 9) by (unfold isDecimalDigit in H; lia);
  repeat (destruct E as [E | E]; [subst d | ]); [.. | subst d].

Lemma digitChar_facts (d : Z) :
  isDecimalDigit d ->
  isDigit (digitChar d) = true /\ digitVal (digitChar d) = d
  /\ radixDigit 10 (digitChar d) = Some d
  /\ isWhiteSpace (digitChar d) = false
  /\ Ascii.eqb (digitChar d) "," = false
  /\ Ascii.eqb (digitChar d) "-" = false
  /\ Ascii.eqb (digitChar d) "+" = false
  /\ Ascii.eqb (digitChar d) "I" = false
  /\ Ascii.eqb (digitChar d) "x" = false
  /\ Ascii.eqb (digitChar d) "X" = false.
Proof.
  intros H. digit_cases d H; vm_compute; repeat split; reflexivity.
Qed.

Lemma digitString_cons (d : Z) (ds : list Z) :
  digitString (d :: ds) = String (digitChar d) (digitString ds).
Proof. reflexivity. Qed.

Lemma append_cons (c : ascii) (s r : string) :
  String c s +:+ r = String c (s +:+ r).
Proof. reflexivity. Qed.

Lemma spanRadix_cons (r : Z) (c : ascii) (s : string) :
  spanRadix r (String c s)
  = match radixDigit r c with
    | Some v => let (ds, rest) := spanRadix r s in (v :: ds, rest)
    | None => ([], String c s)
    end.
Proof. reflexivity. Qed.


Lemma spanRadix_digitString (ds : list Z) (rest : string) :
  Forall isDecimalDigit ds -> stopsDigits rest ->
  spanRadix 10 (digitString ds +:+ rest) = (ds, rest).
Proof.
  intros Hds Hrest. induction Hds as [| d ds Hd _ IH].
  - change (digitString [] +:+ rest) with rest.
    destruct rest as [| c r]; [reflexivity |].
    rewrite spanRadix_cons. destruct Hrest as [_ ->]. reflexivity.
  - rewrite digitString_cons, append_cons, spanRadix_cons.
    destruct (digitChar_facts d Hd) as (_ & _ & -> & _).
    rewrite IH. reflexivity.
Qed.

Lemma append_empty (s : string) : s +:+ "" = s.
Proof.
  induction s as [| c s IH]; [reflexivity |].
  rewrite append_cons, IH. reflexivity.
Qed.






Lemma orZero_isNumber (q : Q) : isNumber (orZero (Fin q)) q.
Proof.
  unfold orZero, numberTruthy.
  destruct (Qeq_bool q 0) eqn:E; simpl.
  - exists 0%Q. split; [reflexivity |].
    apply Qeq_bool_iff in E. symmetry. exact E.
  - exists q. split; reflexivity.
Qed.


Lemma decimalValue_nil : (decimalValue [] [] 0 == 0)%Q.
Proof. reflexivity. Qed.


Lemma scanPrefixedInteger_digitString (ds : list Z) :
  Forall isDecimalDigit ds -> scanPrefixedInteger (digitString ds) = None.
Proof.
  intros Hds. destruct Hds as [| d1 ds H1 Hds]; [reflexivity |].
  destruct Hds as [| d2 ds H2 _]; [reflexivity |].
  rewrite !digitString_cons. unfold scanPrefixedInteger.
  destruct (Ascii.eqb (digitChar d1) "0"); [| reflexivity].
  digit_cases d2 H2; reflexivity.
Qed.

(** A text of decimal digits reads as the integer it writes. *)
Lemma parseInt_digitString (ds : list Z) :
  Forall isDecimalDigit ds -> ds <> [] ->
  parseInt (VString (digitString ds)) = Fin (inject_Z (digitsValue ds)).
Proof.
  intros Hds Hne. unfold parseInt, parseIntString. cbn [valueToString].
  assert (Htrim : trimStart (digitString ds) = digitString ds).
  { destruct Hds as [| d ds Hd _]; [reflexivity |].
    rewrite digitString_cons. cbn [trimStart].
    destruct (digitChar_facts d Hd) as (_ & _ & _ & -> & _). reflexivity. }
  assert (Hsign : readSign (digitString ds) = (false, digitString ds)).
  { destruct Hds as [| d ds Hd _]; [reflexivity |].
    rewrite digitString_cons. cbn [readSign].
    destruct (digitChar_facts d Hd) as (_ & _ & _ & _ & _ & -> & -> & _).
    reflexivity. }
  rewrite Htrim, Hsign, scanPrefixedInteger_digitString by assumption.
  rewrite <- (append_empty (digitString ds)).
  rewrite spanRadix_digitString by (try assumption; exact I).
  destruct ds; [contradiction | reflexivity].
Qed.

Lemma digitsValue_nonneg_from (ds : list Z) (acc : Z) :
  Forall isDecimalDigit ds -> 0 <= acc ->
  0 <= fold_left (fun a d => 10 * a + d) ds acc.
Proof.
  intros Hds. revert acc. induction Hds as [| d ds Hd _ IH]; intros acc Hacc.
  - exact Hacc.
  - simpl. apply IH. unfold isDecimalDigit in Hd. lia.
Qed.

Lemma newDate_integer (t : Z) :
  - maxTimeValue <= t <= maxTimeValue ->
  newDate (Fin (inject_Z t)) = Some t.
Proof.
  intros Ht. unfold newDate.
  assert (Hle : Qle_bool (Qabs (inject_Z t)) (inject_Z maxTimeValue) = true).
  { apply Qle_bool_iff. apply Qabs_Qle_condition.
    rewrite <- inject_Z_opp, <- !Zle_Qle. exact Ht. }
  rewrite Hle. unfold Qtruncate. simpl. now rewrite Z.quot_1_r.
Qed.

(** The timestamp: a text of digits within the range of dates becomes
    the ISO text of that instant. *)
Lemma toISOString_digitString (ds : list Z) :
  Forall isDecimalDigit ds -> ds <> [] -> digitsValue ds <= maxTimeValue ->
  toISOString (newDate (parseInt (VString (digitString ds))))
  = Ok (Iso (digitsValue ds)).
Proof.
  intros Hds Hne Hmax. rewrite parseInt_digitString by assumption.
  rewrite newDate_integer; [reflexivity |].
  pose proof (digitsValue_nonneg_from ds 0 Hds (Z.le_refl 0)) as H0.
  unfold digitsValue, maxTimeValue in *. lia.
Qed.

(** ** normalizeBusData *)

Lemma parseCoordinate_textOrAbsent (v : value) :
  textOrAbsent v -> parseCoordinate v = Ok (orZero (sourceCoordinate v)).
Proof.
  intros [[-> | ->] | [s ->]]; reflexivity.
Qed.

Lemma parseCoordinate_throws (v : value) :
  ~ textOrAbsent v -> parseCoordinate v = Throw TypeError.
Proof.
  intros H. destruct v; try reflexivity; exfalso; apply H.
  - left. left. reflexivity.
  - left. right. reflexivity.
  - right. eexists. reflexivity.
Qed.

Lemma textOrAbsent_dec (v : value) : {textOrAbsent v} + {~ textOrAbsent v}.
Proof.
  destruct v.
  - left. left. left. reflexivity.
  - left. left. right. reflexivity.
  - right. intros [[H | H] | [s H]]; discriminate.
  - right. intros [[H | H] | [s H]]; discriminate.
  - left. right. eexists. reflexivity.
Qed.

(** The object built from a record normalizeBusData can work on. *)
Lemma normalizeBusData_normalizable (r : Raw.Bus) (t : Z) :
  textOrAbsent (Raw.latitude r) -> textOrAbsent (Raw.longitude r) ->
  newDate (parseInt (Raw.datahora r)) = Some t ->
  normalizeBusData (Some r)
  = Some (Normalized {|
      ordem := Raw.ordem r;
      linha := Raw.linha r;
      outros := Raw.outros r;
      latitude := orZero (sourceCoordinate (Raw.latitude r));
      longitude := orZero (sourceCoordinate (Raw.longitude r));
      dataHora := Iso t;
      velocidade := orZero (parseFloat (Raw.velocidade r))
    |}).
Proof.
  intros Hlat Hlon Ht. unfold normalizeBusData. cbn [bind].
  rewrite (parseCoordinate_textOrAbsent _ Hlat). cbn [bind].
  rewrite (parseCoordinate_textOrAbsent _ Hlon). cbn [bind].
  rewrite Ht. reflexivity.
Qed.

(** Any other record comes back as it was. *)
Lemma normalizeBusData_original (r : Raw.Bus) :
  ~ normalizable r -> normalizeBusData (Some r) = Some (Original r).
Proof.
  intros Hn. unfold normalizeBusData. cbn [bind].
  destruct (textOrAbsent_dec (Raw.latitude r)) as [Hlat | Hlat].
  2:{ rewrite (parseCoordinate_throws _ Hlat). reflexivity. }
  rewrite (parseCoordinate_textOrAbsent _ Hlat). cbn [bind].
  destruct (textOrAbsent_dec (Raw.longitude r)) as [Hlon | Hlon].
  2:{ rewrite (parseCoordinate_throws _ Hlon). reflexivity. }
  rewrite (parseCoordinate_textOrAbsent _ Hlon). cbn [bind].
  destruct (newDate (parseInt (Raw.datahora r))) as [t |] eqn:Ht.
  - exfalso. apply Hn. repeat split; try assumption. congruence.
  - reflexivity.
Qed.


(** [x || 0] is never [NaN]; it is [0] for [NaN] and keeps the value of
    any other number. *)
Lemma orZero_cases (x : number) :
  orZero x <> NaN
  /\ (x = NaN -> orZero x = Fin 0)
  /\ (forall q, x = Fin q -> isNumber (orZero x) q)
  /\ (forall neg, x = Infinity neg -> orZero x = Infinity neg).
Proof.
  repeat split.
  - destruct x as [| neg | q]; unfold orZero; simpl; try discriminate.
    destruct (Qeq_bool q 0); discriminate.
  - intros ->. reflexivity.
  - intros q ->. apply orZero_isNumber.
  - intros neg ->. reflexivity.
Qed.

Lemma normalizeBusData_inv (r : Raw.Bus) (n : NormalizedBus) :
  normalizeBusData (Some r) = Some (Normalized n) ->
  exists t,
    newDate (parseInt (Raw.datahora r)) = Some t
    /\ n = {|
         ordem := Raw.ordem r;
         linha := Raw.linha r;
         outros := Raw.outros r;
         latitude := orZero (sourceCoordinate (Raw.latitude r));
         longitude := orZero (sourceCoordinate (Raw.longitude r));
         dataHora := Iso t;
         velocidade := orZero (parseFloat (Raw.velocidade r))
       |}.
Proof.
  intros H.
  destruct (textOrAbsent_dec (Raw.latitude r)) as [Hlat | Hlat];
    [destruct (textOrAbsent_dec (Raw.longitude r)) as [Hlon | Hlon];
     [destruct (newDate (parseInt (Raw.datahora r))) as [t |] eqn:Ht |] |].
  - rewrite (normalizeBusData_normalizable r t) in H by assumption.
    exists t. split; [reflexivity |]. congruence.
  - rewrite normalizeBusData_original in H; [discriminate |].
    intros (_ & _ & E). contradiction.
  - rewrite normalizeBusData_original in H; [discriminate |].
    intros (_ & E & _). contradiction.
  - rewrite normalizeBusData_original in H; [discriminate |].
    intros (E & _). contradiction.
Qed.

Lemma inRange_orZero (lo hi : Q) (x : number) :
  (lo <= 0 /\ 0 <= hi)%Q ->
  inRange lo hi (orZero x) <-> x = NaN \/ inRange lo hi x.
Proof.
  intros [Hlo Hhi]. destruct x as [| neg | q].
  - simpl. split; [left; reflexivity | intros _; split; assumption].
  - simpl. split; [tauto | intros [H | H]; [discriminate | exact H]].
  - unfold orZero, numberTruthy. destruct (Qeq_bool q 0) eqn:E; simpl.
    + apply Qeq_bool_iff in E. split.
      * intros _. right. rewrite E. split; assumption.
      * intros _. split; assumption.
    + split; [right; assumption | intros [H | H]; [discriminate | exact H]].
Qed.



(** C5, as the code has it.  The coordinates of a rewritten record are
    never NaN, and are 0 when nothing can be read from the source.  No
    range is enforced: a coordinate lies in its range exactly when
    nothing could be read (it is 0 then) or the number written in the
    source lies in the range. *)
Theorem normalized_coordinates (r : Raw.Bus) (n : NormalizedBus) :
  normalizeBusData (Some r) = Some (Normalized n) ->
  latitude n <> NaN /\ longitude n <> NaN
  /\ (sourceCoordinate (Raw.latitude r) = NaN -> latitude n = Fin 0)
  /\ (sourceCoordinate (Raw.longitude r) = NaN -> longitude n = Fin 0)
  /\ (inRange (-90) 90 (latitude n)
      <-> sourceCoordinate (Raw.latitude r) = NaN
          \/ inRange (-90) 90 (sourceCoordinate (Raw.latitude r)))
  /\ (inRange (-180) 180 (longitude n)
      <-> sourceCoordinate (Raw.longitude r) = NaN
          \/ inRange (-180) 180 (sourceCoordinate (Raw.longitude r))).
Proof.
  intros H. destruct (normalizeBusData_inv r n H) as (t & _ & ->).
  cbn [latitude longitude].
  repeat split; try apply orZero_cases; try (intros ->; reflexivity);
    try (apply inRange_orZero; split; discriminate).
Qed.

Lemma normalized_coordinates_sample :
  latitude (mkNormalized (VString "A29045") (VString "371") []
              (Fin (Qred (-22.9068))) (Fin (Qred (-43.1729)))
              (Iso 1700000000000) (Fin 0)) <> NaN
  /\ inRange (-90) 90 (Fin (Qred (-22.9068))).
Proof.
  pose proof (normalized_coordinates sampleBus
                (mkNormalized (VString "A29045") (VString "371") []
                   (Fin (Qred (-22.9068))) (Fin (Qred (-43.1729)))
                   (Iso 1700000000000) (Fin 0)) eq_refl)
    as (H1 & _ & _ & _ & H5 & _).
  split; [exact H1 |].
  apply H5. right. vm_compute. split; discriminate.
Defined.

(** C5 as stated fails: the latitude text "95,5" normalizes to 95.5,
    above 90. *)
Lemma normalized_latitude_above_90 :
  normalizeBusData (Some sampleFarNorth)
  = Some (Normalized {|
      ordem := VString "A29045";
      linha := VString "371";
      outros := [];
      latitude := Fin (Qred 95.5);
      longitude := Fin (Qred (-43.1729));
      dataHora := Iso 1700000000000;
      velocidade := Fin 0
    |})
  /\ (90 < Qred 95.5)%Q.
Proof. split; reflexivity. Qed.

(** ** The expiry cache *)

Section CacheFacts.
Context {A : Type}.
Implicit Types (s : gmap string (NodeCache.entry A)) (k : string).

Lemma get_peek (clock : Z) k s :
  (NodeCache.get clock k s).1 = NodeCache.peek clock k s.
Proof. reflexivity. Qed.

Lemma get_hit (clock : Z) k s (d : A) :
  NodeCache.peek clock k s = Some d -> NodeCache.get clock k s = (Some d, s).
Proof.
  unfold NodeCache.peek, NodeCache.get.
  destruct (s !! k) as [e |]; [| discriminate].
  destruct (NodeCache.live clock e); [| discriminate].
  simpl. congruence.
Qed.

Lemma get_miss (clock : Z) k s :
  NodeCache.peek clock k s = None ->
  NodeCache.get clock k s = (None, (NodeCache.get clock k s).2)
  /\ (forall k', k' <> k -> (NodeCache.get clock k s).2 !! k' = s !! k')
  /\ dom (NodeCache.get clock k s).2 ⊆ dom s
  /\ (forall t, clock <= t ->
        NodeCache.peek t k (NodeCache.get clock k s).2 = None
        /\ NodeCache.peek t k s = None).
Proof.
  unfold NodeCache.peek, NodeCache.get.
  destruct (s !! k) as [e |] eqn:E.
  - destruct (NodeCache.live clock e) eqn:L; [discriminate |].
    intros _. cbn [fst snd]. repeat split.
    + intros k' Hk'. apply lookup_delete_ne. congruence.
    + rewrite dom_delete. set_solver.
    + rewrite lookup_delete_eq. reflexivity.
    + rewrite ?E. unfold NodeCache.live in L |- *. apply Z.leb_gt in L.
      destruct (t <=? NodeCache.expires e) eqn:L'; [| reflexivity].
      apply Z.leb_le in L'. lia.
  - intros _. cbn [fst snd]. repeat split; rewrite ?E; reflexivity.
Qed.

Lemma peek_lookup (clock : Z) k s :
  NodeCache.peek clock k s
  = match s !! k with
    | Some e =>
        if NodeCache.live clock e then Some (NodeCache.payload e) else None
    | None => None
    end.
Proof.
  unfold NodeCache.peek, NodeCache.get.
  destruct (s !! k) as [e |]; [| reflexivity].
  destruct (NodeCache.live clock e); reflexivity.
Qed.

Lemma lookup_get_ne (clock : Z) k k' s :
  k' <> k -> (NodeCache.get clock k s).2 !! k' = s !! k'.
Proof.
  intros Hne. unfold NodeCache.get.
  destruct (s !! k) as [e |]; [| reflexivity].
  destruct (NodeCache.live clock e); [reflexivity |].
  apply lookup_delete_ne. congruence.
Qed.

Lemma peek_ne (clock t : Z) k k' s :
  k' <> k ->
  NodeCache.peek t k' (NodeCache.get clock k s).2 = NodeCache.peek t k' s.
Proof.
  intros Hne. rewrite !peek_lookup, lookup_get_ne by assumption.
  reflexivity.
Qed.

Lemma dom_get (clock : Z) k s : dom (NodeCache.get clock k s).2 ⊆ dom s.
Proof.
  unfold NodeCache.get. destruct (s !! k) as [e |]; [| reflexivity].
  destruct (NodeCache.live clock e); [reflexivity |].
  cbn [snd]. rewrite dom_delete. set_solver.
Qed.

Lemma set_ok (clock : Z) k (d : A) (ttl : Z) s :
  (size s < NodeCache.maxKeys)%nat ->
  NodeCache.set clock k d ttl s
  = Ok (<[k := NodeCache.mkEntry d (clock + ttl * 1000)]> s).
Proof.
  intros H. unfold NodeCache.set.
  destruct (NodeCache.maxKeys <=? size s)%nat eqn:E; [| reflexivity].
  apply Nat.leb_le in E. lia.
Qed.

Lemma peek_insert (clock t : Z) k (d : A) s :
  NodeCache.peek clock k (<[k := NodeCache.mkEntry d t]> s)
  = if clock <=? t then Some d else None.
Proof.
  rewrite peek_lookup, lookup_insert_eq.
  unfold NodeCache.live. cbn [NodeCache.expires NodeCache.payload].
  reflexivity.
Qed.

Lemma peek_insert_ne (clock t : Z) k k' (d : A) s :
  k' <> k ->
  NodeCache.peek clock k' (<[k := NodeCache.mkEntry d t]> s)
  = NodeCache.peek clock k' s.
Proof.
  intros Hne. rewrite !peek_lookup, lookup_insert_ne by congruence.
  reflexivity.
Qed.

Lemma peek_delete (clock : Z) k s :
  NodeCache.peek clock k (NodeCache.del k s) = None.
Proof.
  rewrite peek_lookup. unfold NodeCache.del.
  rewrite lookup_delete_eq. reflexivity.
Qed.

Lemma peek_delete_ne (clock : Z) k k' s :
  k' <> k ->
  NodeCache.peek clock k' (NodeCache.del k s) = NodeCache.peek clock k' s.
Proof.
  intros Hne. rewrite !peek_lookup. unfold NodeCache.del.
  rewrite lookup_delete_ne by congruence. reflexivity.
Qed.

End CacheFacts.

Lemma keys_differ : staleKey <> cacheKey.
Proof. discriminate. Qed.

Lemma owned_size (c : gmap string (NodeCache.entry (list Bus))) :
  dom c ⊆ ({[cacheKey; staleKey]} : gset string) ->
  (size c < NodeCache.maxKeys)%nat.
Proof.
  intros H. rewrite <- size_dom.
  apply subseteq_size in H.
  assert (size ({[cacheKey; staleKey]} : gset string) <= 2)%nat.
  { rewrite size_union_alt, !size_singleton.
    pose proof (size_difference_alt
                  ({[staleKey]} : gset string) {[cacheKey]}).
    pose proof (size_singleton (C := gset string) staleKey). lia. }
  unfold NodeCache.maxKeys. lia.
Qed.

(** ** getAllBusData, branch by branch *)

Lemma state_eta (st : State) :
  mkState (generalCache st) (lineCache st) (positionCache st)
          (lastFetchTime st) (lineIndex st) (lastIndexUpdate st)
          (upstreamCalls st) = st.
Proof. destruct st. reflexivity. Qed.

(** A fresh snapshot is returned as it is; nothing changes. *)
Lemma getAllBusData_fresh (env : Env) (st : State) (d : list Bus) :
  freshAt (now env) st = Some d -> getAllBusData env st = (Ok d, st).
Proof.
  intros H. unfold getAllBusData, tryCatchM, bindM, getGeneral.
  rewrite (get_hit _ _ _ _ H). cbn [ret]. rewrite state_eta. reflexivity.
Qed.


Lemma cacheAnswer_None (env : Env) (st : State) :
  cacheAnswer env st = None ->
  freshAt (now env) st = None
  /\ (withinFetchInterval (now env) st = false
      \/ staleAt (now env) st = None).
Proof.
  unfold cacheAnswer. destruct (freshAt (now env) st); [discriminate |].
  destruct (withinFetchInterval (now env) st); intros H; split;
    auto.
Qed.

Lemma generalAfterMiss_dom (env : Env) (st : State) :
  dom (generalAfterMiss env st) ⊆ dom (generalCache st).
Proof.
  unfold generalAfterMiss.
  destruct (withinFetchInterval (now env) st).
  - etransitivity; apply dom_get.
  - apply dom_get.
Qed.

Lemma generalAfterMiss_stale (env : Env) (st : State) :
  cacheAnswer env st = None -> now env <= agora env ->
  NodeCache.peek (agora env) staleKey (generalAfterMiss env st)
  = staleAt (agora env) st.
Proof.
  intros Hc Hle. destruct (cacheAnswer_None _ _ Hc) as (Hf & Hs).
  unfold generalAfterMiss, staleAt.
  destruct (withinFetchInterval (now env) st).
  - destruct Hs as [Hs | Hs]; [discriminate |].
    unfold staleAt in Hs.
    rewrite <- (peek_ne (now env) (now env) cacheKey) in Hs
      by apply keys_differ.
    destruct (get_miss _ _ _ Hs) as (_ & _ & _ & H).
    destruct (H (agora env) Hle) as (-> & H2).
    rewrite peek_ne in H2 by apply keys_differ. congruence.
  - apply peek_ne, keys_differ.
Qed.

(** Up to the request: nothing cached answers, the feed is asked. *)
Lemma getAllBusData_miss (env : Env) (st : State) :
  cacheAnswer env st = None ->
  getAllBusData env st
  = tryCatchM
      (r <~ axiosGet env ;;
       data <~ match r with
               | Payload data => ret data
               | _ => throw (Error "Dados inválidos recebidos da API")
               end ;;
       activeBuses <~ liftResult (collectActive (agora env) data []) ;;
       setGeneral (agora env) cacheKey activeBuses 300 ;;;
       setGeneral (agora env) staleKey activeBuses 1800 ;;;
       setLastFetchTime (now env) ;;;
       updateLineIndex (agora env) activeBuses ;;;
       ret activeBuses)
      (fun _ =>
         staleData <~ getGeneral (agora env) staleKey ;;
         match staleData with
         | Some data => ret data
         | None => throw failure
         end)
      (mkState (generalAfterMiss env st) (lineCache st) (positionCache st)
               (lastFetchTime st) (lineIndex st) (lastIndexUpdate st)
               (upstreamCalls st)).
Proof.
  intros Hc. destruct (cacheAnswer_None _ _ Hc) as (Hf & Hs).
  unfold getAllBusData, generalAfterMiss.
  unfold tryCatchM at 1 2. unfold bindM at 1 2 3. unfold getGeneral at 1.
  destruct (get_miss _ _ _ Hf) as (-> & _).
  cbn [getState]. unfold bindM at 1.
  replace (withinFetchInterval (now env)
             (mkState (NodeCache.get (now env) cacheKey (generalCache st)).2
                (lineCache st) (positionCache st) (lastFetchTime st)
                (lineIndex st) (lastIndexUpdate st) (upstreamCalls st)))
    with (withinFetchInterval (now env) st) by reflexivity.
  destruct (withinFetchInterval (now env) st) eqn:Hw.
  - destruct Hs as [Hs | Hs]; [discriminate |].
    unfold staleAt in Hs.
    rewrite <- (peek_ne (now env) (now env) cacheKey) in Hs
      by apply keys_differ.
    unfold getGeneral at 1. cbn [generalCache].
    destruct (get_miss _ _ _ Hs) as (-> & _).
    reflexivity.
  - reflexivity.
Qed.

(** The feed answered with an array without [null]: its active vehicles
    are returned, both snapshots are stored, and the index is rebuilt. *)
Lemma getAllBusData_fetched (env : Env) (st : State) (active : list Bus) :
  generalOwned st ->
  cacheAnswer env st = None ->
  fetched env = Some active ->
  getAllBusData env st
  = (Ok active,
     mkState
       (<[staleKey := NodeCache.mkEntry active (agora env + 1800 * 1000)]>
          (<[cacheKey := NodeCache.mkEntry active (agora env + 300 * 1000)]>
             (generalAfterMiss env st)))
       (lineCache st) (positionCache st) (Some (now env))
       (buildIndex active) (Some (agora env)) (S (upstreamCalls st))).
Proof.
  intros Hown Hc Hf. rewrite getAllBusData_miss by assumption.
  unfold fetched in Hf.
  destruct (response env) as [| | data] eqn:Hr; try discriminate.
  destruct (collectActive (agora env) data []) as [a | e] eqn:Hcol;
    [| discriminate].
  injection Hf as ->.
  pose proof (generalAfterMiss_dom env st) as Hdom.
  assert (Hsize1 : (size (generalAfterMiss env st) < NodeCache.maxKeys)%nat).
  { apply owned_size. unfold generalOwned in Hown. set_solver. }
  assert (Hsize2 :
    (size (<[cacheKey := NodeCache.mkEntry active (agora env + 300 * 1000)]>
             (generalAfterMiss env st)) < NodeCache.maxKeys)%nat).
  { apply owned_size. rewrite dom_insert.
    unfold generalOwned in Hown. set_solver. }
  unfold tryCatchM, bindM, axiosGet. rewrite Hr.
  cbn [ret liftResult]. rewrite Hcol.
  unfold setGeneral at 1. cbn [generalCache Z.eqb].
  rewrite set_ok by assumption.
  unfold setGeneral at 1. cbn [generalCache Z.eqb].
  rewrite set_ok by assumption.
  reflexivity.
Qed.

(** The feed gave nothing usable: the stale snapshot is the answer, and
    without one the call fails. *)
Lemma getAllBusData_not_fetched (env : Env) (st : State) :
  cacheAnswer env st = None ->
  fetched env = None ->
  now env <= agora env ->
  (getAllBusData env st).1
  = match staleAt (agora env) st with
    | Some data => Ok data
    | None => Throw failure
    end
  /\ upstreamCalls (getAllBusData env st).2 = S (upstreamCalls st)
  /\ lineIndex (getAllBusData env st).2 = lineIndex st.
Proof.
  intros Hc Hf Hle. rewrite getAllBusData_miss by assumption.
  pose proof (generalAfterMiss_stale env st Hc Hle) as Hstale.
  unfold fetched in Hf. unfold tryCatchM, bindM, axiosGet.
  destruct (response env) as [| | data] eqn:Hr.
  - unfold getGeneral. cbn [generalCache].
    rewrite <- Hstale. rewrite <- get_peek.
    destruct (NodeCache.get (agora env) staleKey (generalAfterMiss env st))
      as [[d |] c]; repeat split.
  - cbn [throw]. unfold getGeneral. cbn [generalCache].
    rewrite <- Hstale. rewrite <- get_peek.
    destruct (NodeCache.get (agora env) staleKey (generalAfterMiss env st))
      as [[d |] c]; repeat split.
  - cbn [ret liftResult].
    destruct (collectActive (agora env) data []) as [a | e] eqn:Hcol;
      [discriminate |].
    unfold getGeneral. cbn [generalCache].
    rewrite <- Hstale. rewrite <- get_peek.
    destruct (NodeCache.get (agora env) staleKey (generalAfterMiss env st))
      as [[d |] c]; repeat split.
Qed.

(** ** The active vehicles *)












Lemma initialState_owned : generalOwned initialState.
Proof. unfold generalOwned, initialState. cbn [generalCache]. set_solver. Qed.



(** ** Failures of the feed *)






(** ** clearCaches *)

Lemma clearCaches_state (st : State) :
  clearCaches st
  = (Ok tt,
     mkState (NodeCache.del staleKey (NodeCache.del cacheKey (generalCache st)))
             (lineCache st) (positionCache st) (lastFetchTime st) []
             (lastIndexUpdate st) (upstreamCalls st)).
Proof. reflexivity. Qed.

Lemma clearCaches_owned (st : State) :
  generalOwned st -> generalCache (clearCaches st).2 = ∅.
Proof.
  intros Hown. rewrite clearCaches_state. cbn [snd generalCache].
  unfold NodeCache.del. apply map_eq. intros k. rewrite lookup_empty.
  destruct (decide (k = staleKey)) as [-> | Hs].
  { apply lookup_delete_eq. }
  rewrite lookup_delete_ne by congruence.
  destruct (decide (k = cacheKey)) as [-> | Hc].
  { apply lookup_delete_eq. }
  rewrite lookup_delete_ne by congruence.
  apply not_elem_of_dom. unfold generalOwned in Hown. set_solver.
Qed.

Lemma clearCaches_no_snapshot (st : State) (t : Z) :
  freshAt t (clearCaches st).2 = None /\ staleAt t (clearCaches st).2 = None.
Proof.
  rewrite clearCaches_state. unfold freshAt, staleAt. cbn [snd generalCache].
  split.
  - rewrite peek_delete_ne by (intros E; discriminate E). apply peek_delete.
  - apply peek_delete.
Qed.

(** What clearCaches does.  It removes the fresh and the stale snapshot,
    which is all the service keeps in the general cache, and empties the
    line index; the line cache and the position cache keep their
    entries.  The next getAllBusData then asks the feed: it returns the
    active vehicles of the answer and rebuilds the line index from them,
    or fails when the feed gives nothing usable, there being no snapshot
    to fall back on. *)
Lemma clearCaches_then_fetch (st : State) :
  (clearCaches st).1 = Ok tt
  /\ (forall t, freshAt t (clearCaches st).2 = None
                /\ staleAt t (clearCaches st).2 = None)
  /\ (generalOwned st -> generalCache (clearCaches st).2 = ∅)
  /\ lineIndex (clearCaches st).2 = []
  /\ lineCache (clearCaches st).2 = lineCache st
  /\ positionCache (clearCaches st).2 = positionCache st
  /\ (forall env, generalOwned st -> now env <= agora env ->
        upstreamCalls (getAllBusData env (clearCaches st).2).2
        = S (upstreamCalls st)
        /\ (forall active, fetched env = Some active ->
              (getAllBusData env (clearCaches st).2).1 = Ok active
              /\ lineIndex (getAllBusData env (clearCaches st).2).2
                 = buildIndex active)
        /\ (fetched env = None ->
              (getAllBusData env (clearCaches st).2).1 = Throw failure)).
Proof.
  split; [reflexivity |]. split; [apply clearCaches_no_snapshot |].
  split; [apply clearCaches_owned |].
  split; [reflexivity |]. split; [reflexivity |]. split; [reflexivity |].
  intros env Hown Hle.
  assert (Hc : cacheAnswer env (clearCaches st).2 = None).
  { unfold cacheAnswer.
    destruct (clearCaches_no_snapshot st (now env)) as (-> & ->).
    destruct (withinFetchInterval _ _); reflexivity. }
  assert (Hown' : generalOwned (clearCaches st).2).
  { unfold generalOwned. rewrite clearCaches_owned by assumption.
    set_solver. }
  destruct (fetched env) as [active |] eqn:Hf.
  - rewrite (getAllBusData_fetched env _ active) by assumption.
    cbn [fst snd upstreamCalls lineIndex].
    split; [reflexivity |]. split; [| discriminate].
    intros a E. injection E as <-. split; reflexivity.
  - destruct (getAllBusData_not_fetched env _ Hc Hf Hle) as (Hr & Hu & _).
    rewrite Hu, Hr.
    destruct (clearCaches_no_snapshot st (agora env)) as (_ & ->).
    split; [reflexivity |]. split; [discriminate | reflexivity].
Qed.

(** C6.  The clear operation is to remove every entry of the three
    caches.  It does not: once line 371 has been asked for, the line cache
    holds an entry for it, and clearCaches, which deletes the two
    snapshots of the general cache and empties the index, leaves that
    entry where it is.  A query for the line made after the clear is
    answered from it, without a request to the feed, although the feed
    would now report no vehicle at all. *)
Theorem clearCaches_keeps_line_cache :
  NodeCache.peek 1700000300000 "line_active_371"
    (lineCache stateAfterLineQuery)
  = Some [normalizeRecord stoppedFourMinutes; normalizeRecord movingHourAgo]
  /\ NodeCache.peek 1700000300000 "line_active_371"
       (lineCache (clearCaches stateAfterLineQuery).2)
     = Some [normalizeRecord stoppedFourMinutes; normalizeRecord movingHourAgo]
  /\ generalCache (clearCaches stateAfterLineQuery).2 = ∅
  /\ lineIndex (clearCaches stateAfterLineQuery).2 = []
  /\ (getBusByLine emptyFeedEnv "371" (clearCaches stateAfterLineQuery).2).1
     = Ok [normalizeRecord stoppedFourMinutes; normalizeRecord movingHourAgo]
  /\ upstreamCalls
       (getBusByLine emptyFeedEnv "371" (clearCaches stateAfterLineQuery).2).2
     = upstreamCalls stateAfterLineQuery.
Proof. vm_compute. repeat split. Qed.

(** ** The line index *)

Lemma indexHas_In (k : string) (index : LineIndex) :
  indexHas k index = true <-> In k (map fst index).
Proof.
  unfold indexHas. rewrite existsb_exists. split.
  - intros ([k' bs] & Hin & E). apply String.eqb_eq in E. simpl in E.
    subst k'. apply in_map_iff. exists (k, bs). auto.
  - intros Hin. apply in_map_iff in Hin as ([k' bs] & E & Hin).
    simpl in E. subst k'. exists (k, bs). split; [exact Hin |].
    apply String.eqb_refl.
Qed.

Lemma indexHas_false (k : string) (index : LineIndex) :
  indexHas k index = false <-> ~ In k (map fst index).
Proof.
  rewrite <- indexHas_In. destruct (indexHas k index); split; intros H;
    try discriminate; try reflexivity; try (intros E; discriminate E).
  exfalso. apply H. reflexivity.
Qed.

Lemma indexPush_keys (k : string) (b : Bus) (index : LineIndex) :
  map fst (indexPush k b index) = map fst index.
Proof.
  induction index as [| [k1 bs1] index IH]; [reflexivity |].
  cbn [indexPush]. destruct (String.eqb k1 k); cbn [map fst];
    [reflexivity | now rewrite IH].
Qed.

Lemma indexPush_absent (k : string) (b : Bus) (index : LineIndex) :
  ~ In k (map fst index) ->
  indexPush k b (index ++ [(k, [])])%list = (index ++ [(k, [b])])%list.
Proof.
  induction index as [| [k1 bs1] index IH]; intros Hnin.
  - cbn [app indexPush]. now rewrite String.eqb_refl.
  - cbn [app indexPush]. cbn [map fst] in Hnin.
    destruct (String.eqb k1 k) eqn:E.
    + apply String.eqb_eq in E. exfalso. apply Hnin. now left.
    + rewrite IH; [reflexivity |]. intros H. apply Hnin. now right.
Qed.

Lemma indexPush_In (k : string) (b : Bus) (index : LineIndex)
    (k' : string) (bs' : list Bus) :
  List.NoDup (map fst index) ->
  In (k', bs') (indexPush k b index)
  <-> (k' <> k /\ In (k', bs') index)
      \/ (k' = k /\ exists bs, In (k, bs) index /\ bs' = (bs ++ [b])%list).
Proof.
  induction index as [| [k1 bs1] index IH]; intros Hnd.
  - cbn [indexPush]. split; [intros [] |].
    intros [(_ & []) | (_ & bs & [] & _)].
  - cbn [map fst] in Hnd. apply List.NoDup_cons_iff in Hnd as (Hk1 & Hnd).
    cbn [indexPush]. destruct (String.eqb k1 k) eqn:E.
    + apply String.eqb_eq in E. subst k1. split.
      * intros [H | H].
        -- injection H as <- <-. right. split; [reflexivity |].
           exists bs1. split; [now left | reflexivity].
        -- left. split; [| now right].
           intros ->. apply Hk1. apply in_map_iff.
           exists (k, bs'). auto.
      * intros [(Hne & [H | H]) | (-> & bs & [H | H] & ->)].
        -- injection H as <- _. contradiction.
        -- now right.
        -- injection H as <-. now left.
        -- exfalso. apply Hk1. apply in_map_iff. exists (k, bs). auto.
    + apply String.eqb_neq in E. split.
      * intros [H | H].
        -- injection H as <- <-. left. split; [exact E | now left].
        -- apply IH in H; [| exact Hnd].
           destruct H as [(Hne & H) | (-> & bs & H & ->)].
           ++ left. split; [exact Hne | now right].
           ++ right. split; [reflexivity |]. exists bs.
              split; [now right | reflexivity].
      * intros [(Hne & [H | H]) | (-> & bs & [H | H] & ->)].
        -- now left.
        -- right. apply IH; [exact Hnd |]. left. auto.
        -- injection H as ->. contradiction.
        -- right. apply IH; [exact Hnd |]. right.
           split; [reflexivity |]. exists bs. auto.
Qed.

Lemma indexPush_allBuses (k : string) (b : Bus) (index : LineIndex) :
  In k (map fst index) ->
  Permutation (allBuses (indexPush k b index)) (b :: allBuses index).
Proof.
  unfold allBuses.
  induction index as [| [k1 bs1] index IH]; intros Hin; [destruct Hin |].
  cbn [indexPush]. destruct (String.eqb k1 k) eqn:E.
  - cbn [map snd concat]. rewrite <- app_assoc. cbn [app].
    apply Permutation_sym, Permutation_middle.
  - apply String.eqb_neq in E. cbn [map fst] in Hin.
    destruct Hin as [Hin | Hin]; [contradiction |].
    cbn [map snd concat]. rewrite (IH Hin).
    apply Permutation_sym, Permutation_middle.
Qed.

Lemma buildIndex_snoc (buses : list Bus) (b : Bus) :
  buildIndex (buses ++ [b])%list = indexAdd (buildIndex buses) b.
Proof. unfold buildIndex. now rewrite fold_left_app. Qed.

Lemma bucket_snoc (k : string) (buses : list Bus) (b : Bus) :
  bucket k (buses ++ [b])%list
  = (bucket k buses ++ if String.eqb (lineKey b) k then [b] else [])%list.
Proof. unfold bucket. rewrite List.filter_app. reflexivity. Qed.

(** What the index built from [buses] holds. *)
Lemma buildIndex_spec (buses : list Bus) :
  List.NoDup (map fst (buildIndex buses))
  /\ (forall k bs, In (k, bs) (buildIndex buses) ->
        bs = bucket k buses /\ bs <> [])
  /\ (forall k, In k (map fst (buildIndex buses))
                <-> exists b, In b buses /\ lineKey b = k).
Proof.
  induction buses as [| b buses (Hnd & Hbk & Hkeys)] using rev_ind.
  - repeat split.
    + constructor.
    + destruct H.
    + destruct H.
    + intros [].
    + intros (b & [] & _).
  - rewrite buildIndex_snoc. unfold indexAdd.
    destruct (indexHas (lineKey b) (buildIndex buses)) eqn:Hhas; cbn [negb].
    + apply indexHas_In in Hhas. repeat split.
      * now rewrite indexPush_keys.
      * apply indexPush_In in H; [| exact Hnd].
        rewrite bucket_snoc.
        destruct H as [(Hne & H) | (-> & bs0 & H & ->)].
        -- apply Hbk in H as (-> & _).
           destruct (String.eqb (lineKey b) k) eqn:E.
           ++ apply String.eqb_eq in E. congruence.
           ++ now rewrite app_nil_r.
        -- apply Hbk in H as (-> & _). now rewrite String.eqb_refl.
      * apply indexPush_In in H; [| exact Hnd].
        destruct H as [(Hne & H) | (-> & bs0 & H & ->)].
        -- now apply Hbk in H.
        -- intros E. apply app_eq_nil in E as (_ & E). discriminate.
      * rewrite indexPush_keys. intros H. apply Hkeys in H as (b' & Hb' & E).
        exists b'. split; [| exact E]. apply in_or_app. now left.
      * rewrite indexPush_keys. intros (b' & Hb' & E).
        apply in_app_or in Hb' as [Hb' | [<- | []]].
        -- apply Hkeys. eauto.
        -- now rewrite <- E.
    + apply indexHas_false in Hhas. unfold indexSetEmpty.
      rewrite indexPush_absent by exact Hhas.
      assert (Hempty : bucket (lineKey b) buses = []).
      { unfold bucket.
        destruct (List.filter (fun bus => String.eqb (lineKey bus) (lineKey b))
                    buses) as [| b' l] eqn:E; [reflexivity |].
        assert (Hin : In b' (b' :: l)) by now left.
        rewrite <- E in Hin. apply List.filter_In in Hin as (Hin & Hk).
        apply String.eqb_eq in Hk. exfalso. apply Hhas. apply Hkeys. eauto. }
      repeat split.
      * rewrite map_app. cbn [map fst].
        apply List.NoDup_app.
        -- exact Hnd.
        -- constructor; [intros [] | constructor].
        -- intros x Hx [<- | []]. contradiction.
      * apply in_app_or in H as [H | [H | []]].
        -- rewrite bucket_snoc.
           destruct (String.eqb (lineKey b) k) eqn:E.
           ++ apply String.eqb_eq in E. exfalso. apply Hhas. rewrite E.
              apply in_map_iff. exists (k, bs). auto.
           ++ rewrite app_nil_r. now apply Hbk in H.
        -- injection H as <- <-. rewrite bucket_snoc, Hempty.
           now rewrite String.eqb_refl.
      * apply in_app_or in H as [H | [H | []]].
        -- now apply Hbk in H.
        -- injection H as _ <-. discriminate.
      * rewrite map_app. cbn [map fst]. intros H.
        apply in_app_or in H as [H | [<- | []]].
        -- apply Hkeys in H as (b' & Hb' & E). exists b'.
           split; [apply in_or_app; now left | exact E].
        -- exists b. split; [apply in_or_app; right; now left | reflexivity].
      * rewrite map_app. cbn [map fst]. intros (b' & Hb' & E).
        apply in_or_app. apply in_app_or in Hb' as [Hb' | [<- | []]].
        -- left. apply Hkeys. eauto.
        -- right. left. exact E.
Qed.

Lemma buildIndex_allBuses (buses : list Bus) :
  Permutation (allBuses (buildIndex buses)) buses.
Proof.
  induction buses as [| b buses IH] using rev_ind; [constructor |].
  rewrite buildIndex_snoc. unfold indexAdd.
  destruct (indexHas (lineKey b) (buildIndex buses)) eqn:Hhas; cbn [negb].
  - apply indexHas_In in Hhas.
    rewrite (indexPush_allBuses _ b _ Hhas), IH.
    apply Permutation_cons_append.
  - apply indexHas_false in Hhas. unfold indexSetEmpty.
    rewrite indexPush_absent by exact Hhas.
    unfold allBuses in *. rewrite map_app, concat_app. cbn [map snd concat].
    rewrite app_nil_r. now apply Permutation_app_tail.
Qed.

Lemma indexGet_In (k : string) (bs : list Bus) (index : LineIndex) :
  List.NoDup (map fst index) ->
  indexGet k index = Some bs <-> In (k, bs) index.
Proof.
  induction index as [| [k1 bs1] index IH]; intros Hnd.
  - split; [discriminate | intros []].
  - cbn [map fst] in Hnd. apply List.NoDup_cons_iff in Hnd as (Hk1 & Hnd).
    cbn [indexGet]. destruct (String.eqb k1 k) eqn:E.
    + apply String.eqb_eq in E. subst k1. split.
      * intros H. injection H as <-. now left.
      * intros [H | H]; [congruence |]. exfalso. apply Hk1.
        apply in_map_iff. exists (k, bs). auto.
    + apply String.eqb_neq in E. rewrite IH by exact Hnd. split.
      * intros H. now right.
      * intros [H | H]; [| exact H]. injection H as -> _. contradiction.
Qed.

(** The key of a vehicle is never the empty text. *)
Lemma lineKey_not_empty (bus : Bus) : lineKey bus <> "".
Proof.
  unfold lineKey.
  destruct (busLinha bus) as [| | b | x | s]; try discriminate;
    match goal with
    | |- context [isEmpty ?t] => destruct t eqn:E; cbn [isEmpty]; discriminate
    end.
Qed.

Lemma buildIndex_no_empty_key (buses : list Bus) :
  indexHas "" (buildIndex buses) = false.
Proof.
  apply indexHas_false. intros H.
  apply (proj2 (proj2 (buildIndex_spec buses))) in H as (b & _ & E).
  exact (lineKey_not_empty b E).
Qed.

(** C8.  updateLineIndex replaces the index by the one built from
    [buses] alone, whatever it held before.  Its keys are distinct; the
    bucket under a key holds exactly the vehicles of [buses] with that
    key, in their order, so every vehicle sits in the bucket of its own
    key and in no other; all buckets together are a permutation of
    [buses].  The key of a vehicle is its [linha] as text, trimmed and in
    lower case, or [unknown] when [linha] is missing or that text is
    empty. *)
Theorem updateLineIndex_partitions (clock : Z) (buses : list Bus)
    (st : State) :
  (updateLineIndex clock buses st).1 = Ok tt
  /\ lineIndex (updateLineIndex clock buses st).2 = buildIndex buses
  /\ List.NoDup (map fst (buildIndex buses))
  /\ (forall bus, In bus buses ->
        exists bs, indexGet (lineKey bus) (buildIndex buses) = Some bs
                   /\ In bus bs)
  /\ (forall k bs, In (k, bs) (buildIndex buses) ->
        bs = bucket k buses /\ forall bus, In bus bs -> lineKey bus = k)
  /\ Permutation (allBuses (buildIndex buses)) buses
  /\ (forall bus,
        (absent (busLinha bus) -> lineKey bus = "unknown")
        /\ (~ absent (busLinha bus) ->
            let linha := toLowerCase (trim (valueToString (busLinha bus))) in
            (linha = "" -> lineKey bus = "unknown")
            /\ (linha <> "" -> lineKey bus = linha))).
Proof.
  destruct (buildIndex_spec buses) as (Hnd & Hbk & Hkeys).
  split; [reflexivity |]. split; [reflexivity |].
  split; [exact Hnd |]. split; [| split; [| split]].
  - intros bus Hin.
    assert (Hk : In (lineKey bus) (map fst (buildIndex buses))).
    { apply Hkeys. eauto. }
    apply in_map_iff in Hk as ([k bs] & E & Hkb). cbn [fst] in E. subst k.
    exists bs. split; [now apply indexGet_In |].
    destruct (Hbk _ _ Hkb) as (-> & _). unfold bucket.
    apply List.filter_In. split; [exact Hin | apply String.eqb_refl].
  - intros k bs Hkb. destruct (Hbk _ _ Hkb) as (-> & _).
    split; [reflexivity |]. intros bus Hin. unfold bucket in Hin.
    apply List.filter_In in Hin as (_ & E). now apply String.eqb_eq.
  - apply buildIndex_allBuses.
  - intros bus. unfold lineKey. split.
    + intros [-> | ->]; reflexivity.
    + intros Hpresent. cbv zeta.
      destruct (busLinha bus) as [| | b | x | s];
        try (exfalso; apply Hpresent; (now left) || (now right));
        (split; intros E;
         [rewrite E; reflexivity
         | match goal with
           | |- context [isEmpty ?t] =>
               destruct t; [contradiction | reflexivity]
           end]).
Qed.

(** ** What a call leaves in place *)

Lemma getAllBusData_throttled_state (env : Env) (st : State) (d : list Bus) :
  freshAt (now env) st = None ->
  withinFetchInterval (now env) st = true ->
  staleAt (now env) st = Some d ->
  getAllBusData env st
  = (Ok d,
     mkState (generalAfterMiss env st) (lineCache st) (positionCache st)
             (lastFetchTime st) (lineIndex st) (lastIndexUpdate st)
             (upstreamCalls st)).
Proof.
  intros Hf Hw Hs. unfold getAllBusData, tryCatchM, bindM, getGeneral.
  destruct (get_miss _ _ _ Hf) as (-> & _).
  cbn [getState]. unfold generalAfterMiss.
  unfold withinFetchInterval in *. cbn [lastFetchTime].
  rewrite Hw. cbn [generalCache].
  unfold staleAt in Hs. rewrite <- (peek_ne (now env) (now env) cacheKey)
    in Hs by apply keys_differ.
  rewrite (get_hit _ _ _ _ Hs). reflexivity.
Qed.

Lemma getAllBusData_not_fetched_state (env : Env) (st : State) :
  cacheAnswer env st = None ->
  fetched env = None ->
  getAllBusData env st
  = (match NodeCache.peek (agora env) staleKey (generalAfterMiss env st) with
     | Some data => Ok data
     | None => Throw failure
     end,
     mkState (NodeCache.get (agora env) staleKey (generalAfterMiss env st)).2
             (lineCache st) (positionCache st) (lastFetchTime st)
             (lineIndex st) (lastIndexUpdate st) (S (upstreamCalls st))).
Proof.
  intros Hc Hf. rewrite getAllBusData_miss by assumption.
  unfold fetched in Hf. unfold tryCatchM, bindM, axiosGet.
  destruct (response env) as [| | data] eqn:Hr.
  - unfold getGeneral. cbn [generalCache]. rewrite <- get_peek.
    destruct (NodeCache.get (agora env) staleKey (generalAfterMiss env st))
      as [[d |] c]; reflexivity.
  - cbn [throw]. unfold getGeneral. cbn [generalCache]. rewrite <- get_peek.
    destruct (NodeCache.get (agora env) staleKey (generalAfterMiss env st))
      as [[d |] c]; reflexivity.
  - cbn [ret liftResult].
    destruct (collectActive (agora env) data []) as [a | e] eqn:Hcol;
      [discriminate |].
    unfold getGeneral. cbn [generalCache]. rewrite <- get_peek.
    destruct (NodeCache.get (agora env) staleKey (generalAfterMiss env st))
      as [[d |] c]; reflexivity.
Qed.

(** getAllBusData touches neither the line cache nor the position cache;
    the index stays, or is rebuilt from what is returned; the general
    cache gains no key but the two snapshots. *)
Lemma getAllBusData_frame (env : Env) (st : State) :
  generalOwned st ->
  lineCache (getAllBusData env st).2 = lineCache st
  /\ positionCache (getAllBusData env st).2 = positionCache st
  /\ (lineIndex (getAllBusData env st).2 = lineIndex st
      \/ exists active,
           (getAllBusData env st).1 = Ok active
           /\ lineIndex (getAllBusData env st).2 = buildIndex active)
  /\ generalOwned (getAllBusData env st).2.
Proof.
  intros Hown. unfold generalOwned in *.
  pose proof (generalAfterMiss_dom env st) as Hdom.
  destruct (cacheAnswer env st) as [d |] eqn:Hc.
  - unfold cacheAnswer in Hc.
    destruct (freshAt (now env) st) as [d' |] eqn:Hf.
    + rewrite (getAllBusData_fresh env st d') by assumption.
      cbn [snd]. repeat split; auto.
    + destruct (withinFetchInterval (now env) st) eqn:Hw; [| discriminate].
      rewrite (getAllBusData_throttled_state env st d) by assumption.
      cbn [snd lineCache positionCache lineIndex generalCache].
      repeat split; auto. set_solver.
  - destruct (fetched env) as [active |] eqn:Hfe.
    + rewrite (getAllBusData_fetched env st active) by assumption.
      cbn [fst snd lineCache positionCache lineIndex generalCache].
      repeat split; eauto. rewrite !dom_insert. set_solver.
    + rewrite getAllBusData_not_fetched_state by assumption.
      cbn [snd lineCache positionCache lineIndex generalCache].
      repeat split; auto.
      pose proof (dom_get (agora env) staleKey (generalAfterMiss env st)).
      set_solver.
Qed.

Lemma includes_empty (s : string) : includes s "" = true.
Proof. destruct s; reflexivity. Qed.

(** With an empty query the fallback takes every bucket. *)
Lemma matchPartial_empty (index : LineIndex) (acc : list Bus) :
  matchPartial "" index acc = (acc ++ allBuses index)%list.
Proof.
  unfold matchPartial, allBuses. revert acc.
  induction index as [| [k bs] index IH]; intros acc.
  - simpl. now rewrite app_nil_r.
  - cbn [fold_left map snd concat fst]. rewrite includes_empty. cbn [orb].
    rewrite IH. now rewrite app_assoc.
Qed.

Lemma lookupLine_empty (buses : list Bus) :
  lookupLine "" (buildIndex buses) = allBuses (buildIndex buses).
Proof.
  unfold lookupLine. rewrite buildIndex_no_empty_key.
  apply matchPartial_empty.
Qed.

(** ** Queries by line *)

Lemma size_get {A : Type} (clock : Z) (k : string)
    (s : gmap string (NodeCache.entry A)) :
  (size (NodeCache.get clock k s).2 <= size s)%nat.
Proof.
  rewrite <- !size_dom. apply subseteq_size, dom_get.
Qed.

Lemma setLine_ok (clock : Z) (key : string) (data : list Bus) (st : State) :
  (size (lineCache st) < NodeCache.maxKeys)%nat ->
  setLine clock key data 120 st
  = (Ok tt,
     mkState (generalCache st)
             (<[key := NodeCache.mkEntry data (clock + 120 * 1000)]>
                (lineCache st))
             (positionCache st) (lastFetchTime st) (lineIndex st)
             (lastIndexUpdate st) (upstreamCalls st)).
Proof.
  intros H. unfold setLine. cbn [Z.eqb]. rewrite set_ok by assumption.
  reflexivity.
Qed.

(** C9.  A query whose trimmed, lower-cased text is empty (a single
    space, say, which the schema of the route lets through) has no bucket
    of its own, and the fallback matches every key of the index.  On a miss of the line cache the call therefore
    returns all the vehicles of the index, bucket after bucket: those of
    the index as it stands when it holds any, and otherwise those of the
    index as getAllBusData leaves it (the call fails if getAllBusData
    does). *)
Theorem getBusByLine_blank_query (env : Env) (st : State) (linha : string) :
  toLowerCase (trim linha) = "" ->
  indexBuilt st ->
  generalOwned st ->
  NodeCache.peek (now env) ("line_active_" +:+ linha) (lineCache st) = None ->
  (size (lineCache st) < NodeCache.maxKeys)%nat ->
  (linhaSchema " " = true /\ toLowerCase (trim " ") = "")
  /\ (forall index acc,
        matchPartial "" index acc = (acc ++ allBuses index)%list)
  /\ indexHas "" (lineIndex st) = false
  /\ (allBuses (lineIndex st) <> [] ->
      (getBusByLine env linha st).1 = Ok (allBuses (lineIndex st)))
  /\ (allBuses (lineIndex st) = [] ->
      (forall e,
          (getAllBusData env (afterLineRead env linha st)).1 = Throw e ->
          (getBusByLine env linha st).1 = Throw e)
      /\ (forall data,
            (getAllBusData env (afterLineRead env linha st)).1 = Ok data ->
            (getBusByLine env linha st).1
            = Ok (allBuses
                    (lineIndex
                       (getAllBusData env (afterLineRead env linha st)).2))))
  /\ (forall data, (getBusByLine env linha st).1 = Ok data ->
        data = allBuses (lineIndex (getBusByLine env linha st).2)).
Proof.
  intros Hblank (buses & Hidx) Hown Hmiss Hroom.
  assert (Hno : indexHas "" (lineIndex st) = false).
  { rewrite Hidx. apply buildIndex_no_empty_key. }
  split; [split; reflexivity |].
  split; [apply matchPartial_empty |]. split; [exact Hno |].
  unfold afterLineRead.
  set (key := "line_active_" +:+ linha) in *.
  assert (Hst1 : getLine (now env) key st
    = (Ok None,
       mkState (generalCache st)
               (NodeCache.get (now env) key (lineCache st)).2
               (positionCache st) (lastFetchTime st) (lineIndex st)
               (lastIndexUpdate st) (upstreamCalls st))).
  { unfold getLine. destruct (get_miss _ _ _ Hmiss) as (-> & _).
    reflexivity. }
  rewrite Hst1. cbn [snd].
  set (st1 := mkState (generalCache st)
                (NodeCache.get (now env) key (lineCache st)).2
                (positionCache st) (lastFetchTime st) (lineIndex st)
                (lastIndexUpdate st) (upstreamCalls st)) in *.
  assert (Hroom1 : (size (lineCache st1) < NodeCache.maxKeys)%nat).
  { cbn [st1 lineCache].
    pose proof (size_get (now env) key (lineCache st)). lia. }
  assert (Hown1 : generalOwned st1) by exact Hown.
  assert (Hstart : getBusByLine env linha st
    = (found <~
         (if isNil (allBuses (lineIndex st)) then
            getAllBusData env ;;;
            st' <~ getState ;;
            ret (lookupLine "" (lineIndex st'), agora env)
          else ret (allBuses (lineIndex st), now env)) ;;
       setLine found.2 key found.1 120 ;;;
       ret found.1) st1).
  { unfold getBusByLine. fold key. rewrite Hblank.
    unfold bindM at 1. rewrite Hst1.
    unfold bindM at 1. cbn [getState].
    replace (lineIndex st1) with (lineIndex st) by reflexivity.
    rewrite Hno, matchPartial_empty. reflexivity. }
  rewrite Hstart. clear Hstart.
  destruct (allBuses (lineIndex st)) as [| b l] eqn:Hall; cbn [isNil].
  - (* the index holds nothing: getAllBusData runs *)
    destruct (getAllBusData_frame env st1 Hown1) as (Hlc & _ & Hix & _).
    assert (Hbuilt : exists bs, lineIndex (getAllBusData env st1).2
                                = buildIndex bs).
    { destruct Hix as [-> | (a & _ & ->)]; [exists buses; exact Hidx | eauto]. }
    destruct Hbuilt as (bs & Hbs).
    assert (Hrun :
      (found <~
         (getAllBusData env ;;;
          st' <~ getState ;;
          ret (lookupLine "" (lineIndex st'), agora env)) ;;
       setLine found.2 key found.1 120 ;;;
       ret found.1) st1
      = match getAllBusData env st1 with
        | (Ok _, st2) =>
            (Ok (allBuses (lineIndex st2)),
             mkState (generalCache st2)
               (<[key := NodeCache.mkEntry (allBuses (lineIndex st2))
                           (agora env + 120 * 1000)]> (lineCache st2))
               (positionCache st2) (lastFetchTime st2) (lineIndex st2)
               (lastIndexUpdate st2) (upstreamCalls st2))
        | (Throw e, st2) => (Throw e, st2)
        end).
    { unfold bindM.
      destruct (getAllBusData env st1) as [[data | e] st2] eqn:Hall2;
        cbn [fst snd] in *; [| reflexivity].
      cbn [getState ret fst snd].
      rewrite setLine_ok by (rewrite Hlc; exact Hroom1).
      rewrite Hbs, lookupLine_empty. reflexivity. }
    rewrite Hrun. clear Hrun.
    destruct (getAllBusData env st1) as [[data | e] st2] eqn:Hall2;
      cbn [fst snd lineIndex] in *.
    + split; [intros H; now contradiction H |].
      split; [split; [discriminate | reflexivity] |].
      intros d E. now injection E as <-.
    + split; [intros H; now contradiction H |].
      split; [split; [intros e' E; exact E | discriminate] | discriminate].
  - assert (Hrun :
      (found <~ ret (b :: l, now env) ;;
       setLine found.2 key found.1 120 ;;;
       ret found.1) st1
      = (Ok (b :: l),
         mkState (generalCache st1)
           (<[key := NodeCache.mkEntry (b :: l) (now env + 120 * 1000)]>
              (lineCache st1))
           (positionCache st1) (lastFetchTime st1) (lineIndex st1)
           (lastIndexUpdate st1) (upstreamCalls st1))).
    { unfold bindM. cbn [ret fst snd].
      rewrite setLine_ok by exact Hroom1. reflexivity. }
    rewrite Hrun. clear Hrun. cbn [fst snd lineIndex st1].
    split; [reflexivity |]. split; [discriminate |].
    intros d E. injection E as <-. symmetry. exact Hall.
Qed.

Lemma stateAfterFetch_owned : generalOwned stateAfterFetch.
Proof. apply getAllBusData_frame, initialState_owned. Qed.

Lemma getBusByLine_blank_query_sample :
  (getBusByLine laterEnv " " stateAfterFetch).1
  = Ok (allBuses (lineIndex stateAfterFetch)).
Proof.
  assert (Hbuilt : indexBuilt stateAfterFetch).
  { exists [normalizeRecord stoppedFourMinutes; normalizeRecord movingHourAgo].
    vm_compute. reflexivity. }
  assert (Hmiss : NodeCache.peek (now laterEnv) ("line_active_" +:+ " ")
                    (lineCache stateAfterFetch) = None).
  { vm_compute. reflexivity. }
  assert (Hroom : (size (lineCache stateAfterFetch) < NodeCache.maxKeys)%nat).
  { vm_compute. lia. }
  pose proof (getBusByLine_blank_query laterEnv stateAfterFetch " " eq_refl
                Hbuilt stateAfterFetch_owned Hmiss Hroom)
    as (_ & _ & _ & H & _).
  apply H. vm_compute. discriminate.
Defined.

(** ** Queries by position *)

(** What getAllBusData answers, from the general cache, the time of the
    last fetch and the feed alone. *)
Lemma getAllBusData_result (env : Env) (st : State) :
  generalOwned st ->
  (getAllBusData env st).1
  = match cacheAnswer env st with
    | Some data => Ok data
    | None =>
        match fetched env with
        | Some active => Ok active
        | None =>
            match NodeCache.peek (agora env) staleKey
                    (generalAfterMiss env st) with
            | Some data => Ok data
            | None => Throw failure
            end
        end
    end.
Proof.
  intros Hown. destruct (cacheAnswer env st) as [d |] eqn:Hc.
  - unfold cacheAnswer in Hc.
    destruct (freshAt (now env) st) as [d' |] eqn:Hf.
    + injection Hc as ->. now rewrite (getAllBusData_fresh env st d).
    + destruct (withinFetchInterval (now env) st) eqn:Hw; [| discriminate].
      now rewrite (getAllBusData_throttled_state env st d).
  - destruct (fetched env) as [active |] eqn:Hfe.
    + now rewrite (getAllBusData_fetched env st active).
    + now rewrite getAllBusData_not_fetched_state.
Qed.

(** The answer does not depend on the line and position caches. *)
Lemma getAllBusData_result_same (env : Env) (st st' : State) :
  generalOwned st ->
  generalCache st' = generalCache st ->
  lastFetchTime st' = lastFetchTime st ->
  (getAllBusData env st').1 = (getAllBusData env st).1.
Proof.
  intros Hown Hg Hl.
  assert (Hown' : generalOwned st') by (unfold generalOwned; now rewrite Hg).
  rewrite !getAllBusData_result by assumption.
  unfold cacheAnswer, freshAt, staleAt, generalAfterMiss, withinFetchInterval.
  rewrite Hg, Hl. reflexivity.
Qed.

Lemma setPosition_ok (clock : Z) (key : string) (data : list Bus)
    (st : State) :
  (size (positionCache st) < NodeCache.maxKeys)%nat ->
  setPosition clock key data 120 st
  = (Ok tt,
     mkState (generalCache st) (lineCache st)
             (<[key := NodeCache.mkEntry data (clock + 120 * 1000)]>
                (positionCache st))
             (lastFetchTime st) (lineIndex st) (lastIndexUpdate st)
             (upstreamCalls st)).
Proof.
  intros H. unfold setPosition. cbn [Z.eqb]. rewrite set_ok by assumption.
  reflexivity.
Qed.

(** On a miss of the position cache the answer is the filter of what
    getAllBusData returns. *)
Lemma getBusByPosition_miss (env : Env) (st : State) (lat lon raioKm : number) :
  generalOwned st ->
  NodeCache.peek (now env) (positionKey lat lon raioKm) (positionCache st)
  = None ->
  (size (positionCache st) < NodeCache.maxKeys)%nat ->
  (getBusByPosition env lat lon raioKm st).1
  = match (getAllBusData env st).1 with
    | Ok allData =>
        Ok (List.filter (noRaioEmRota (agora env) lat lon raioKm) allData)
    | Throw e => Throw e
    end.
Proof.
  intros Hown Hmiss Hroom.
  set (key := positionKey lat lon raioKm) in *.
  set (st1 := mkState (generalCache st) (lineCache st)
                (NodeCache.get (now env) key (positionCache st)).2
                (lastFetchTime st) (lineIndex st) (lastIndexUpdate st)
                (upstreamCalls st)).
  assert (Hst1 : getPosition (now env) key st = (Ok None, st1)).
  { unfold getPosition. destruct (get_miss _ _ _ Hmiss) as (-> & _).
    reflexivity. }
  assert (Hown1 : generalOwned st1) by exact Hown.
  rewrite <- (getAllBusData_result_same env st st1 Hown eq_refl eq_refl).
  destruct (getAllBusData_frame env st1 Hown1) as (_ & Hpc & _).
  unfold getBusByPosition. fold key. unfold bindM. rewrite Hst1.
  destruct (getAllBusData env st1) as [[allData | e] st2]; cbn [fst snd] in *;
    [| reflexivity].
  rewrite setPosition_ok; [reflexivity |].
  rewrite Hpc. cbn [st1 positionCache].
  pose proof (size_get (now env) key (positionCache st)). lia.
Qed.

Lemma distanceLe_mono (d : distance) (r1 r2 : Q) :
  (r1 <= r2)%Q ->
  distanceLe d (Fin r1) = true -> distanceLe d (Fin r2) = true.
Proof.
  intros Hle. destruct d as [| | km]; cbn [distanceLe]; try discriminate.
  destruct (Rle_dec km (Q2R r1)) as [H1 |]; [| discriminate].
  intros _. destruct (Rle_dec km (Q2R r2)) as [| H2]; [reflexivity |].
  exfalso. apply H2. apply Qle_Rle in Hle. lra.
Qed.

Lemma noRaioEmRota_mono (clock : Z) (lat lon : number) (r1 r2 : Q)
    (bus : Bus) :
  (r1 <= r2)%Q ->
  noRaioEmRota clock lat lon (Fin r1) bus = true ->
  noRaioEmRota clock lat lon (Fin r2) bus = true.
Proof.
  intros Hle. unfold noRaioEmRota, dentroDoRaio.
  destruct (negb (truthy (busLatitude bus))
            || negb (truthy (busLongitude bus))); [discriminate |].
  destruct (distanceLe _ (Fin r1)) eqn:E1; [| discriminate].
  now rewrite (distanceLe_mono _ r1 r2 Hle E1).
Qed.

Lemma noRaioEmRota_within (clock : Z) (lat lon raioKm : number) (bus : Bus) :
  noRaioEmRota clock lat lon raioKm bus = true ->
  distanceLe (distanceTo lat lon bus) raioKm = true.
Proof.
  unfold noRaioEmRota, dentroDoRaio, distanceTo.
  destruct (negb (truthy (busLatitude bus))
            || negb (truthy (busLongitude bus))); [discriminate |].
  destruct (distanceLe _ raioKm); [reflexivity | discriminate].
Qed.

Lemma filter_mono {A : Type} (p q : A -> bool) (l : list A) :
  (forall x, p x = true -> q x = true) ->
  (forall x, In x (List.filter p l) -> In x (List.filter q l))
  /\ (length (List.filter p l) <= length (List.filter q l))%nat.
Proof.
  intros Hpq. split.
  - intros x Hx. apply List.filter_In in Hx as (Hin & Hp).
    apply List.filter_In. auto.
  - induction l as [| x l IH]; [reflexivity |].
    cbn [List.filter]. destruct (p x) eqn:Ep.
    + rewrite (Hpq x Ep). cbn [length]. lia.
    + destruct (q x); cbn [length]; lia.
Qed.

(** C7.  On a miss of the position cache, for one centre and one state of
    the vehicle data, the answer grows with the radius: every vehicle
    returned for [r1] is returned for any [r2 >= r1], so the answer for
    the smaller radius is never the longer one; and every vehicle
    returned lies within the radius by the distance of
    calcularDistancia.  The two calls succeed or fail together. *)
Theorem getBusByPosition_monotone (env : Env) (st : State)
    (lat lon : number) (r1 r2 : Q) :
  (r1 <= r2)%Q ->
  generalOwned st ->
  NodeCache.peek (now env) (positionKey lat lon (Fin r1)) (positionCache st)
  = None ->
  NodeCache.peek (now env) (positionKey lat lon (Fin r2)) (positionCache st)
  = None ->
  (size (positionCache st) < NodeCache.maxKeys)%nat ->
  (forall l1 l2,
      (getBusByPosition env lat lon (Fin r1) st).1 = Ok l1 ->
      (getBusByPosition env lat lon (Fin r2) st).1 = Ok l2 ->
      (forall bus, In bus l1 -> In bus l2)
      /\ (length l1 <= length l2)%nat
      /\ (forall bus, In bus l1 ->
            distanceLe (distanceTo lat lon bus) (Fin r1) = true)
      /\ (forall bus, In bus l2 ->
            distanceLe (distanceTo lat lon bus) (Fin r2) = true))
  /\ (forall e, (getBusByPosition env lat lon (Fin r1) st).1 = Throw e
                <-> (getBusByPosition env lat lon (Fin r2) st).1 = Throw e)
  /\ (forall allData, (getAllBusData env st).1 = Ok allData ->
        (getBusByPosition env lat lon (Fin r1) st).1
        = Ok (List.filter (noRaioEmRota (agora env) lat lon (Fin r1)) allData)).
Proof.
  intros Hle Hown Hm1 Hm2 Hroom.
  rewrite !getBusByPosition_miss by assumption.
  destruct (getAllBusData env st).1 as [allData | e0].
  - split; [| split].
    + intros l1 l2 E1 E2. injection E1 as <-. injection E2 as <-.
      destruct (filter_mono (noRaioEmRota (agora env) lat lon (Fin r1))
                  (noRaioEmRota (agora env) lat lon (Fin r2)) allData
                  (fun bus => noRaioEmRota_mono _ _ _ _ _ bus Hle))
        as (Hin & Hlen).
      repeat split; try assumption.
      * intros bus Hb. apply List.filter_In in Hb as (_ & Hb).
        now apply noRaioEmRota_within in Hb.
      * intros bus Hb. apply List.filter_In in Hb as (_ & Hb).
        now apply noRaioEmRota_within in Hb.
    + intros e. split; discriminate.
    + intros a E. now injection E as <-.
  - split; [| split].
    + intros l1 l2 E1. discriminate.
    + intros e. reflexivity.
    + intros a E. discriminate.
Qed.

Lemma getBusByPosition_monotone_sample :
  ((1 <= 5)%Q
   /\ generalOwned stateAfterFetch
   /\ NodeCache.peek (now laterEnv)
        (positionKey (Fin (-22.9068)) (Fin (-43.1729)) (Fin 1))
        (positionCache stateAfterFetch) = None
   /\ NodeCache.peek (now laterEnv)
        (positionKey (Fin (-22.9068)) (Fin (-43.1729)) (Fin 5))
        (positionCache stateAfterFetch) = None
   /\ (size (positionCache stateAfterFetch) < NodeCache.maxKeys)%nat)
  /\ forall l1 l2,
      (getBusByPosition laterEnv (Fin (-22.9068)) (Fin (-43.1729)) (Fin 1)
         stateAfterFetch).1 = Ok l1 ->
      (getBusByPosition laterEnv (Fin (-22.9068)) (Fin (-43.1729)) (Fin 5)
         stateAfterFetch).1 = Ok l2 ->
      (forall bus, In bus l1 -> In bus l2)
      /\ (length l1 <= length l2)%nat
      /\ (forall bus, In bus l1 ->
            distanceLe (distanceTo (Fin (-22.9068)) (Fin (-43.1729)) bus)
                       (Fin 1) = true)
      /\ (forall bus, In bus l2 ->
            distanceLe (distanceTo (Fin (-22.9068)) (Fin (-43.1729)) bus)
                       (Fin 5) = true).
Proof.
  assert (Hle : (1 <= 5)%Q) by discriminate.
  assert (Hm1 : NodeCache.peek (now laterEnv)
                  (positionKey (Fin (-22.9068)) (Fin (-43.1729)) (Fin 1))
                  (positionCache stateAfterFetch) = None).
  { vm_compute. reflexivity. }
  assert (Hm2 : NodeCache.peek (now laterEnv)
                  (positionKey (Fin (-22.9068)) (Fin (-43.1729)) (Fin 5))
                  (positionCache stateAfterFetch) = None).
  { vm_compute. reflexivity. }
  assert (Hroom : (size (positionCache stateAfterFetch)
                   < NodeCache.maxKeys)%nat).
  { vm_compute. lia. }
  split; [repeat split; try assumption; apply stateAfterFetch_owned |].
  exact (proj1 (getBusByPosition_monotone laterEnv stateAfterFetch
                  (Fin (-22.9068)) (Fin (-43.1729)) 1 5 Hle
                  stateAfterFetch_owned Hm1 Hm2 Hroom)).
Defined.

(** ** The states the service reaches *)

Lemma preserves_ret {A : Type} (a : A) : preserves (ret a).
Proof. intros st H. exact H. Qed.

Lemma preserves_throw {A : Type} (e : exn) : preserves (throw (A := A) e).
Proof. intros st H. exact H. Qed.

Lemma preserves_bind {A B : Type} (m : M A) (k : A -> M B) :
  preserves m -> (forall a, preserves (k a)) -> preserves (bindM m k).
Proof.
  intros Hm Hk st H. unfold bindM. specialize (Hm st H).
  destruct (m st) as [[a | e] st']; cbn [snd] in *.
  - now apply Hk.
  - exact Hm.
Qed.

Lemma preserves_getLine (clock : Z) (key : string) :
  preserves (getLine clock key).
Proof.
  intros st H. unfold getLine.
  destruct (NodeCache.get clock key (lineCache st)). exact H.
Qed.

Lemma preserves_setLine (clock : Z) (key : string) (data : list Bus)
    (ttl : Z) : preserves (setLine clock key data ttl).
Proof.
  intros st H. unfold setLine.
  destruct (NodeCache.set _ _ _ _ _); exact H.
Qed.

Lemma preserves_getPosition (clock : Z) (key : string) :
  preserves (getPosition clock key).
Proof.
  intros st H. unfold getPosition.
  destruct (NodeCache.get clock key (positionCache st)). exact H.
Qed.

Lemma preserves_setPosition (clock : Z) (key : string) (data : list Bus)
    (ttl : Z) : preserves (setPosition clock key data ttl).
Proof.
  intros st H. unfold setPosition.
  destruct (NodeCache.set _ _ _ _ _); exact H.
Qed.

Lemma preserves_getAllBusData (env : Env) : preserves (getAllBusData env).
Proof.
  intros st (Hown & buses & Hidx).
  destruct (getAllBusData_frame env st Hown) as (_ & _ & Hix & Hown').
  split; [exact Hown' |]. unfold indexBuilt.
  destruct Hix as [E | (a & _ & E)]; rewrite E; [exists buses | exists a];
    auto.
Qed.

Lemma preserves_getBusByLine (env : Env) (linha : string) :
  preserves (getBusByLine env linha).
Proof.
  unfold getBusByLine.
  apply preserves_bind; [apply preserves_getLine |].
  intros [data |]; [apply preserves_ret |].
  apply preserves_bind; [intros st H; exact H |]. intros st0.
  apply preserves_bind.
  - destruct (indexHas _ _); [apply preserves_ret |].
    destruct (isNil _); [| apply preserves_ret].
    apply preserves_bind; [apply preserves_getAllBusData |]. intros _.
    apply preserves_bind; [intros st H; exact H |]. intros st1.
    apply preserves_ret.
  - intros found. apply preserves_bind; [apply preserves_setLine |].
    intros _. apply preserves_ret.
Qed.

Lemma preserves_getBusByPosition (env : Env) (lat lon raioKm : number) :
  preserves (getBusByPosition env lat lon raioKm).
Proof.
  unfold getBusByPosition.
  apply preserves_bind; [apply preserves_getPosition |].
  intros [data |]; [apply preserves_ret |].
  apply preserves_bind; [apply preserves_getAllBusData |]. intros allData.
  apply preserves_bind; [apply preserves_setPosition |].
  intros _. apply preserves_ret.
Qed.

Lemma preserves_clearCaches : preserves clearCaches.
Proof.
  intros st (Hown & _). rewrite clearCaches_state. cbn [snd]. split.
  - unfold generalOwned in *. cbn [generalCache]. unfold NodeCache.del.
    rewrite !dom_delete. set_solver.
  - exists []. reflexivity.
Qed.

Lemma invariant_sweep (clock : Z) (st : State) :
  invariant st -> invariant (sweep clock st).
Proof.
  intros (Hown & Hidx). split; [| exact Hidx].
  unfold generalOwned, sweep, NodeCache.checkData in *. cbn [generalCache].
  pose proof (dom_filter_subseteq
                (fun kv : string * NodeCache.entry (list Bus) =>
                   NodeCache.live clock kv.2 = true) (generalCache st)).
  set_solver.
Qed.

(** Every state the service reaches keeps nothing but its two snapshots
    in the general cache, and has an index that updateLineIndex built. *)
Lemma reachable_invariant (st : State) : reachable st -> invariant st.
Proof.
  induction 1 as [| st st' _ IH Hstep].
  - split; [apply initialState_owned | exists []; reflexivity].
  - destruct Hstep.
    + now apply preserves_getAllBusData.
    + now apply preserves_getBusByLine.
    + now apply preserves_getBusByPosition.
    + now apply preserves_clearCaches.
    + now apply invariant_sweep.
Qed.

(** ** Snapshots over time *)

Lemma freshAt_fetched (env : Env) (st : State) (active : list Bus) (t : Z) :
  generalOwned st -> cacheAnswer env st = None -> fetched env = Some active ->
  freshAt t (getAllBusData env st).2
  = (if t <=? agora env + 300 * 1000 then Some active else None)
  /\ staleAt t (getAllBusData env st).2
     = (if t <=? agora env + 1800 * 1000 then Some active else None)
  /\ lastFetchTime (getAllBusData env st).2 = Some (now env)
  /\ upstreamCalls (getAllBusData env st).2 = S (upstreamCalls st).
Proof.
  intros Hown Hc Hf. rewrite (getAllBusData_fetched env st active) by assumption.
  unfold freshAt, staleAt. cbn [snd generalCache lastFetchTime upstreamCalls].
  rewrite peek_insert_ne by (symmetry; apply keys_differ).
  rewrite !peek_insert. repeat split.
Qed.

(** X1.  Once a call has fetched a snapshot, every call whose clock is
    at most 300 s past the moment the snapshot was stored returns that
    snapshot, asks the feed nothing and changes nothing.  Every call
    inside the interval between fetches is such a call: there the fresh
    snapshot still answers. *)
Theorem getAllBusData_then_cached (env env' : Env) (st : State)
    (active : list Bus) :
  generalOwned st ->
  cacheAnswer env st = None ->
  fetched env = Some active ->
  now env' <= agora env + 300000 ->
  getAllBusData env' (getAllBusData env st).2
  = (Ok active, (getAllBusData env st).2)
  /\ (now env <= agora env ->
      forall clock,
        withinFetchInterval clock (getAllBusData env st).2 = true ->
        freshAt clock (getAllBusData env st).2 = Some active).
Proof.
  intros Hown Hc Hf Hle.
  destruct (freshAt_fetched env st active (now env') Hown Hc Hf)
    as (Hfresh & _ & Hlast & _).
  split.
  - apply getAllBusData_fresh. rewrite Hfresh.
    destruct (now env' <=? agora env + 300 * 1000) eqn:E; [reflexivity |].
    apply Z.leb_gt in E. lia.
  - intros Hclock clock Hw.
    destruct (freshAt_fetched env st active clock Hown Hc Hf) as (-> & _).
    unfold withinFetchInterval in Hw. rewrite Hlast in Hw.
    apply andb_true_iff in Hw as (_ & Hw). apply Z.ltb_lt in Hw.
    unfold fetchInterval in Hw.
    destruct (clock <=? agora env + 300 * 1000) eqn:E; [reflexivity |].
    apply Z.leb_gt in E. lia.
Qed.

Lemma initialState_no_answer (env : Env) : cacheAnswer env initialState = None.
Proof. reflexivity. Qed.

Lemma sampleEnv_fetched :
  fetched sampleEnv
  = Some [normalizeRecord stoppedFourMinutes; normalizeRecord movingHourAgo].
Proof. vm_compute. reflexivity. Qed.

Lemma getAllBusData_then_cached_sample :
  getAllBusData laterEnv stateAfterFetch
  = (Ok [normalizeRecord stoppedFourMinutes; normalizeRecord movingHourAgo],
     stateAfterFetch).
Proof.
  assert (Hle : now laterEnv <= agora sampleEnv + 300000)
    by (vm_compute; discriminate).
  exact (proj1 (getAllBusData_then_cached sampleEnv laterEnv initialState _
                  initialState_owned (initialState_no_answer sampleEnv)
                  sampleEnv_fetched Hle)).
Defined.

(** X2.  A snapshot outlives the feed for 1800 s.  Once the 300 s of the
    fresh copy are over, a call that finds the feed failing returns the
    snapshot as long as its clock is at most 1800 s past the moment the
    snapshot was stored, and fails after that; either way the feed was
    asked once more. *)
Theorem getAllBusData_stale_window (env env' : Env) (st : State)
    (active : list Bus) :
  generalOwned st ->
  cacheAnswer env st = None ->
  fetched env = Some active ->
  now env <= agora env ->
  agora env + 300000 < now env' ->
  now env' <= agora env' ->
  fetched env' = None ->
  (getAllBusData env' (getAllBusData env st).2).1
  = (if agora env' <=? agora env + 1800000 then Ok active else Throw failure)
  /\ upstreamCalls (getAllBusData env' (getAllBusData env st).2).2
     = S (S (upstreamCalls st)).
Proof.
  intros Hown Hc Hf Hclock Hlate Hclock' Hf'.
  destruct (freshAt_fetched env st active (now env') Hown Hc Hf)
    as (Hfresh & _ & Hlast & Hcalls).
  destruct (freshAt_fetched env st active (agora env') Hown Hc Hf)
    as (_ & Hstale & _).
  assert (Hc' : cacheAnswer env' (getAllBusData env st).2 = None).
  { unfold cacheAnswer. rewrite Hfresh.
    replace (now env' <=? agora env + 300 * 1000) with false
      by (symmetry; apply Z.leb_gt; lia).
    unfold withinFetchInterval. rewrite Hlast.
    replace (now env' - now env <? fetchInterval) with false
      by (symmetry; apply Z.ltb_ge; unfold fetchInterval; lia).
    now rewrite andb_false_r. }
  destruct (getAllBusData_not_fetched env' _ Hc' Hf' Hclock') as (-> & -> & _).
  rewrite Hstale, Hcalls. split; [| reflexivity].
  replace (1800 * 1000) with 1800000 by reflexivity.
  destruct (agora env' <=? agora env + 1800000); reflexivity.
Qed.

Lemma getAllBusData_stale_window_sample :
  (getAllBusData feedDownEnv stateAfterFetch).1
  = Ok [normalizeRecord stoppedFourMinutes; normalizeRecord movingHourAgo].
Proof.
  assert (H1 : now sampleEnv <= agora sampleEnv) by (vm_compute; discriminate).
  assert (H2 : agora sampleEnv + 300000 < now feedDownEnv) by reflexivity.
  assert (H3 : now feedDownEnv <= agora feedDownEnv)
    by (vm_compute; discriminate).
  exact (proj1 (getAllBusData_stale_window sampleEnv feedDownEnv initialState _
                  initialState_owned (initialState_no_answer sampleEnv)
                  sampleEnv_fetched H1 H2 H3 eq_refl)).
Defined.

(** X3.  A call sends the feed at most one request, and none when a
    cached snapshot answers; then the answer of the feed and the second
    reading of the clock play no part in the call. *)
Theorem getAllBusData_requests (env : Env) (st : State) :
  generalOwned st ->
  upstreamCalls (getAllBusData env st).2
  = match cacheAnswer env st with
    | Some _ => upstreamCalls st
    | None => S (upstreamCalls st)
    end
  /\ (forall data clock r,
        cacheAnswer env st = Some data ->
        getAllBusData (mkEnv (now env) clock r) st = getAllBusData env st
        /\ (getAllBusData env st).1 = Ok data).
Proof.
  intros Hown. split.
  - destruct (cacheAnswer env st) as [d |] eqn:Hc.
    + unfold cacheAnswer in Hc.
      destruct (freshAt (now env) st) as [d' |] eqn:Hf.
      * now rewrite (getAllBusData_fresh env st d').
      * destruct (withinFetchInterval (now env) st) eqn:Hw; [| discriminate].
        now rewrite (getAllBusData_throttled_state env st d).
    + destruct (fetched env) as [active |] eqn:Hfe.
      * now rewrite (getAllBusData_fetched env st active).
      * now rewrite getAllBusData_not_fetched_state.
  - intros data clock r Hc. unfold cacheAnswer in Hc.
    destruct (freshAt (now env) st) as [d' |] eqn:Hf.
    + injection Hc as ->.
      rewrite (getAllBusData_fresh env st data) by assumption.
      rewrite (getAllBusData_fresh (mkEnv (now env) clock r) st data)
        by assumption.
      split; reflexivity.
    + destruct (withinFetchInterval (now env) st) eqn:Hw; [| discriminate].
      rewrite (getAllBusData_throttled_state env st data) by assumption.
      rewrite (getAllBusData_throttled_state (mkEnv (now env) clock r) st data)
        by assumption.
      split; reflexivity.
Qed.

Lemma getAllBusData_requests_sample :
  upstreamCalls (getAllBusData laterEnv stateAfterFetch).2
  = match cacheAnswer laterEnv stateAfterFetch with
    | Some _ => upstreamCalls stateAfterFetch
    | None => S (upstreamCalls stateAfterFetch)
    end.
Proof.
  exact (proj1 (getAllBusData_requests laterEnv stateAfterFetch
                  stateAfterFetch_owned)).
Defined.

(** ** Queries by line, case by case *)

Lemma getBusByLine_hit (env : Env) (st : State) (linha : string)
    (data : list Bus) :
  NodeCache.peek (now env) (lineCacheKey linha) (lineCache st) = Some data ->
  getBusByLine env linha st = (Ok data, st).
Proof.
  intros H. unfold getBusByLine, bindM, getLine.
  unfold lineCacheKey in H. rewrite (get_hit _ _ _ _ H).
  cbn [ret]. now rewrite state_eta.
Qed.

Lemma getLine_miss (env : Env) (st : State) (linha : string) :
  NodeCache.peek (now env) (lineCacheKey linha) (lineCache st) = None ->
  getLine (now env) (lineCacheKey linha) st
  = (Ok None,
     withLineCache
       (NodeCache.get (now env) (lineCacheKey linha) (lineCache st)).2 st).
Proof.
  intros H. unfold getLine. destruct (get_miss _ _ _ H) as (-> & _).
  reflexivity.
Qed.

(** A miss of the line cache that the index answers: the answer is
    stored and returned; nothing else is read or written. *)
Lemma getBusByLine_indexed (env : Env) (st : State) (linha : string) :
  NodeCache.peek (now env) (lineCacheKey linha) (lineCache st) = None ->
  indexAnswers (toLowerCase (trim linha)) (lineIndex st) ->
  getBusByLine env linha st
  = let data := lookupLine (toLowerCase (trim linha)) (lineIndex st) in
    let c := (NodeCache.get (now env) (lineCacheKey linha) (lineCache st)).2 in
    match NodeCache.set (now env) (lineCacheKey linha) data 120 c with
    | Ok c' => (Ok data, withLineCache c' st)
    | Throw e => (Throw e, withLineCache c st)
    end.
Proof.
  intros Hmiss Hans. unfold getBusByLine. fold (lineCacheKey linha).
  unfold bindM at 1. rewrite getLine_miss by assumption.
  unfold bindM at 1. cbn [getState]. unfold bindM at 1.
  cbn [withLineCache lineIndex]. unfold lookupLine.
  destruct (indexHas (toLowerCase (trim linha)) (lineIndex st)) eqn:Hhas.
  - cbn [ret fst snd]. unfold bindM, setLine.
    cbn [Z.eqb lineCache withLineCache].
    destruct (NodeCache.set _ _ _ _ _); reflexivity.
  - destruct Hans as [Hans | Hans]; [congruence |].
    destruct (matchPartial (toLowerCase (trim linha)) (lineIndex st) [])
      as [| b l] eqn:Hm; [congruence |].
    cbn [isNil ret fst snd]. unfold bindM, setLine.
    cbn [Z.eqb lineCache withLineCache].
    destruct (NodeCache.set _ _ _ _ _); reflexivity.
Qed.

(** A miss of the line cache that the index does not answer:
    getAllBusData runs, and the index it leaves is asked. *)
Lemma getBusByLine_refresh (env : Env) (st : State) (linha : string) :
  NodeCache.peek (now env) (lineCacheKey linha) (lineCache st) = None ->
  ~ indexAnswers (toLowerCase (trim linha)) (lineIndex st) ->
  getBusByLine env linha st
  = let c := (NodeCache.get (now env) (lineCacheKey linha) (lineCache st)).2 in
    match getAllBusData env (withLineCache c st) with
    | (Ok _, st2) =>
        let data := lookupLine (toLowerCase (trim linha)) (lineIndex st2) in
        match NodeCache.set (agora env) (lineCacheKey linha) data 120
                (lineCache st2) with
        | Ok c' => (Ok data, withLineCache c' st2)
        | Throw e => (Throw e, st2)
        end
    | (Throw e, st2) => (Throw e, st2)
    end.
Proof.
  intros Hmiss Hans. unfold getBusByLine. fold (lineCacheKey linha).
  unfold bindM at 1. rewrite getLine_miss by assumption.
  unfold bindM at 1. cbn [getState]. unfold bindM at 1.
  cbn [withLineCache lineIndex].
  destruct (indexHas (toLowerCase (trim linha)) (lineIndex st)) eqn:Hhas.
  { contradiction Hans. now left. }
  destruct (matchPartial (toLowerCase (trim linha)) (lineIndex st) [])
    as [| b l] eqn:Hm.
  2:{ contradiction Hans. right. rewrite Hm. discriminate. }
  cbn [isNil]. unfold bindM at 1 2.
  fold (withLineCache
          (NodeCache.get (now env) (lineCacheKey linha) (lineCache st)).2 st).
  destruct (getAllBusData env _) as [[data | e] st2]; [| reflexivity].
  cbn [getState ret fst snd]. unfold bindM, setLine. cbn [Z.eqb].
  destruct (NodeCache.set _ _ _ _ _); [| reflexivity].
  cbn [ret]. reflexivity.
Qed.

Lemma indexAnswers_dec (q : string) (index : LineIndex) :
  {indexAnswers q index} + {~ indexAnswers q index}.
Proof.
  unfold indexAnswers.
  destruct (indexHas q index); [left; now left |].
  destruct (matchPartial q index []) as [| b l].
  - right. intros [H | H]; [discriminate | now apply H].
  - left. right. discriminate.
Qed.

Lemma matchPartial_filter (q : string) (index : LineIndex) (acc : list Bus) :
  matchPartial q index acc
  = (acc ++ allBuses (List.filter (fun kv => partialMatch q kv.1) index))%list.
Proof.
  unfold matchPartial, allBuses, partialMatch. revert acc.
  induction index as [| [k bs] index IH]; intros acc.
  - simpl. now rewrite app_nil_r.
  - cbn [fold_left List.filter fst snd].
    destruct (includes k q || includes q k).
    + rewrite IH. cbn [map concat snd]. now rewrite app_assoc.
    + apply IH.
Qed.

Lemma Permutation_filter {A : Type} (f : A -> bool) (l l' : list A) :
  Permutation l l' -> Permutation (List.filter f l) (List.filter f l').
Proof.
  induction 1 as [| x l l' _ IH | x y l | l l' l'' _ IH1 _ IH2].
  - constructor.
  - cbn [List.filter]. destruct (f x); [now constructor | exact IH].
  - cbn [List.filter]. destruct (f x), (f y);
      try apply Permutation_refl. apply perm_swap.
  - now transitivity (List.filter f l').
Qed.

(** In an index whose buckets hold the vehicles of their key, taking the
    buckets of some keys is taking the vehicles of those keys. *)
Lemma allBuses_filter (f : string -> bool) (index : LineIndex) :
  (forall k bs bus, In (k, bs) index -> In bus bs -> lineKey bus = k) ->
  allBuses (List.filter (fun kv => f kv.1) index)
  = List.filter (fun bus => f (lineKey bus)) (allBuses index).
Proof.
  unfold allBuses. induction index as [| [k bs] index IH]; intros Hkeys.
  - reflexivity.
  - cbn [List.filter map concat fst snd]. rewrite List.filter_app.
    rewrite <- IH by (intros; eapply Hkeys; [right |]; eassumption).
    assert (Hbs : forall bus, In bus bs -> lineKey bus = k)
      by (intros; eapply Hkeys; [left; reflexivity | assumption]).
    destruct (f k) eqn:Hf.
    + cbn [map concat snd]. f_equal.
      clear - Hbs Hf. induction bs as [| b bs IHb]; [reflexivity |].
      cbn [List.filter]. rewrite (Hbs b) by now left. rewrite Hf.
      f_equal. apply IHb. intros; apply Hbs; now right.
    + replace (List.filter (fun bus => f (lineKey bus)) bs) with (@nil Bus);
        [reflexivity |].
      clear - Hbs Hf. induction bs as [| b bs IHb]; [reflexivity |].
      cbn [List.filter]. rewrite (Hbs b) by now left. rewrite Hf.
      apply IHb. intros; apply Hbs; now right.
Qed.

Lemma bucket_In (k : string) (buses : list Bus) (bus : Bus) :
  In bus (bucket k buses) <-> In bus buses /\ lineKey bus = k.
Proof.
  unfold bucket. rewrite List.filter_In.
  split; intros (H1 & H2); split; try assumption.
  - now apply String.eqb_eq.
  - now apply String.eqb_eq.
Qed.

(** What the fallback finds in an index built from [buses]: the vehicles
    whose key contains the query or is contained in it, each once. *)
Lemma matchPartial_buildIndex (q : string) (buses : list Bus) :
  Permutation (matchPartial q (buildIndex buses) [])
              (List.filter (fun bus => partialMatch q (lineKey bus)) buses).
Proof.
  rewrite matchPartial_filter. cbn [app].
  destruct (buildIndex_spec buses) as (_ & Hbuckets & _).
  rewrite (allBuses_filter (partialMatch q)).
  - apply Permutation_filter, buildIndex_allBuses.
  - intros k bs bus Hin Hb. destruct (Hbuckets k bs Hin) as (-> & _).
    now apply bucket_In in Hb.
Qed.

(** The exact bucket of an index built from [buses]. *)
Lemma lookupLine_exact (q : string) (buses : list Bus) :
  (exists bus, In bus buses /\ lineKey bus = q) ->
  indexHas q (buildIndex buses) = true
  /\ lookupLine q (buildIndex buses) = bucket q buses.
Proof.
  intros Hex. destruct (buildIndex_spec buses) as (Hnd & Hbuckets & Hkeys).
  assert (Hhas : indexHas q (buildIndex buses) = true).
  { apply indexHas_In, Hkeys, Hex. }
  split; [exact Hhas |]. unfold lookupLine. rewrite Hhas.
  apply indexHas_In in Hhas. apply in_map_iff in Hhas as ([k bs] & Hk & Hin).
  cbn [fst] in Hk. subst k.
  rewrite (proj2 (indexGet_In q bs _ Hnd) Hin). cbn [default].
  now destruct (Hbuckets q bs Hin).
Qed.

Lemma afterget_room {A : Type} (clock : Z) (k : string)
    (s : gmap string (NodeCache.entry A)) :
  (size s < NodeCache.maxKeys)%nat ->
  (size (NodeCache.get clock k s).2 < NodeCache.maxKeys)%nat.
Proof. pose proof (size_get clock k s). lia. Qed.

(** X4.  A query for a line of the index, on a miss of the line cache:
    the answer is the vehicles of the last list indexed whose line,
    trimmed and lower-cased, is the query trimmed and lower-cased, in the
    order of that list.  The feed is not asked and neither the general
    cache nor the index changes, however old the index is. *)
Theorem getBusByLine_exact (env : Env) (st : State) (linha : string)
    (buses : list Bus) :
  lineIndex st = buildIndex buses ->
  (exists bus, In bus buses /\ lineKey bus = toLowerCase (trim linha)) ->
  NodeCache.peek (now env) (lineCacheKey linha) (lineCache st) = None ->
  (size (lineCache st) < NodeCache.maxKeys)%nat ->
  (getBusByLine env linha st).1
  = Ok (bucket (toLowerCase (trim linha)) buses)
  /\ (forall bus,
        In bus (bucket (toLowerCase (trim linha)) buses)
        <-> In bus buses /\ lineKey bus = toLowerCase (trim linha))
  /\ upstreamCalls (getBusByLine env linha st).2 = upstreamCalls st
  /\ generalCache (getBusByLine env linha st).2 = generalCache st
  /\ lineIndex (getBusByLine env linha st).2 = lineIndex st.
Proof.
  intros Hidx Hex Hmiss Hroom.
  destruct (lookupLine_exact _ buses Hex) as (Hhas & Hlook).
  rewrite getBusByLine_indexed;
    [| assumption | left; now rewrite Hidx].
  cbv zeta. rewrite set_ok by now apply afterget_room.
  rewrite Hidx, Hlook. cbn [fst snd withLineCache upstreamCalls generalCache
                              lineIndex].
  split; [reflexivity |]. split; [intros bus; apply bucket_In |].
  repeat split. exact Hidx.
Qed.

Lemma stateAfterFetch_index :
  lineIndex stateAfterFetch
  = buildIndex [normalizeRecord stoppedFourMinutes;
                normalizeRecord movingHourAgo].
Proof. vm_compute. reflexivity. Qed.

Lemma getBusByLine_exact_sample :
  (getBusByLine laterEnv " 371" stateAfterFetch).1
  = Ok (bucket "371" [normalizeRecord stoppedFourMinutes;
                      normalizeRecord movingHourAgo]).
Proof.
  assert (Hex : exists bus,
             In bus [normalizeRecord stoppedFourMinutes;
                     normalizeRecord movingHourAgo]
             /\ lineKey bus = toLowerCase (trim " 371")).
  { exists (normalizeRecord movingHourAgo). split; [right; now left |].
    vm_compute. reflexivity. }
  assert (Hmiss : NodeCache.peek (now laterEnv) (lineCacheKey " 371")
                    (lineCache stateAfterFetch) = None).
  { vm_compute. reflexivity. }
  assert (Hroom : (size (lineCache stateAfterFetch) < NodeCache.maxKeys)%nat).
  { vm_compute. lia. }
  exact (proj1 (getBusByLine_exact laterEnv stateAfterFetch " 371" _
                  stateAfterFetch_index Hex Hmiss Hroom)).
Defined.

(** X5.  A query that is no key of the index but matches some, on a miss
    of the line cache: the answer holds, each once, the vehicles of the
    last list indexed whose key contains the query or is contained in it
    (both trimmed and lower-cased), bucket after bucket; the feed is not
    asked. *)
Theorem getBusByLine_partial (env : Env) (st : State) (linha : string)
    (buses : list Bus) :
  lineIndex st = buildIndex buses ->
  (forall bus, In bus buses -> lineKey bus <> toLowerCase (trim linha)) ->
  (exists bus, In bus buses
               /\ partialMatch (toLowerCase (trim linha)) (lineKey bus) = true) ->
  NodeCache.peek (now env) (lineCacheKey linha) (lineCache st) = None ->
  (size (lineCache st) < NodeCache.maxKeys)%nat ->
  exists data,
    (getBusByLine env linha st).1 = Ok data
    /\ data = matchPartial (toLowerCase (trim linha)) (buildIndex buses) []
    /\ Permutation data
         (List.filter
            (fun bus => partialMatch (toLowerCase (trim linha)) (lineKey bus))
            buses)
    /\ (forall bus,
          In bus data
          <-> In bus buses
              /\ (includes (lineKey bus) (toLowerCase (trim linha)) = true
                  \/ includes (toLowerCase (trim linha)) (lineKey bus) = true))
    /\ upstreamCalls (getBusByLine env linha st).2 = upstreamCalls st.
Proof.
  intros Hidx Hnone (b0 & Hb0 & Hm0) Hmiss Hroom.
  set (q := toLowerCase (trim linha)) in *.
  pose proof (matchPartial_buildIndex q buses) as Hperm.
  assert (Hhas : indexHas q (buildIndex buses) = false).
  { apply indexHas_false. intros Hin.
    destruct (buildIndex_spec buses) as (_ & _ & Hkeys).
    apply Hkeys in Hin as (b & Hb & Hk). now apply (Hnone b). }
  assert (Hne : matchPartial q (buildIndex buses) [] <> []).
  { intros E. rewrite E in Hperm. apply Permutation_nil in Hperm.
    assert (Hin : In b0 (List.filter (fun bus => partialMatch q (lineKey bus))
                           buses)) by (apply List.filter_In; auto).
    rewrite Hperm in Hin. exact Hin. }
  exists (matchPartial q (buildIndex buses) []).
  rewrite getBusByLine_indexed; [| assumption | right; now rewrite Hidx].
  cbv zeta. rewrite set_ok by now apply afterget_room.
  fold q. rewrite Hidx. unfold lookupLine. rewrite Hhas.
  cbn [fst snd withLineCache upstreamCalls].
  split; [reflexivity |]. split; [reflexivity |]. split; [exact Hperm |].
  split; [| reflexivity]. intros bus. split.
  - intros Hin. eapply Permutation_in in Hin; [| exact Hperm].
    apply List.filter_In in Hin as (Hin & Hm). split; [assumption |].
    unfold partialMatch in Hm. now apply orb_true_iff in Hm.
  - intros (Hin & Hor). eapply Permutation_in;
      [apply Permutation_sym; exact Hperm |].
    apply List.filter_In. split; [assumption |]. unfold partialMatch.
    now apply orb_true_iff.
Qed.

Lemma getBusByLine_partial_sample :
  exists data,
    (getBusByLine laterEnv "37" stateAfterFetch).1 = Ok data
    /\ data = matchPartial "37" (buildIndex [normalizeRecord stoppedFourMinutes;
                                             normalizeRecord movingHourAgo]) [].
Proof.
  assert (Hnone : forall bus,
             In bus [normalizeRecord stoppedFourMinutes;
                     normalizeRecord movingHourAgo] ->
             lineKey bus <> toLowerCase (trim "37")).
  { intros bus [<- | [<- | []]]; vm_compute; discriminate. }
  assert (Hex : exists bus,
             In bus [normalizeRecord stoppedFourMinutes;
                     normalizeRecord movingHourAgo]
             /\ partialMatch (toLowerCase (trim "37")) (lineKey bus) = true).
  { exists (normalizeRecord movingHourAgo). split; [right; now left |].
    vm_compute. reflexivity. }
  assert (Hmiss : NodeCache.peek (now laterEnv) (lineCacheKey "37")
                    (lineCache stateAfterFetch) = None).
  { vm_compute. reflexivity. }
  assert (Hroom : (size (lineCache stateAfterFetch) < NodeCache.maxKeys)%nat).
  { vm_compute. lia. }
  destruct (getBusByLine_partial laterEnv stateAfterFetch "37" _
              stateAfterFetch_index Hnone Hex Hmiss Hroom)
    as (data & H1 & H2 & _).
  exists data. split; assumption.
Defined.

(** ** Properties kept along the calls *)

Section Invariants.
Variable P : State -> Prop.
Hypothesis P_line : forall c st, P st -> P (withLineCache c st).
Hypothesis P_position : forall c st, P st -> P (withPositionCache c st).
Hypothesis P_getAllBusData : forall env, keeps P (getAllBusData env).

Lemma keeps_ret {A : Type} (a : A) : keeps P (ret a).
Proof. intros st H. exact H. Qed.

Lemma keeps_bind {A B : Type} (m : M A) (k : A -> M B) :
  keeps P m -> (forall a, keeps P (k a)) -> keeps P (bindM m k).
Proof.
  intros Hm Hk st H. unfold bindM. specialize (Hm st H).
  destruct (m st) as [[a | e] st']; cbn [snd] in *.
  - now apply Hk.
  - exact Hm.
Qed.

Lemma keeps_getState : keeps P getState.
Proof. intros st H. exact H. Qed.

Lemma keeps_liftResult {A : Type} (r : result A) : keeps P (liftResult r).
Proof. intros st H. exact H. Qed.

Lemma keeps_getLine (clock : Z) (key : string) : keeps P (getLine clock key).
Proof.
  intros st H. unfold getLine.
  destruct (NodeCache.get clock key (lineCache st)) as [d c].
  now apply (P_line c).
Qed.

Lemma keeps_setLine (clock : Z) (key : string) (data : list Bus) (ttl : Z) :
  keeps P (setLine clock key data ttl).
Proof.
  intros st H. unfold setLine.
  destruct (NodeCache.set _ _ _ _ _) as [c | e]; [| exact H].
  now apply (P_line c).
Qed.



Lemma keeps_getBusByLine (env : Env) (linha : string) :
  keeps P (getBusByLine env linha).
Proof.
  unfold getBusByLine.
  apply keeps_bind; [apply keeps_getLine |].
  intros [data |]; [apply keeps_ret |].
  apply keeps_bind; [apply keeps_getState |]. intros st0.
  apply keeps_bind.
  - destruct (indexHas _ _); [apply keeps_ret |].
    destruct (isNil _); [| apply keeps_ret].
    apply keeps_bind; [apply P_getAllBusData |]. intros _.
    apply keeps_bind; [apply keeps_getState |]. intros st1.
    apply keeps_ret.
  - intros found. apply keeps_bind; [apply keeps_setLine |].
    intros _. apply keeps_ret.
Qed.


Lemma keeps_getStats (env : Env) : keeps P (getStats env).
Proof.
  unfold getStats.
  apply keeps_bind; [apply P_getAllBusData |]. intros data.
  destruct (isNil data); [apply keeps_ret |].
  apply keeps_bind; [apply keeps_liftResult |]. intros u. apply keeps_ret.
Qed.


End Invariants.

Lemma keeps_generalOwned_getBusByLine (env : Env) (linha : string) :
  keeps generalOwned (getBusByLine env linha).
Proof.
  apply keeps_getBusByLine.
  - intros c st H. exact H.
  - intros e st H. now apply getAllBusData_frame.
Qed.

(** getAllBusData does not look at the line cache. *)
Lemma getAllBusData_withLineCache (env : Env) (st : State)
    (c : gmap string (NodeCache.entry (list Bus))) :
  generalOwned st ->
  getAllBusData env (withLineCache c st)
  = ((getAllBusData env st).1, withLineCache c (getAllBusData env st).2).
Proof.
  intros Hown.
  assert (Hown' : generalOwned (withLineCache c st)) by exact Hown.
  destruct (cacheAnswer env st) as [d |] eqn:Hc.
  - unfold cacheAnswer in Hc.
    destruct (freshAt (now env) st) as [d' |] eqn:Hf.
    + rewrite (getAllBusData_fresh env st d') by assumption.
      rewrite (getAllBusData_fresh env (withLineCache c st) d')
        by assumption.
      reflexivity.
    + destruct (withinFetchInterval (now env) st) eqn:Hw; [| discriminate].
      rewrite (getAllBusData_throttled_state env st d) by assumption.
      rewrite (getAllBusData_throttled_state env (withLineCache c st) d)
        by assumption.
      reflexivity.
  - destruct (fetched env) as [active |] eqn:Hfe.
    + rewrite (getAllBusData_fetched env st active) by assumption.
      rewrite (getAllBusData_fetched env (withLineCache c st) active)
        by assumption.
      reflexivity.
    + rewrite (getAllBusData_not_fetched_state env st) by assumption.
      rewrite (getAllBusData_not_fetched_state env (withLineCache c st))
        by assumption.
      reflexivity.
Qed.

Lemma getAllBusData_withPositionCache (env : Env) (st : State)
    (c : gmap string (NodeCache.entry (list Bus))) :
  generalOwned st ->
  getAllBusData env (withPositionCache c st)
  = ((getAllBusData env st).1, withPositionCache c (getAllBusData env st).2).
Proof.
  intros Hown.
  assert (Hown' : generalOwned (withPositionCache c st)) by exact Hown.
  destruct (cacheAnswer env st) as [d |] eqn:Hc.
  - unfold cacheAnswer in Hc.
    destruct (freshAt (now env) st) as [d' |] eqn:Hf.
    + rewrite (getAllBusData_fresh env st d') by assumption.
      rewrite (getAllBusData_fresh env (withPositionCache c st) d')
        by assumption.
      reflexivity.
    + destruct (withinFetchInterval (now env) st) eqn:Hw; [| discriminate].
      rewrite (getAllBusData_throttled_state env st d) by assumption.
      rewrite (getAllBusData_throttled_state env (withPositionCache c st) d)
        by assumption.
      reflexivity.
  - destruct (fetched env) as [active |] eqn:Hfe.
    + rewrite (getAllBusData_fetched env st active) by assumption.
      rewrite (getAllBusData_fetched env (withPositionCache c st) active)
        by assumption.
      reflexivity.
    + rewrite (getAllBusData_not_fetched_state env st) by assumption.
      rewrite (getAllBusData_not_fetched_state env (withPositionCache c st))
        by assumption.
      reflexivity.
Qed.

(** ** Queries by line and the line cache *)

(** A miss that ends well has stored its answer for 120 s from the
    clock of the call, or from the clock after the fetch. *)
Lemma getBusByLine_stored (env : Env) (st : State) (linha : string)
    (data : list Bus) :
  NodeCache.peek (now env) (lineCacheKey linha) (lineCache st) = None ->
  (getBusByLine env linha st).1 = Ok data ->
  exists clock c,
    (clock = now env \/ clock = agora env)
    /\ lineCache (getBusByLine env linha st).2
       = <[lineCacheKey linha := NodeCache.mkEntry data (clock + 120 * 1000)]> c.
Proof.
  intros Hmiss.
  destruct (indexAnswers_dec (toLowerCase (trim linha)) (lineIndex st))
    as [Hans | Hans].
  - rewrite getBusByLine_indexed by assumption. cbv zeta.
    unfold NodeCache.set. destruct (_ <=? _)%nat; [discriminate |].
    cbn [fst snd withLineCache lineCache]. intros E. injection E as <-.
    eauto.
  - rewrite getBusByLine_refresh by assumption. cbv zeta.
    destruct (getAllBusData env _) as [[d | e] st2]; [| discriminate].
    unfold NodeCache.set. destruct (_ <=? _)%nat; [discriminate |].
    cbn [fst snd withLineCache lineCache]. intros E. injection E as <-.
    eauto.
Qed.

(** X6.  The answer of a query by line is kept for 120 s under the text
    of the query as it was sent: the same text asked again within 120 s
    gets the same list and changes nothing, also when getAllBusData has
    replaced the snapshot and the index in between. *)
Theorem getBusByLine_then_cached (env env' : Env) (st : State)
    (linha : string) (data : list Bus) :
  generalOwned st ->
  NodeCache.peek (now env) (lineCacheKey linha) (lineCache st) = None ->
  now env <= agora env ->
  (getBusByLine env linha st).1 = Ok data ->
  now env' <= now env + 120000 ->
  getBusByLine env' linha (getBusByLine env linha st).2
  = (Ok data, (getBusByLine env linha st).2)
  /\ (forall env1,
        (getBusByLine env' linha
           (getAllBusData env1 (getBusByLine env linha st).2).2).1 = Ok data).
Proof.
  intros Hown Hmiss Hclock Hok Hle.
  destruct (getBusByLine_stored env st linha data Hmiss Hok)
    as (clock & c & Hcl & Hlc).
  assert (Hpeek : NodeCache.peek (now env') (lineCacheKey linha)
                    (lineCache (getBusByLine env linha st).2) = Some data).
  { rewrite Hlc, peek_insert.
    destruct (now env' <=? clock + 120 * 1000) eqn:E; [reflexivity |].
    apply Z.leb_gt in E. lia. }
  split.
  - now apply getBusByLine_hit.
  - intros env1.
    pose proof (keeps_generalOwned_getBusByLine env linha st Hown) as Hown2.
    destruct (getAllBusData_frame env1 _ Hown2) as (Hline & _).
    rewrite (getBusByLine_hit env' _ linha data); [reflexivity |].
    now rewrite Hline.
Qed.

Lemma getBusByLine_then_cached_sample :
  getBusByLine laterEnv "371" stateAfterLineQuery
  = (Ok [normalizeRecord stoppedFourMinutes; normalizeRecord movingHourAgo],
     stateAfterLineQuery).
Proof.
  assert (Hmiss : NodeCache.peek (now sampleEnv) (lineCacheKey "371")
                    (lineCache initialState) = None) by reflexivity.
  assert (Hclock : now sampleEnv <= agora sampleEnv)
    by (vm_compute; discriminate).
  assert (Hok : (getBusByLine sampleEnv "371" initialState).1
                = Ok [normalizeRecord stoppedFourMinutes;
                      normalizeRecord movingHourAgo]).
  { vm_compute. reflexivity. }
  assert (Hle : now laterEnv <= now sampleEnv + 120000)
    by (vm_compute; discriminate).
  exact (proj1 (getBusByLine_then_cached sampleEnv laterEnv initialState "371"
                  _ initialState_owned Hmiss Hclock Hok Hle)).
Defined.



(** ** Queries by position, case by case *)

Lemma getBusByPosition_hit (env : Env) (st : State) (lat lon raioKm : number)
    (data : list Bus) :
  NodeCache.peek (now env) (positionKey lat lon raioKm) (positionCache st)
  = Some data ->
  getBusByPosition env lat lon raioKm st = (Ok data, st).
Proof.
  intros H. unfold getBusByPosition, bindM, getPosition.
  rewrite (get_hit _ _ _ _ H). cbn [ret]. now rewrite state_eta.
Qed.

(** A miss of the position cache: getAllBusData runs, its answer is
    filtered, and what is left is stored and returned. *)
Lemma getBusByPosition_run (env : Env) (st : State) (lat lon raioKm : number) :
  NodeCache.peek (now env) (positionKey lat lon raioKm) (positionCache st)
  = None ->
  getBusByPosition env lat lon raioKm st
  = let c := (NodeCache.get (now env) (positionKey lat lon raioKm)
                (positionCache st)).2 in
    match getAllBusData env (withPositionCache c st) with
    | (Ok allData, st2) =>
        let data :=
          List.filter (noRaioEmRota (agora env) lat lon raioKm) allData in
        match NodeCache.set (agora env) (positionKey lat lon raioKm) data 120
                (positionCache st2) with
        | Ok c' => (Ok data, withPositionCache c' st2)
        | Throw e => (Throw e, st2)
        end
    | (Throw e, st2) => (Throw e, st2)
    end.
Proof.
  intros Hmiss. unfold getBusByPosition. unfold bindM at 1. unfold getPosition.
  destruct (get_miss _ _ _ Hmiss) as (-> & _). cbv zeta.
  fold (withPositionCache
          (NodeCache.get (now env) (positionKey lat lon raioKm)
             (positionCache st)).2 st).
  unfold bindM at 1.
  destruct (getAllBusData env _) as [[allData | e] st2]; [| reflexivity].
  unfold bindM, setPosition. cbn [Z.eqb].
  destruct (NodeCache.set _ _ _ _ _); reflexivity.
Qed.









(** X10.  The answer of a query by position is kept for 120 s under a key
    made of the latitude and the longitude rounded to four decimals and
    of the radius.  Within 120 s of the answer any query with the same
    key gets the same list and changes nothing: the same query, and also
    one whose centre differs from the fifth decimal on. *)
Theorem getBusByPosition_then_cached (env env' : Env) (st : State)
    (lat lon raioKm lat' lon' raioKm' : number) (data : list Bus) :
  NodeCache.peek (now env) (positionKey lat lon raioKm) (positionCache st)
  = None ->
  (getBusByPosition env lat lon raioKm st).1 = Ok data ->
  positionKey lat' lon' raioKm' = positionKey lat lon raioKm ->
  now env' <= agora env + 120000 ->
  getBusByPosition env' lat' lon' raioKm'
    (getBusByPosition env lat lon raioKm st).2
  = (Ok data, (getBusByPosition env lat lon raioKm st).2).
Proof.
  intros Hmiss Hok Hkey Hle. apply getBusByPosition_hit. rewrite Hkey.
  revert Hok. rewrite getBusByPosition_run by assumption. cbv zeta.
  destruct (getAllBusData env _) as [[allData | e] st2]; [| discriminate].
  unfold NodeCache.set. destruct (_ <=? _)%nat; [discriminate |].
  cbn [fst snd withPositionCache positionCache]. intros E. injection E as <-.
  rewrite peek_insert.
  destruct (now env' <=? agora env + 120 * 1000) eqn:E; [reflexivity |].
  apply Z.leb_gt in E. lia.
Qed.

Lemma getBusByPosition_then_cached_sample :
  getBusByPosition laterEnv (Fin (-22.90684)) (Fin (-43.17294)) (Fin 1)
    (getBusByPosition sampleEnv (Fin (-22.90681)) (Fin (-43.17291)) (Fin 1)
       initialState).2
  = (Ok (List.filter
           (noRaioEmRota (agora sampleEnv) (Fin (-22.90681)) (Fin (-43.17291))
              (Fin 1))
           [normalizeRecord stoppedFourMinutes; normalizeRecord movingHourAgo]),
     (getBusByPosition sampleEnv (Fin (-22.90681)) (Fin (-43.17291)) (Fin 1)
        initialState).2).
Proof.
  assert (Hmiss : NodeCache.peek (now sampleEnv)
                    (positionKey (Fin (-22.90681)) (Fin (-43.17291)) (Fin 1))
                    (positionCache initialState) = None) by reflexivity.
  assert (Hroom : (size (positionCache initialState)
                   < NodeCache.maxKeys)%nat).
  { vm_compute. lia. }
  assert (Hall : (getAllBusData sampleEnv initialState).1
                 = Ok [normalizeRecord stoppedFourMinutes;
                       normalizeRecord movingHourAgo]).
  { vm_compute. reflexivity. }
  pose proof (getBusByPosition_miss sampleEnv initialState
                (Fin (-22.90681)) (Fin (-43.17291)) (Fin 1)
                initialState_owned Hmiss Hroom) as Hrun.
  rewrite Hall in Hrun.
  assert (Hkey : positionKey (Fin (-22.90684)) (Fin (-43.17294)) (Fin 1)
                 = positionKey (Fin (-22.90681)) (Fin (-43.17291)) (Fin 1)).
  { vm_compute. reflexivity. }
  assert (Hle : now laterEnv <= agora sampleEnv + 120000)
    by (vm_compute; discriminate).
  exact (getBusByPosition_then_cached sampleEnv laterEnv initialState
           _ _ _ _ _ _ _ Hmiss Hrun Hkey Hle).
Defined.

(** ** The snapshots and the index *)












(** ** getStats *)

Lemma getStats_run (env : Env) (st : State) :
  getStats env st
  = match getAllBusData env st with
    | (Ok data, st2) =>
        (if isNil data then Ok (Stats.mk (length data) ∅ (Fin 0) None)
         else
           match toISOString
                   (newDate (mathMax (map (fun bus => getTime (busDate bus))
                                          data))) with
           | Ok iso =>
               Ok (Stats.mk (length data) (fold_left countLine data ∅)
                     (parseFloatString
                        (toFixed 2
                           (divideBy (toNumber (totalSpeed data))
                                     (inject_Z (Z.of_nat (length data))))))
                     (Some iso))
           | Throw e => Throw e
           end,
         st2)
    | (Throw e, st2) => (Throw e, st2)
    end.
Proof.
  unfold getStats. unfold bindM at 1.
  destruct (getAllBusData env st) as [[data | e] st2]; [| reflexivity].
  destruct (isNil data); [reflexivity |].
  unfold bindM, liftResult.
  destruct (toISOString _); reflexivity.
Qed.

Lemma numberMax_NaN_l (x : number) : numberMax NaN x = NaN.
Proof. reflexivity. Qed.




Lemma numberMax_Z (a b : Z) :
  numberMax (Fin (inject_Z a)) (Fin (inject_Z b)) = Fin (inject_Z (Z.max a b)).
Proof.
  cbn [numberMax]. destruct (Qle_bool (inject_Z a) (inject_Z b)) eqn:E.
  - apply Qle_bool_iff in E. rewrite <- Zle_Qle in E.
    now rewrite Z.max_r.
  - assert (b < a).
    { destruct (Z.lt_ge_cases b a) as [| H]; [assumption |].
      rewrite Zle_Qle in H. apply Qle_bool_iff in H. congruence. }
    rewrite Z.max_l by lia. reflexivity.
Qed.

Lemma fold_numberMax_Z (ts : list Z) (a : Z) :
  fold_left numberMax (map (fun t => Fin (inject_Z t)) ts) (Fin (inject_Z a))
  = Fin (inject_Z (fold_left Z.max ts a)).
Proof.
  revert a. induction ts as [| t ts IH]; intros a; [reflexivity |].
  cbn [map fold_left]. rewrite numberMax_Z. apply IH.
Qed.

Lemma fold_max_spec (ts : list Z) (a : Z) :
  (fold_left Z.max ts a = a \/ In (fold_left Z.max ts a) ts)
  /\ a <= fold_left Z.max ts a
  /\ (forall t, In t ts -> t <= fold_left Z.max ts a).
Proof.
  revert a. induction ts as [| t ts IH]; intros a; cbn [fold_left].
  - split; [now left |]. split; [lia | intros t []].
  - destruct (IH (Z.max a t)) as (Hin & Hle & Hall). split; [| split].
    + destruct Hin as [E | Hin]; [| right; now right].
      rewrite E. destruct (Z.max_spec a t) as [(_ & ->) | (_ & ->)];
        [right; now left | now left].
    + lia.
    + intros t' [<- | Hin']; [lia | now apply Hall].
Qed.

(** The timestamps of vehicles that all have a date. *)
Lemma timestamps_dated (data : list Bus) :
  (forall bus, In bus data -> dated bus) ->
  exists ts,
    map (fun bus => getTime (busDate bus)) data
    = map (fun t => Fin (inject_Z t)) ts
    /\ map busDate data = map Some ts
    /\ Forall (fun t => - maxTimeValue <= t <= maxTimeValue) ts.
Proof.
  induction data as [| bus data IH]; intros H.
  - exists []. repeat split. constructor.
  - destruct IH as (ts & E1 & E2 & F); [intros; apply H; now right |].
    destruct (H bus) as (t & Ht & Hr); [now left |].
    exists (t :: ts). cbn [map]. rewrite Ht, E1, E2. cbn [getTime].
    repeat split. now constructor.
Qed.


(** The record whose latitude is a number is kept, since it moves, and
    the statistics fail on it. *)
Example getStats_numeric_latitude :
  (getAllBusData numericLatitudeEnv initialState).1
  = Ok [Original sampleNumericLatitude]
  /\ (getStats numericLatitudeEnv initialState).1 = Throw RangeError.
Proof. split; vm_compute; reflexivity. Qed.

(** X13.  The date getStats reports is the latest date of the vehicles:
    the date of one of them, and no vehicle has a later one. *)
Theorem getStats_lastUpdate (env : Env) (st : State) (data : list Bus) :
  (getAllBusData env st).1 = Ok data ->
  data <> [] ->
  (forall bus, In bus data -> dated bus) ->
  exists s m,
    (getStats env st).1 = Ok s
    /\ Stats.lastUpdate s = Some (Iso m)
    /\ (exists bus, In bus data /\ busDate bus = Some m)
    /\ (forall bus t, In bus data -> busDate bus = Some t -> t <= m).
Proof.
  intros Hall Hne Hdated. rewrite getStats_run.
  destruct (getAllBusData env st) as [[d | e] st2]; cbn [fst] in Hall;
    [| discriminate].
  injection Hall as ->.
  destruct (timestamps_dated data Hdated) as (ts & Ets & Edates & Hrange).
  destruct data as [| b l]; [contradiction |]. cbn [isNil fst].
  destruct ts as [| t0 ts]; [discriminate |].
  rewrite Ets. unfold mathMax. cbn [map fold_left numberMax].
  rewrite fold_numberMax_Z.
  destruct (fold_max_spec ts t0) as (Hin & Hge & Hmax).
  set (m := fold_left Z.max ts t0) in *.
  assert (Hm_in : In m (t0 :: ts)).
  { destruct Hin as [-> | Hin]; [now left | now right]. }
  assert (Hm_range : - maxTimeValue <= m <= maxTimeValue).
  { rewrite List.Forall_forall in Hrange. now apply Hrange. }
  rewrite newDate_integer by assumption. cbn [toISOString].
  eexists _, m. split; [reflexivity |]. cbn [Stats.lastUpdate].
  split; [reflexivity |]. split.
  - assert (Hd : In (Some m) (map busDate (b :: l))).
    { rewrite Edates. now apply in_map. }
    apply in_map_iff in Hd as (bus & Hb & Hin'). eauto.
  - intros bus t Hb Ht.
    assert (Hd : In (Some t) (map Some (t0 :: ts))).
    { rewrite <- Edates, <- Ht. now apply in_map. }
    apply in_map_iff in Hd as (t' & E & Hin'). injection E as ->.
    destruct Hin' as [<- | Hin']; [exact Hge | now apply Hmax].
Qed.

Lemma getStats_lastUpdate_sample :
  exists s m,
    (getStats sampleEnv initialState).1 = Ok s
    /\ Stats.lastUpdate s = Some (Iso m)
    /\ (exists bus,
          In bus [normalizeRecord stoppedFourMinutes;
                  normalizeRecord movingHourAgo]
          /\ busDate bus = Some m)
    /\ (forall bus t,
          In bus [normalizeRecord stoppedFourMinutes;
                  normalizeRecord movingHourAgo] ->
          busDate bus = Some t -> t <= m).
Proof.
  assert (Hall : (getAllBusData sampleEnv initialState).1
                 = Ok [normalizeRecord stoppedFourMinutes;
                       normalizeRecord movingHourAgo]).
  { vm_compute. reflexivity. }
  assert (Hne : [normalizeRecord stoppedFourMinutes;
                 normalizeRecord movingHourAgo] <> []) by discriminate.
  assert (Hdated : forall bus,
             In bus [normalizeRecord stoppedFourMinutes;
                     normalizeRecord movingHourAgo] -> dated bus).
  { intros bus [<- | [<- | []]].
    - exists 1700000060000. split; [reflexivity | vm_compute; split; discriminate].
    - exists 1699996700000. split; [reflexivity | vm_compute; split; discriminate]. }
  exact (getStats_lastUpdate sampleEnv initialState _ Hall Hne Hdated).
Defined.

Lemma lineCount_snoc (k : string) (seen : list Bus) (bus : Bus) :
  lineCount k (seen ++ [bus])
  = (lineCount k seen + if String.eqb (statsLine bus) k then 1 else 0)%nat.
Proof.
  unfold lineCount. rewrite List.filter_app, length_app. cbn [List.filter].
  destruct (String.eqb (statsLine bus) k); reflexivity.
Qed.

Lemma counted_step (byLine : gmap string tally) (seen : list Bus) (bus : Bus) :
  counted byLine seen -> counted (countLine byLine bus) (seen ++ [bus]).
Proof.
  intros (Hcount & Hinh). unfold countLine.
  set (linha := statsLine bus).
  assert (Hother : forall k, k <> linha ->
            lineCount k (seen ++ [bus]) = lineCount k seen).
  { intros k Hk. rewrite lineCount_snoc. fold linha.
    destruct (String.eqb linha k) eqn:E; [| lia].
    apply String.eqb_eq in E. congruence. }
  assert (Hsame : lineCount linha (seen ++ [bus]) = S (lineCount linha seen)).
  { rewrite lineCount_snoc. fold linha. rewrite String.eqb_refl. lia. }
  destruct (inherited linha) eqn:Hi.
  - (* an inherited name: the counts of the other keys stay *)
    assert (Hk : forall k, inherited k = false -> k <> linha)
      by (intros k Hk ->; congruence).
    destruct (Hinh linha Hi) as [E | E]; rewrite E.
    + destruct (String.eqb linha "__proto__").
      * split.
        -- intros k Hkf. rewrite Hother by now apply Hk. now apply Hcount.
        -- exact Hinh.
      * split.
        -- intros k Hkf. rewrite lookup_insert_ne by (symmetry; now apply Hk).
           rewrite Hother by now apply Hk. now apply Hcount.
        -- intros k Hkt. destruct (String.eqb_spec k linha) as [-> | Hne].
           ++ right. apply lookup_insert_eq.
           ++ rewrite lookup_insert_ne by congruence. now apply Hinh.
    + split.
      * intros k Hkf. rewrite Hother by now apply Hk. now apply Hcount.
      * exact Hinh.
  - (* a line: its count goes up by one *)
    pose proof (Hcount linha Hi) as E.
    assert (Hnew : counted
                     (<[linha := Count (S (lineCount linha seen))]> byLine)
                     (seen ++ [bus])).
    { split.
      - intros k Hkf. destruct (String.eqb_spec k linha) as [-> | Hne].
        + rewrite lookup_insert_eq, Hsame. reflexivity.
        + rewrite lookup_insert_ne by congruence.
          rewrite Hother by assumption. now apply Hcount.
      - intros k Hkt. rewrite lookup_insert_ne by (intros ->; congruence).
        now apply Hinh. }
    destruct (lineCount linha seen =? 0)%nat eqn:Hz; rewrite E.
    + apply Nat.eqb_eq in Hz. now rewrite Hz in Hnew.
    + exact Hnew.
Qed.

Lemma counted_fold (data : list Bus) (byLine : gmap string tally)
    (seen : list Bus) :
  counted byLine seen ->
  counted (fold_left countLine data byLine) (seen ++ data).
Proof.
  revert byLine seen. induction data as [| bus data IH]; intros byLine seen H.
  - now rewrite app_nil_r.
  - cbn [fold_left].
    replace (seen ++ bus :: data)%list with ((seen ++ [bus]) ++ data)%list
      by now rewrite <- app_assoc.
    apply IH. now apply counted_step.
Qed.

Lemma counted_empty : counted ∅ [].
Proof.
  split; intros k _; rewrite lookup_empty; [reflexivity | now left].
Qed.

Lemma lineCount_pos (bus : Bus) (data : list Bus) :
  In bus data -> (0 < lineCount (statsLine bus) data)%nat.
Proof.
  intros Hin. unfold lineCount.
  assert (H : In bus (List.filter
                        (fun b => String.eqb (statsLine b) (statsLine bus))
                        data)).
  { apply List.filter_In. split; [assumption | apply String.eqb_refl]. }
  destruct (List.filter _ data); [contradiction | cbn; lia].
Qed.

(** X14.  The counts of getStats are right: under the line of a vehicle
    as the feed writes it, whole and with its case (or under
    [Desconhecida] when the vehicle has none), [byLine] holds the number
    of the vehicles of the list with that line, and it holds a count for
    no other key.  Only a line that is the name of a property every
    object inherits ([constructor], [toString], ...) gets no count. *)
Theorem getStats_byLine (env : Env) (st : State) (s : Stats.t) :
  (getStats env st).1 = Ok s ->
  exists data,
    (getAllBusData env st).1 = Ok data
    /\ Stats.total s = length data
    /\ (forall k, inherited k = false ->
          Stats.byLine s !! k
          = if (lineCount k data =? 0)%nat then None
            else Some (Count (lineCount k data)))
    /\ (forall k n, Stats.byLine s !! k = Some (Count n) ->
          n = lineCount k data /\ (0 < n)%nat /\ inherited k = false)
    /\ (forall bus, In bus data -> inherited (statsLine bus) = false ->
          Stats.byLine s !! statsLine bus
          = Some (Count (lineCount (statsLine bus) data)))
    /\ (forall bus, In bus data ->
          (truthy (busLinha bus) = true ->
           statsLine bus = valueToString (busLinha bus))
          /\ (truthy (busLinha bus) = false ->
              statsLine bus = "Desconhecida")).
Proof.
  rewrite getStats_run.
  destruct (getAllBusData env st) as [[data | e] st2]; cbn [fst];
    [| discriminate].
  intros Hs. exists data. split; [reflexivity |].
  assert (Hcounted : counted (Stats.byLine s) data
                     /\ Stats.total s = length data).
  { destruct data as [| b l]; cbn [isNil] in Hs.
    - injection Hs as <-. cbn [Stats.byLine Stats.total].
      split; [apply counted_empty | reflexivity].
    - destruct (toISOString _) as [iso |]; [| discriminate].
      injection Hs as <-. cbn [Stats.byLine Stats.total].
      split; [| reflexivity].
      exact (counted_fold (b :: l) ∅ [] counted_empty). }
  destruct Hcounted as ((Hcount & Hinh) & Htotal).
  split; [exact Htotal |]. split; [exact Hcount |]. split; [| split].
  - intros k n Hk. destruct (inherited k) eqn:Hi.
    + destruct (Hinh k Hi) as [E | E]; congruence.
    + rewrite (Hcount k Hi) in Hk.
      destruct (lineCount k data =? 0)%nat eqn:Hz; [discriminate |].
      injection Hk as <-. apply Nat.eqb_neq in Hz.
      repeat split; lia.
  - intros bus Hin Hi. rewrite (Hcount _ Hi).
    pose proof (lineCount_pos bus data Hin) as Hpos.
    destruct (lineCount (statsLine bus) data =? 0)%nat eqn:Hz;
      [| reflexivity].
    apply Nat.eqb_eq in Hz. lia.
  - intros bus _. unfold statsLine.
    destruct (truthy (busLinha bus)); split; intros H;
      try discriminate; reflexivity.
Qed.

Lemma getStats_byLine_sample :
  exists data,
    (getAllBusData sampleEnv initialState).1 = Ok data
    /\ Stats.total
         (Stats.mk 2 {[ "371" := Count 2 ]} (Fin (5 # 2))
            (Some (Iso 1700000060000)))
       = length data.
Proof.
  assert (Hs : (getStats sampleEnv initialState).1
               = Ok (Stats.mk 2 {[ "371" := Count 2 ]} (Fin (5 # 2))
                       (Some (Iso 1700000060000)))).
  { vm_compute. reflexivity. }
  destruct (getStats_byLine sampleEnv initialState _ Hs)
    as (data & Hd & Ht & _).
  exists data. split; assumption.
Defined.

(** ** The three caches of cacheService *)



(** ** The sweeps *)

Lemma peek_checkData {A : Type} (clock t : Z) (k : string)
    (s : gmap string (NodeCache.entry A)) :
  clock <= t ->
  NodeCache.peek t k (NodeCache.checkData clock s) = NodeCache.peek t k s.
Proof.
  intros Hle. rewrite !peek_lookup. unfold NodeCache.checkData.
  destruct (s !! k) as [e |] eqn:E.
  - destruct (NodeCache.live clock e) eqn:L.
    + erewrite map_lookup_filter_Some_2; [reflexivity | exact E | exact L].
    + replace (filter _ s !! k) with (@None (NodeCache.entry A)).
      * unfold NodeCache.live in *. apply Z.leb_gt in L.
        destruct (t <=? NodeCache.expires e) eqn:L'; [| reflexivity].
        apply Z.leb_le in L'. lia.
      * symmetry. apply map_lookup_filter_None. right. intros e' E' L'.
        cbn [snd] in L'. congruence.
  - replace (filter _ s !! k) with (@None (NodeCache.entry A));
      [reflexivity |].
    symmetry. apply map_lookup_filter_None. now left.
Qed.


Lemma sweep_owned (clock : Z) (st : State) :
  generalOwned st -> generalOwned (sweep clock st).
Proof.
  unfold generalOwned, sweep, NodeCache.checkData. cbn [generalCache].
  pose proof (dom_filter_subseteq
                (fun kv : string * NodeCache.entry (list Bus) =>
                   NodeCache.live clock kv.2 = true) (generalCache st)).
  set_solver.
Qed.

(** The index getAllBusData leaves. *)
Lemma getAllBusData_index (env : Env) (st : State) :
  generalOwned st ->
  lineIndex (getAllBusData env st).2
  = match cacheAnswer env st with
    | Some _ => lineIndex st
    | None =>
        match fetched env with
        | Some active => buildIndex active
        | None => lineIndex st
        end
    end.
Proof.
  intros Hown. destruct (cacheAnswer env st) as [d |] eqn:Hc.
  - unfold cacheAnswer in Hc.
    destruct (freshAt (now env) st) as [d' |] eqn:Hf.
    + now rewrite (getAllBusData_fresh env st d').
    + destruct (withinFetchInterval (now env) st) eqn:Hw; [| discriminate].
      now rewrite (getAllBusData_throttled_state env st d).
  - destruct (fetched env) as [active |] eqn:Hfe.
    + now rewrite (getAllBusData_fetched env st active).
    + now rewrite getAllBusData_not_fetched_state.
Qed.

Lemma sweep_cacheAnswer (clock : Z) (env : Env) (st : State) :
  clock <= now env ->
  cacheAnswer env (sweep clock st) = cacheAnswer env st.
Proof.
  intros Hle. unfold cacheAnswer, freshAt, staleAt, withinFetchInterval, sweep.
  cbn [generalCache lastFetchTime]. now rewrite !peek_checkData.
Qed.

Lemma sweep_getAllBusData (clock : Z) (env : Env) (st : State) :
  clock <= now env -> now env <= agora env -> generalOwned st ->
  (getAllBusData env (sweep clock st)).1 = (getAllBusData env st).1
  /\ lineIndex (getAllBusData env (sweep clock st)).2
     = lineIndex (getAllBusData env st).2.
Proof.
  intros Hle Hclock Hown.
  pose proof (sweep_owned clock st Hown) as Hown'.
  rewrite !getAllBusData_result, !getAllBusData_index by assumption.
  rewrite sweep_cacheAnswer by assumption.
  destruct (cacheAnswer env st) as [d |] eqn:Hc; [split; reflexivity |].
  destruct (fetched env); [split; reflexivity |].
  split; [| reflexivity].
  rewrite !generalAfterMiss_stale;
    try assumption; try (rewrite sweep_cacheAnswer; assumption).
  unfold staleAt, sweep. cbn [generalCache].
  rewrite peek_checkData by lia. reflexivity.
Qed.

Lemma set_outcome {A B : Type} (clock : Z) (k : string) (d : A) (ttl : Z)
    (s : gmap string (NodeCache.entry A)) (b : B) :
  match NodeCache.set clock k d ttl s with
  | Ok _ => Ok b
  | Throw e => Throw e
  end
  = stored (size s) (Ok b).
Proof.
  unfold NodeCache.set, stored.
  destruct (NodeCache.maxKeys <=? size s)%nat; reflexivity.
Qed.

Lemma indexAnswersb_true (q : string) (index : LineIndex) :
  indexAnswersb q index = true <-> indexAnswers q index.
Proof.
  unfold indexAnswersb, indexAnswers. rewrite orb_true_iff.
  destruct (matchPartial q index []); cbn [isNil negb].
  - split; (intros [H | H]; [now left |]); [discriminate | now contradiction H].
  - split; intros _; right; [discriminate | reflexivity].
Qed.

Lemma getBusByLine_outcome (env : Env) (st : State) (linha : string) :
  generalOwned st ->
  NodeCache.peek (now env) (lineCacheKey linha) (lineCache st) = None ->
  (getBusByLine env linha st).1
  = stored
      (size (NodeCache.get (now env) (lineCacheKey linha) (lineCache st)).2)
      (lineAnswer env linha st).
Proof.
  intros Hown Hmiss. unfold lineAnswer.
  destruct (indexAnswersb (toLowerCase (trim linha)) (lineIndex st)) eqn:Hb.
  - apply indexAnswersb_true in Hb.
    rewrite getBusByLine_indexed by assumption. cbv zeta.
    rewrite <- set_outcome
      with (clock := now env) (k := lineCacheKey linha)
           (d := lookupLine (toLowerCase (trim linha)) (lineIndex st))
           (ttl := 120).
    destruct (NodeCache.set _ _ _ _ _); reflexivity.
  - assert (Hans : ~ indexAnswers (toLowerCase (trim linha)) (lineIndex st)).
    { intros H. apply indexAnswersb_true in H. congruence. }
    rewrite getBusByLine_refresh by assumption. cbv zeta.
    rewrite getAllBusData_withLineCache by assumption.
    destruct (getAllBusData env st) as [[d | e] st2]; cbn [fst snd];
      [| reflexivity].
    cbn [withLineCache lineCache lineIndex].
    rewrite <- set_outcome
      with (clock := agora env) (k := lineCacheKey linha)
           (d := lookupLine (toLowerCase (trim linha)) (lineIndex st2))
           (ttl := 120).
    destruct (NodeCache.set _ _ _ _ _); reflexivity.
Qed.

Lemma getBusByPosition_outcome (env : Env) (st : State)
    (lat lon raioKm : number) :
  generalOwned st ->
  NodeCache.peek (now env) (positionKey lat lon raioKm) (positionCache st)
  = None ->
  (getBusByPosition env lat lon raioKm st).1
  = stored
      (size (NodeCache.get (now env) (positionKey lat lon raioKm)
               (positionCache st)).2)
      (positionAnswer env lat lon raioKm st).
Proof.
  intros Hown Hmiss. unfold positionAnswer.
  rewrite getBusByPosition_run by assumption. cbv zeta.
  rewrite getAllBusData_withPositionCache by assumption.
  destruct (getAllBusData env st) as [[d | e] st2]; cbn [fst snd];
    [| reflexivity].
  cbn [withPositionCache positionCache].
  rewrite <- set_outcome
    with (clock := agora env) (k := positionKey lat lon raioKm)
         (d := List.filter (noRaioEmRota (agora env) lat lon raioKm) d)
         (ttl := 120).
  destruct (NodeCache.set _ _ _ _ _); reflexivity.
Qed.

(** With fewer keys the store does what it did, or succeeds where it
    failed with a full cache. *)
Lemma stored_fewer {A : Type} (n m : nat) (answer : result A) :
  (n <= m)%nat ->
  stored n answer = stored m answer
  \/ stored m answer = Throw (Error "ECACHEFULL").
Proof.
  intros Hle. unfold stored. destruct answer as [a | e]; [| now left].
  destruct (NodeCache.maxKeys <=? m)%nat eqn:Em; [now right |].
  destruct (NodeCache.maxKeys <=? n)%nat eqn:En; [| now left].
  apply Nat.leb_le in En. apply Nat.leb_gt in Em. lia.
Qed.

Lemma stored_room {A : Type} (n : nat) (answer : result A) :
  (n < NodeCache.maxKeys)%nat -> stored n answer = answer.
Proof.
  intros H. unfold stored. destruct answer as [a | e]; [| reflexivity].
  destruct (NodeCache.maxKeys <=? n)%nat eqn:E; [| reflexivity].
  apply Nat.leb_le in E. lia.
Qed.

(** After the sweep the reading of a key leaves no more keys than it
    leaves without the sweep. *)
Lemma size_get_checkData {A : Type} (clock t : Z) (k : string)
    (s : gmap string (NodeCache.entry A)) :
  clock <= t ->
  (size (NodeCache.get t k (NodeCache.checkData clock s)).2
   <= size (NodeCache.get t k s).2)%nat.
Proof.
  intros Hle. rewrite <- !size_dom. apply subseteq_size.
  intros k' Hk'. apply elem_of_dom in Hk' as [e He]. apply elem_of_dom.
  destruct (decide (k' = k)) as [-> | Hne].
  - unfold NodeCache.get in He |- *. unfold NodeCache.checkData in He.
    destruct (filter _ s !! k) as [e' |] eqn:Ef.
    + apply map_lookup_filter_Some in Ef as [Es _]. rewrite Es.
      destruct (NodeCache.live t e'); cbn [snd] in *.
      * eauto.
      * rewrite lookup_delete_eq in He. discriminate.
    + cbn [snd] in He. congruence.
  - rewrite lookup_get_ne in He |- * by assumption.
    unfold NodeCache.checkData in He.
    apply map_lookup_filter_Some in He as [Es _]. eauto.
Qed.

(** X18.  What the periodic removal of the expired entries changes for
    the callers.  getAllBusData and getStats, called at a clock that is
    not before the sweep, answer from the swept state what they answer
    from the state as it was.  So do the queries by line and by
    position, with one exception: a query that fails with [ECACHEFULL]
    because its cache is full may find room after the sweep and succeed.
    A query whose cache has room never sees the sweep. *)
Theorem sweep_only_frees_room (clock : Z) (env : Env) (st : State) :
  clock <= now env -> now env <= agora env -> generalOwned st ->
  (getAllBusData env (sweep clock st)).1 = (getAllBusData env st).1
  /\ (getStats env (sweep clock st)).1 = (getStats env st).1
  /\ (forall linha,
        ((getBusByLine env linha (sweep clock st)).1
         = (getBusByLine env linha st).1
         \/ (getBusByLine env linha st).1 = Throw (Error "ECACHEFULL"))
        /\ ((size (lineCache st) < NodeCache.maxKeys)%nat ->
            (getBusByLine env linha (sweep clock st)).1
            = (getBusByLine env linha st).1))
  /\ (forall lat lon raioKm,
        ((getBusByPosition env lat lon raioKm (sweep clock st)).1
         = (getBusByPosition env lat lon raioKm st).1
         \/ (getBusByPosition env lat lon raioKm st).1
            = Throw (Error "ECACHEFULL"))
        /\ ((size (positionCache st) < NodeCache.maxKeys)%nat ->
            (getBusByPosition env lat lon raioKm (sweep clock st)).1
            = (getBusByPosition env lat lon raioKm st).1)).
Proof.
  intros Hle Hclock Hown.
  pose proof (sweep_owned clock st Hown) as Hown'.
  destruct (sweep_getAllBusData clock env st Hle Hclock Hown) as (Hall & Hidx).
  split; [exact Hall |]. split; [| split].
  - rewrite !getStats_run.
    destruct (getAllBusData env st) as [[d | e] st2];
      destruct (getAllBusData env (sweep clock st)) as [[d' | e'] st2'];
      cbn [fst snd] in *; try congruence.
    now injection Hall as ->.
  - intros linha.
    assert (Hpeek : NodeCache.peek (now env) (lineCacheKey linha)
                      (lineCache (sweep clock st))
                    = NodeCache.peek (now env) (lineCacheKey linha)
                        (lineCache st)).
    { cbn [sweep lineCache]. now apply peek_checkData. }
    destruct (NodeCache.peek (now env) (lineCacheKey linha) (lineCache st))
      as [d |] eqn:Hp.
    { rewrite (getBusByLine_hit env st linha d) by assumption.
      rewrite (getBusByLine_hit env (sweep clock st) linha d) by assumption.
      split; [now left | reflexivity]. }
    rewrite !getBusByLine_outcome by assumption.
    assert (Hanswer : lineAnswer env linha (sweep clock st)
                      = lineAnswer env linha st).
    { unfold lineAnswer. cbn [sweep lineIndex] in *.
      change (lineIndex (sweep clock st)) with (lineIndex st).
      destruct (indexAnswersb _ _); [reflexivity |].
      rewrite Hall, Hidx. reflexivity. }
    rewrite Hanswer. cbn [sweep lineCache].
    pose proof (size_get_checkData clock (now env) (lineCacheKey linha)
                  (lineCache st) Hle) as Hsize.
    split.
    + now apply stored_fewer.
    + intros Hroom.
      pose proof (size_get (now env) (lineCacheKey linha) (lineCache st)).
      rewrite !stored_room by lia. reflexivity.
  - intros lat lon raioKm.
    assert (Hpeek : NodeCache.peek (now env) (positionKey lat lon raioKm)
                      (positionCache (sweep clock st))
                    = NodeCache.peek (now env) (positionKey lat lon raioKm)
                        (positionCache st)).
    { cbn [sweep positionCache]. now apply peek_checkData. }
    destruct (NodeCache.peek (now env) (positionKey lat lon raioKm)
                (positionCache st)) as [d |] eqn:Hp.
    { rewrite (getBusByPosition_hit env st lat lon raioKm d) by assumption.
      rewrite (getBusByPosition_hit env (sweep clock st) lat lon raioKm d)
        by assumption.
      split; [now left | reflexivity]. }
    rewrite !getBusByPosition_outcome by assumption.
    unfold positionAnswer. rewrite Hall. cbn [sweep positionCache].
    pose proof (size_get_checkData clock (now env)
                  (positionKey lat lon raioKm) (positionCache st) Hle)
      as Hsize.
    split.
    + now apply stored_fewer.
    + intros Hroom.
      pose proof (size_get (now env) (positionKey lat lon raioKm)
                    (positionCache st)).
      rewrite !stored_room by lia. reflexivity.
Qed.

Lemma sweep_only_frees_room_sample :
  (getAllBusData laterEnv (sweep 1700000305000 stateAfterFetch)).1
  = (getAllBusData laterEnv stateAfterFetch).1
  /\ (getBusByLine laterEnv "371" (sweep 1700000305000 stateAfterFetch)).1
     = (getBusByLine laterEnv "371" stateAfterFetch).1.
Proof.
  assert (H1 : 1700000305000 <= now laterEnv) by (vm_compute; discriminate).
  assert (H2 : now laterEnv <= agora laterEnv) by (vm_compute; discriminate).
  assert (Hroom : (size (lineCache stateAfterFetch)
                   < NodeCache.maxKeys)%nat) by (vm_compute; lia).
  pose proof (sweep_only_frees_room 1700000305000 laterEnv stateAfterFetch
                H1 H2 stateAfterFetch_owned) as (Hall & _ & Hline & _).
  split; [exact Hall | exact (proj2 (Hline "371") Hroom)].
Defined.

(** ** The bound on the caches *)











